(** * bess-optimizer: the three cascading market LPs of [optimizer.py]

    The development embeds the three functions of [src/optimizer.py]
    ([step1_optimize_daa], [step2_optimize_ida], [step3_optimize_idc]).
    Each of them builds a Pyomo [ConcreteModel], hands it to an external
    solver and post-processes the values the solver loaded back.

    - Numbers.  Python floats are modelled as exact rationals ([Q]); the
      comparisons of the development are the setoid ones of [QArith].
    - Models.  A model is the data the Python code builds: variables with
      their index range and bounds, named constraint components holding
      relational expressions, and an objective expression (always
      maximised).  [feasible] evaluates a model under an assignment.
    - Exceptions.  Indexing a Python list out of range, indexing a Pyomo
      variable outside its index set, a NumPy shape mismatch and arithmetic
      on [None] are the four ways the code can raise; they are the four
      constructors of [exn], threaded through a small error monad.
    - Solver.  GLPK is external: it is a parameter [solver] of each stage,
      a function from the model to the values loaded back (or [None] when
      no value was loaded, in which case every [.value] is [None]). *)

From Stdlib Require Import QArith Qabs Lqa List String Bool Arith Lia.
Import ListNotations.
Open Scope Q_scope.

(** ** Python exceptions and the error monad *)

Inductive exn : Set := KeyError | IndexError | ValueError | TypeError.

Inductive result (A : Type) : Type :=
| Ok (a : A)
| Raise (e : exn).
Arguments Ok {A} a.
Arguments Raise {A} e.

Definition bind {A B : Type} (r : result A) (k : A -> result B) : result B :=
  match r with
  | Ok a => k a
  | Raise e => Raise e
  end.

Notation "x <- r ;; k" := (bind r (fun x => k))
  (at level 61, r at next level, right associativity).

(** A list comprehension (or the construction of an indexed component)
    whose body may raise: elements are produced left to right and the first
    exception aborts it. *)
Fixpoint for_each {A B : Type} (f : A -> result B) (l : list A) : result (list B) :=
  match l with
  | [] => Ok []
  | x :: l' => y <- f x ;; ys <- for_each f l' ;; Ok (y :: ys)
  end.

(** [v[i]] on a Python list, for a non-negative [i]. *)
Definition getitem (v : list Q) (i : nat) : result Q :=
  match nth_error v i with
  | Some x => Ok x
  | None => Raise IndexError
  end.

(** [range(lo, hi)]. *)
Definition range (lo hi : nat) : list nat := seq lo (hi - lo).

(** ** The fragment of Pyomo the code uses *)

(** [pyo.RangeSet(lo, hi)]: the integers [lo .. hi], both included. *)
Definition RangeSet (lo hi : nat) : list nat := seq lo (hi + 1 - lo).

(** The names of the variable components of the three models. *)
Inductive vname : Set :=
| soc
| cha_daa | dis_daa
| cha_ida | dis_ida | cha_ida_close | dis_ida_close
| cha_idc | dis_idc | cha_idc_close | dis_idc_close.

(** [pyo.Var(index, domain=..., bounds=...)]: [var_lb] and [var_ub] are
    [None] when the side is unbounded. *)
Record Var : Type := {
  var_name : vname;
  var_index : list nat;
  var_lb : option Q;
  var_ub : option Q
}.

(** [pyo.Var(index, domain=pyo.Reals)]. *)
Definition Reals_Var (x : vname) (index : list nat) : Var :=
  {| var_name := x; var_index := index; var_lb := None; var_ub := None |}.

(** [pyo.Var(index, domain=pyo.NonNegativeReals, bounds=(0,1))]. *)
Definition Unit_Var (x : vname) (index : list nat) : Var :=
  {| var_name := x; var_index := index; var_lb := Some 0; var_ub := Some 1 |}.

(** Pyomo expressions, as the arithmetic operators of Python build them. *)
Inductive expr : Type :=
| Num (c : Q)
| Ref (x : vname) (q : nat)
| Add (a b : expr)
| Sub (a b : expr)
| Mul (a b : expr)
| Div (a : expr) (c : Q).

Inductive relation : Set := RelLe | RelGe | RelEq.

Record constraint : Type := {
  lhs : expr;
  rel : relation;
  rhs : expr
}.

Declare Scope expr_scope.
Delimit Scope expr_scope with expr.
Bind Scope expr_scope with expr.
Notation "a + b" := (Add a b) : expr_scope.
Notation "a - b" := (Sub a b) : expr_scope.
Notation "a * b" := (Mul a b) : expr_scope.
Notation "a / c" := (Div a c) : expr_scope.
Notation "a [<=] b" := {| lhs := a%expr; rel := RelLe; rhs := b%expr |} (at level 70).
Notation "a [>=] b" := {| lhs := a%expr; rel := RelGe; rhs := b%expr |} (at level 70).
Notation "a [==] b" := {| lhs := a%expr; rel := RelEq; rhs := b%expr |} (at level 70).

(** [model.x[q]]: a [KeyError] outside the index set of the component. *)
Definition getvar (v : Var) (q : nat) : result expr :=
  if existsb (Nat.eqb q) (var_index v) then Ok (Ref (var_name v) q)
  else Raise KeyError.

(** Python's [sum(...)] over expressions: it starts from [0] and adds the
    terms from left to right. *)
Definition sum_expr (es : list expr) : expr := fold_left Add es (Num 0).

(** [sum(...)] and [np.sum(...)] over numbers. *)
Definition sum_Q (xs : list Q) : Q := fold_left Qplus xs 0.

(** A model: its variables, its constraint components in the order they
    are attached, and the objective, which every stage maximises. *)
Record ConcreteModel : Type := {
  variables : list Var;
  constraints : list (string * list constraint);
  obj : expr
}.

(** [pyo.Constraint(index, rule=rule)]: the rule is called on every index. *)
Definition Constraint (index : list nat) (rule : nat -> result constraint)
  : result (list constraint) := for_each rule index.

(** [pyo.Constraint(rule=rule)]: a scalar component. *)
Definition Constraint1 (rule : result constraint) : result (list constraint) :=
  c <- rule ;; Ok [c].

(** ** Meaning of a model under an assignment of its variables *)

Definition assignment : Type := vname -> nat -> Q.

Fixpoint eval (a : assignment) (e : expr) : Q :=
  match e with
  | Num c => c
  | Ref x q => a x q
  | Add e1 e2 => eval a e1 + eval a e2
  | Sub e1 e2 => eval a e1 - eval a e2
  | Mul e1 e2 => eval a e1 * eval a e2
  | Div e1 c => eval a e1 / c
  end.

Definition holds (a : assignment) (c : constraint) : bool :=
  match rel c with
  | RelLe => Qle_bool (eval a (lhs c)) (eval a (rhs c))
  | RelGe => Qle_bool (eval a (rhs c)) (eval a (lhs c))
  | RelEq => Qeq_bool (eval a (lhs c)) (eval a (rhs c))
  end.

Definition above (lb : option Q) (x : Q) : bool :=
  match lb with Some l => Qle_bool l x | None => true end.

Definition below (ub : option Q) (x : Q) : bool :=
  match ub with Some u => Qle_bool x u | None => true end.

Definition within_bounds (a : assignment) (v : Var) : bool :=
  forallb (fun q => above (var_lb v) (a (var_name v) q)
                    && below (var_ub v) (a (var_name v) q)) (var_index v).

Definition bounds_hold (a : assignment) (m : ConcreteModel) : bool :=
  forallb (within_bounds a) (variables m).

Definition component_holds (a : assignment) (c : string * list constraint) : bool :=
  forallb (holds a) (snd c).

(** [a] is a feasible solution of [m]. *)
Definition feasible (a : assignment) (m : ConcreteModel) : bool :=
  bounds_hold a m && forallb (component_holds a) (constraints m).

(** The constraints of the component called [name] ([model.name]). *)
Fixpoint component (name : string) (cs : list (string * list constraint))
  : list constraint :=
  match cs with
  | [] => []
  | (n, c) :: cs' => if String.eqb n name then c else component name cs'
  end.

(** ** Values loaded back by the solver and NumPy arithmetic *)

(** [[model.x[q].value for q in qs]]: [None] entries when the solver
    loaded nothing, a [KeyError] outside the index set. *)
Definition values (v : Var) (sol : option assignment) (qs : list nat)
  : result (list (option Q)) :=
  for_each (fun q => _ <- getvar v q ;;
                     Ok (option_map (fun a => a (var_name v) q) sol)) qs.

(** Arithmetic on a list of values: a [TypeError] on [None]. *)
Definition numbers (l : list (option Q)) : result (list Q) :=
  for_each (fun o => match o with Some x => Ok x | None => Raise TypeError end) l.

Fixpoint zip_with (f : Q -> Q -> Q) (x y : list Q) : list Q :=
  match x, y with
  | a :: x', b :: y' => f a b :: zip_with f x' y'
  | _, _ => []
  end.

(** An element-wise NumPy operation on two one-dimensional arrays, with
    NumPy's broadcasting of a one-element array. *)
Definition np_zip (f : Q -> Q -> Q) (x y : list Q) : result (list Q) :=
  if Nat.eqb (List.length x) (List.length y) then Ok (zip_with f x y)
  else match x, y with
       | [a], _ => Ok (map (f a) y)
       | _, [b] => Ok (map (fun a => f a b) x)
       | _, _ => Raise ValueError
       end.

(** The result of Stage 1: [(step1_soc_daa, step1_cha_daa, step1_dis_daa,
    step1_profit_daa)]. *)
Record step1_result : Type := {
  res1_soc : list Q;
  res1_cha : list Q;
  res1_dis : list Q;
  res1_profit : Q
}.

(** The result of Stage 2 and of Stage 3: [(soc, cha, dis, cha_close,
    dis_close, profit, combined_cha, combined_dis)]. *)
Record step23_result : Type := {
  res_soc : list Q;
  res_cha : list Q;
  res_dis : list Q;
  res_cha_close : list Q;
  res_dis_close : list Q;
  res_profit : Q;
  res_cha_combined : list Q;
  res_dis_combined : list Q
}.

(** ** Stage 1: the day-ahead auction ([step1_optimize_daa]) *)

Module Step1.
Section Model.

Variables n_cycles energy_cap power_cap : Q.
Variable daa_price_vector : list Q.

(** [model.H], [model.Q], [model.Q_plus_1]. *)
Definition model_H : list nat := RangeSet 0 23.
Definition model_Q : list nat := RangeSet 1 96.
Definition model_Q_plus_1 : list nat := RangeSet 1 97.

Definition volume_limit : Q := energy_cap * n_cycles.

Definition model_soc : Var := Reals_Var soc model_Q_plus_1.
Definition model_cha_daa : Var := Unit_Var cha_daa model_Q.
Definition model_dis_daa : Var := Unit_Var dis_daa model_Q.

Definition set_maximum_soc (q : nat) : result constraint :=
  s <- getvar model_soc q ;; Ok (s [<=] Num energy_cap).

Definition set_minimum_soc (q : nat) : result constraint :=
  s <- getvar model_soc q ;; Ok (s [>=] Num 0).

Definition set_first_soc_to_0 : result constraint :=
  s <- getvar model_soc 1 ;; Ok (s [==] Num 0).

Definition set_last_soc_to_0 : result constraint :=
  s <- getvar model_soc 97 ;; Ok (s [==] Num 0).

Definition soc_step_constraint (q : nat) : result constraint :=
  s1 <- getvar model_soc (q + 1) ;;
  s0 <- getvar model_soc q ;;
  c <- getvar model_cha_daa q ;;
  d <- getvar model_dis_daa q ;;
  Ok (s1 [==] s0 + Num (power_cap / 4) * c - Num (power_cap / 4) * d).

Definition charge_cycle_limit : result constraint :=
  ts <- for_each (fun q => c <- getvar model_cha_daa q ;;
                           Ok (c * Num power_cap / 4)%expr) model_Q ;;
  Ok (sum_expr ts [<=] Num volume_limit).

Definition discharge_cycle_limit : result constraint :=
  ts <- for_each (fun q => d <- getvar model_dis_daa q ;;
                           Ok (d * Num power_cap / 4)%expr) model_Q ;;
  Ok (sum_expr ts [<=] Num volume_limit).

Definition cha_daa_quarters_1_2_parity (q : nat) : result constraint :=
  x <- getvar model_cha_daa (4 * q + 1) ;;
  y <- getvar model_cha_daa (4 * q + 2) ;;
  Ok (x [==] y).

Definition cha_daa_quarters_2_3_parity (q : nat) : result constraint :=
  x <- getvar model_cha_daa (4 * q + 2) ;;
  y <- getvar model_cha_daa (4 * q + 3) ;;
  Ok (x [==] y).

Definition cha_daa_quarters_3_4_parity (q : nat) : result constraint :=
  x <- getvar model_cha_daa (4 * q + 3) ;;
  y <- getvar model_cha_daa (4 * q + 4) ;;
  Ok (x [==] y).

(** The three [dis_daa_..._parity] rules of the source read
    [model.cha_daa], as the three rules above do. *)
Definition dis_daa_quarters_1_2_parity (q : nat) : result constraint :=
  x <- getvar model_cha_daa (4 * q + 1) ;;
  y <- getvar model_cha_daa (4 * q + 2) ;;
  Ok (x [==] y).

Definition dis_daa_quarters_2_3_parity (q : nat) : result constraint :=
  x <- getvar model_cha_daa (4 * q + 2) ;;
  y <- getvar model_cha_daa (4 * q + 3) ;;
  Ok (x [==] y).

Definition dis_daa_quarters_3_4_parity (q : nat) : result constraint :=
  x <- getvar model_cha_daa (4 * q + 3) ;;
  y <- getvar model_cha_daa (4 * q + 4) ;;
  Ok (x [==] y).

(** [model.obj]: the revenue of the day-ahead trades. *)
Definition objective : result expr :=
  ts <- for_each (fun q => p <- getitem daa_price_vector (q - 1) ;;
                           d <- getvar model_dis_daa q ;;
                           c <- getvar model_cha_daa q ;;
                           Ok (Num (power_cap / 4 * p) * (d - c))%expr) model_Q ;;
  Ok (sum_expr ts).

(** The model as it stands when [solver.solve] is called. *)
Definition build_model : result ConcreteModel :=
  c1 <- Constraint model_Q_plus_1 set_maximum_soc ;;
  c2 <- Constraint model_Q_plus_1 set_minimum_soc ;;
  c3 <- Constraint1 set_first_soc_to_0 ;;
  c4 <- Constraint1 set_last_soc_to_0 ;;
  c5 <- Constraint model_Q soc_step_constraint ;;
  c6 <- Constraint1 charge_cycle_limit ;;
  c7 <- Constraint1 discharge_cycle_limit ;;
  c8 <- Constraint model_H cha_daa_quarters_1_2_parity ;;
  c9 <- Constraint model_H cha_daa_quarters_2_3_parity ;;
  c10 <- Constraint model_H cha_daa_quarters_3_4_parity ;;
  c11 <- Constraint model_H dis_daa_quarters_1_2_parity ;;
  c12 <- Constraint model_H dis_daa_quarters_2_3_parity ;;
  c13 <- Constraint model_H dis_daa_quarters_3_4_parity ;;
  o <- objective ;;
  Ok {| variables := [model_soc; model_cha_daa; model_dis_daa];
        constraints :=
          [("set_maximum_soc"%string, c1); ("set_minimum_soc"%string, c2);
           ("set_first_soc_to_0"%string, c3); ("set_last_soc_to_0"%string, c4);
           ("soc_step_constraint"%string, c5);
           ("charge_cycle_limit"%string, c6);
           ("discharge_cycle_limit"%string, c7);
           ("cha_daa_quarters_1_2_parity"%string, c8);
           ("cha_daa_quarters_2_3_parity"%string, c9);
           ("cha_daa_quarters_3_4_parity"%string, c10);
           ("dis_daa_quarters_1_2_parity"%string, c11);
           ("dis_daa_quarters_2_3_parity"%string, c12);
           ("dis_daa_quarters_3_4_parity"%string, c13)];
        obj := o |}.

(** The external solver: the values it loads back into the model. *)
Variable solver : ConcreteModel -> option assignment.

(** The profit recomputed from the solved values. *)
Definition profit (cha dis : list Q) : result Q :=
  ts <- for_each (fun q => p <- getitem daa_price_vector q ;;
                           d <- getitem dis q ;;
                           c <- getitem cha q ;;
                           Ok (power_cap / 4 * p * (d - c)))
                 (range 0 (List.length daa_price_vector)) ;;
  Ok (sum_Q ts).

Definition step1_optimize_daa : result step1_result :=
  model <- build_model ;;
  let sol := solver model in
  let qs := range 1 (List.length daa_price_vector + 1) in
  soc_v <- values model_soc sol qs ;;
  cha_v <- values model_cha_daa sol qs ;;
  dis_v <- values model_dis_daa sol qs ;;
  dis_n <- numbers dis_v ;;
  cha_n <- numbers cha_v ;;
  soc_n <- numbers soc_v ;;
  p <- profit cha_n dis_n ;;
  Ok {| res1_soc := soc_n; res1_cha := cha_n;
        res1_dis := dis_n; res1_profit := p |}.

End Model.
End Step1.

(** ** Stage 2: the intraday auction ([step2_optimize_ida]) *)

Module Step2.
Section Model.

Variables n_cycles energy_cap power_cap : Q.
Variable ida_price_vector : list Q.
Variables step1_cha_daa step1_dis_daa : list Q.

(** [model.Q] and [model.Q_plus_1].  ([model.H] is also declared by the
    source, but no component of this stage is indexed by it.) *)
Definition model_Q : list nat := RangeSet 1 (List.length ida_price_vector).
Definition model_Q_plus_1 : list nat :=
  RangeSet 1 (List.length ida_price_vector + 1).

Definition volume_limit : Q := energy_cap * n_cycles.

Definition model_soc : Var := Reals_Var soc model_Q_plus_1.
Definition model_cha_ida : Var := Unit_Var cha_ida model_Q.
Definition model_dis_ida : Var := Unit_Var dis_ida model_Q.
Definition model_cha_ida_close : Var := Unit_Var cha_ida_close model_Q.
Definition model_dis_ida_close : Var := Unit_Var dis_ida_close model_Q.

Definition set_maximum_soc (q : nat) : result constraint :=
  s <- getvar model_soc q ;; Ok (s [<=] Num energy_cap).

Definition set_minimum_soc (q : nat) : result constraint :=
  s <- getvar model_soc q ;; Ok (s [>=] Num 0).

Definition set_first_soc_to_0 : result constraint :=
  s <- getvar model_soc 1 ;; Ok (s [==] Num 0).

Definition set_last_soc_to_0 : result constraint :=
  s <- getvar model_soc 97 ;; Ok (s [==] Num 0).

Definition soc_step_constraint (q : nat) : result constraint :=
  s1 <- getvar model_soc (q + 1) ;;
  s0 <- getvar model_soc q ;;
  c <- getvar model_cha_ida q ;;
  d <- getvar model_dis_ida q ;;
  cc <- getvar model_cha_ida_close q ;;
  dc <- getvar model_dis_ida_close q ;;
  pc <- getitem step1_cha_daa (q - 1) ;;
  pd <- getitem step1_dis_daa (q - 1) ;;
  Ok (s1 [==] s0 + Num (power_cap / 4) * (c - d + cc - dc + Num pc - Num pd)).

Definition charge_cycle_limit : result constraint :=
  ts <- for_each (getvar model_cha_ida) model_Q ;;
  us <- for_each (getvar model_dis_ida_close) model_Q ;;
  Ok ((Num (sum_Q step1_cha_daa) + sum_expr ts - sum_expr us) * Num power_cap / 4
      [<=] Num volume_limit).

Definition discharge_cycle_limit : result constraint :=
  ts <- for_each (getvar model_dis_ida) model_Q ;;
  us <- for_each (getvar model_cha_ida_close) model_Q ;;
  Ok ((Num (sum_Q step1_dis_daa) + sum_expr ts - sum_expr us) * Num power_cap / 4
      [<=] Num volume_limit).

Definition cha_close_logic (q : nat) : result constraint :=
  cc <- getvar model_cha_ida_close q ;;
  pd <- getitem step1_dis_daa (q - 1) ;;
  Ok (cc [<=] Num pd).

Definition dis_close_logic (q : nat) : result constraint :=
  dc <- getvar model_dis_ida_close q ;;
  pc <- getitem step1_cha_daa (q - 1) ;;
  Ok (dc [<=] Num pc).

Definition charge_rate_limit (q : nat) : result constraint :=
  c <- getvar model_cha_ida q ;;
  pc <- getitem step1_cha_daa (q - 1) ;;
  Ok (c + Num pc [<=] Num 1).

Definition discharge_rate_limit (q : nat) : result constraint :=
  d <- getvar model_dis_ida q ;;
  pd <- getitem step1_dis_daa (q - 1) ;;
  Ok (d + Num pd [<=] Num 1).

(** [model.obj]: the revenue of the trades of this market. *)
Definition objective : result expr :=
  ts <- for_each (fun q => p <- getitem ida_price_vector (q - 1) ;;
                           d <- getvar model_dis_ida q ;;
                           dc <- getvar model_dis_ida_close q ;;
                           c <- getvar model_cha_ida q ;;
                           cc <- getvar model_cha_ida_close q ;;
                           Ok (Num (p * power_cap / 4) * (d + dc - c - cc))%expr)
                 model_Q ;;
  Ok (sum_expr ts).

(** The model as it stands when [solver.solve] is called.  (The source
    attaches the two cycle-budget rules with [expr=]; Pyomo calls a
    function passed there as it calls one passed with [rule=].) *)
Definition build_model : result ConcreteModel :=
  c1 <- Constraint model_Q_plus_1 set_maximum_soc ;;
  c2 <- Constraint model_Q_plus_1 set_minimum_soc ;;
  c3 <- Constraint1 set_first_soc_to_0 ;;
  c4 <- Constraint1 set_last_soc_to_0 ;;
  c5 <- Constraint model_Q soc_step_constraint ;;
  c6 <- Constraint1 charge_cycle_limit ;;
  c7 <- Constraint1 discharge_cycle_limit ;;
  c8 <- Constraint model_Q cha_close_logic ;;
  c9 <- Constraint model_Q dis_close_logic ;;
  c10 <- Constraint model_Q charge_rate_limit ;;
  c11 <- Constraint model_Q discharge_rate_limit ;;
  o <- objective ;;
  Ok {| variables := [model_soc; model_cha_ida; model_dis_ida;
                      model_cha_ida_close; model_dis_ida_close];
        constraints :=
          [("set_maximum_soc"%string, c1); ("set_minimum_soc"%string, c2);
           ("set_first_soc_to_0"%string, c3); ("set_last_soc_to_0"%string, c4);
           ("soc_step_constraint"%string, c5);
           ("charge_cycle_limit"%string, c6);
           ("discharge_cycle_limit"%string, c7);
           ("cha_close_logic"%string, c8); ("dis_close_logic"%string, c9);
           ("charge_rate_limit"%string, c10);
           ("discharge_rate_limit"%string, c11)];
        obj := o |}.

(** The external solver: the values it loads back into the model. *)
Variable solver : ConcreteModel -> option assignment.

(** The profit recomputed from the solved values with NumPy. *)
Definition profit (cha dis cha_close dis_close : list Q) : result Q :=
  sells <- np_zip Qplus dis dis_close ;;
  buys <- np_zip Qplus cha cha_close ;;
  net <- np_zip Qminus sells buys ;;
  rev <- np_zip Qmult net ida_price_vector ;;
  Ok (sum_Q rev * power_cap / 4).

(** [np.asarray(prior) - close + new]: the combined physical position. *)
Definition combined (prior close new : list Q) : result (list Q) :=
  x <- np_zip Qminus prior close ;; np_zip Qplus x new.

Definition step2_optimize_ida : result step23_result :=
  model <- build_model ;;
  let sol := solver model in
  let qs := range 1 (List.length ida_price_vector + 1) in
  soc_v <- values model_soc sol qs ;;
  cha_v <- values model_cha_ida sol qs ;;
  dis_v <- values model_dis_ida sol qs ;;
  cha_close_v <- values model_cha_ida_close sol qs ;;
  dis_close_v <- values model_dis_ida_close sol qs ;;
  dis_n <- numbers dis_v ;;
  dis_close_n <- numbers dis_close_v ;;
  cha_n <- numbers cha_v ;;
  cha_close_n <- numbers cha_close_v ;;
  soc_n <- numbers soc_v ;;
  p <- profit cha_n dis_n cha_close_n dis_close_n ;;
  cha_c <- combined step1_cha_daa dis_close_n cha_n ;;
  dis_c <- combined step1_dis_daa cha_close_n dis_n ;;
  Ok {| res_soc := soc_n; res_cha := cha_n; res_dis := dis_n;
        res_cha_close := cha_close_n; res_dis_close := dis_close_n;
        res_profit := p;
        res_cha_combined := cha_c; res_dis_combined := dis_c |}.

End Model.
End Step2.

(** ** Stage 3: intraday continuous trading ([step3_optimize_idc]) *)

Module Step3.
Section Model.

Variables n_cycles energy_cap power_cap : Q.
Variable idc_price_vector : list Q.
Variables step2_cha_daaida step2_dis_daaida : list Q.

(** [model.Q] and [model.Q_plus_1].  ([model.H] is also declared by the
    source, but no component of this stage is indexed by it.) *)
Definition model_Q : list nat := RangeSet 1 (List.length idc_price_vector).
Definition model_Q_plus_1 : list nat :=
  RangeSet 1 (List.length idc_price_vector + 1).

Definition volume_limit : Q := energy_cap * n_cycles.

Definition model_soc : Var := Reals_Var soc model_Q_plus_1.
Definition model_cha_idc : Var := Unit_Var cha_idc model_Q.
Definition model_dis_idc : Var := Unit_Var dis_idc model_Q.
Definition model_cha_idc_close : Var := Unit_Var cha_idc_close model_Q.
Definition model_dis_idc_close : Var := Unit_Var dis_idc_close model_Q.

Definition set_maximum_soc (q : nat) : result constraint :=
  s <- getvar model_soc q ;; Ok (s [<=] Num energy_cap).

Definition set_minimum_soc (q : nat) : result constraint :=
  s <- getvar model_soc q ;; Ok (s [>=] Num 0).

Definition set_first_soc_to_0 : result constraint :=
  s <- getvar model_soc 1 ;; Ok (s [==] Num 0).

Definition set_last_soc_to_0 : result constraint :=
  s <- getvar model_soc 97 ;; Ok (s [==] Num 0).

Definition soc_step_constraint (q : nat) : result constraint :=
  s1 <- getvar model_soc (q + 1) ;;
  s0 <- getvar model_soc q ;;
  c <- getvar model_cha_idc q ;;
  d <- getvar model_dis_idc q ;;
  cc <- getvar model_cha_idc_close q ;;
  dc <- getvar model_dis_idc_close q ;;
  pc <- getitem step2_cha_daaida (q - 1) ;;
  pd <- getitem step2_dis_daaida (q - 1) ;;
  Ok (s1 [==] s0 + Num (power_cap / 4) * (c - d + cc - dc + Num pc - Num pd)).

(** In this stage the rule called [charge_cycle_limit] bounds the
    discharged energy and [discharge_cycle_limit] the charged energy. *)
Definition charge_cycle_limit : result constraint :=
  ts <- for_each (getvar model_dis_idc) model_Q ;;
  us <- for_each (getvar model_cha_idc_close) model_Q ;;
  Ok ((Num (sum_Q step2_dis_daaida) + sum_expr ts - sum_expr us) * Num power_cap / 4
      [<=] Num volume_limit).

Definition discharge_cycle_limit : result constraint :=
  ts <- for_each (getvar model_cha_idc) model_Q ;;
  us <- for_each (getvar model_dis_idc_close) model_Q ;;
  Ok ((Num (sum_Q step2_cha_daaida) + sum_expr ts - sum_expr us) * Num power_cap / 4
      [<=] Num volume_limit).

Definition cha_close_logic (q : nat) : result constraint :=
  cc <- getvar model_cha_idc_close q ;;
  pd <- getitem step2_dis_daaida (q - 1) ;;
  Ok (cc [<=] Num pd).

Definition dis_close_logic (q : nat) : result constraint :=
  dc <- getvar model_dis_idc_close q ;;
  pc <- getitem step2_cha_daaida (q - 1) ;;
  Ok (dc [<=] Num pc).

Definition charge_rate_limit (q : nat) : result constraint :=
  c <- getvar model_cha_idc q ;;
  pc <- getitem step2_cha_daaida (q - 1) ;;
  Ok (c + Num pc [<=] Num 1).

Definition discharge_rate_limit (q : nat) : result constraint :=
  d <- getvar model_dis_idc q ;;
  pd <- getitem step2_dis_daaida (q - 1) ;;
  Ok (d + Num pd [<=] Num 1).

(** [model.obj]: the revenue of the trades of this market. *)
Definition objective : result expr :=
  ts <- for_each (fun q => p <- getitem idc_price_vector (q - 1) ;;
                           d <- getvar model_dis_idc q ;;
                           dc <- getvar model_dis_idc_close q ;;
                           c <- getvar model_cha_idc q ;;
                           cc <- getvar model_cha_idc_close q ;;
                           Ok (Num (p * power_cap / 4) * (d + dc - c - cc))%expr)
                 model_Q ;;
  Ok (sum_expr ts).

(** The model as it stands when [solver.solve] is called. *)
Definition build_model : result ConcreteModel :=
  c1 <- Constraint model_Q_plus_1 set_maximum_soc ;;
  c2 <- Constraint model_Q_plus_1 set_minimum_soc ;;
  c3 <- Constraint1 set_first_soc_to_0 ;;
  c4 <- Constraint1 set_last_soc_to_0 ;;
  c5 <- Constraint model_Q soc_step_constraint ;;
  c6 <- Constraint1 charge_cycle_limit ;;
  c7 <- Constraint1 discharge_cycle_limit ;;
  c8 <- Constraint model_Q cha_close_logic ;;
  c9 <- Constraint model_Q dis_close_logic ;;
  c10 <- Constraint model_Q charge_rate_limit ;;
  c11 <- Constraint model_Q discharge_rate_limit ;;
  o <- objective ;;
  Ok {| variables := [model_soc; model_cha_idc; model_dis_idc;
                      model_cha_idc_close; model_dis_idc_close];
        constraints :=
          [("set_maximum_soc"%string, c1); ("set_minimum_soc"%string, c2);
           ("set_first_soc_to_0"%string, c3); ("set_last_soc_to_0"%string, c4);
           ("soc_step_constraint"%string, c5);
           ("charge_cycle_limit"%string, c6);
           ("discharge_cycle_limit"%string, c7);
           ("cha_close_logic"%string, c8); ("dis_close_logic"%string, c9);
           ("charge_rate_limit"%string, c10);
           ("discharge_rate_limit"%string, c11)];
        obj := o |}.

(** The external solver: the values it loads back into the model. *)
Variable solver : ConcreteModel -> option assignment.

(** The profit recomputed from the solved values with NumPy. *)
Definition profit (cha dis cha_close dis_close : list Q) : result Q :=
  sells <- np_zip Qplus dis dis_close ;;
  buys <- np_zip Qplus cha cha_close ;;
  net <- np_zip Qminus sells buys ;;
  rev <- np_zip Qmult net idc_price_vector ;;
  Ok (sum_Q rev * power_cap / 4).

(** [np.asarray(prior) - close + new]: the combined physical position. *)
Definition combined (prior close new : list Q) : result (list Q) :=
  x <- np_zip Qminus prior close ;; np_zip Qplus x new.

Definition step3_optimize_idc : result step23_result :=
  model <- build_model ;;
  let sol := solver model in
  let qs := range 1 (List.length idc_price_vector + 1) in
  soc_v <- values model_soc sol qs ;;
  cha_v <- values model_cha_idc sol qs ;;
  dis_v <- values model_dis_idc sol qs ;;
  cha_close_v <- values model_cha_idc_close sol qs ;;
  dis_close_v <- values model_dis_idc_close sol qs ;;
  dis_n <- numbers dis_v ;;
  dis_close_n <- numbers dis_close_v ;;
  cha_n <- numbers cha_v ;;
  cha_close_n <- numbers cha_close_v ;;
  soc_n <- numbers soc_v ;;
  p <- profit cha_n dis_n cha_close_n dis_close_n ;;
  cha_c <- combined step2_cha_daaida dis_close_n cha_n ;;
  dis_c <- combined step2_dis_daaida cha_close_n dis_n ;;
  Ok {| res_soc := soc_n; res_cha := cha_n; res_dis := dis_n;
        res_cha_close := cha_close_n; res_dis_close := dis_close_n;
        res_profit := p;
        res_cha_combined := cha_c; res_dis_combined := dis_c |}.

End Model.
End Step3.


(** ** The three stages side by side *)

Inductive stage : Set := DAA | IDA | IDC.

(** The model a stage builds.  Stage 1 has no prior position. *)
Definition build_model (s : stage) (n_cycles energy_cap power_cap : Q)
    (price prior_cha prior_dis : list Q) : result ConcreteModel :=
  match s with
  | DAA => Step1.build_model n_cycles energy_cap power_cap price
  | IDA => Step2.build_model n_cycles energy_cap power_cap price prior_cha prior_dis
  | IDC => Step3.build_model n_cycles energy_cap power_cap price prior_cha prior_dis
  end.

(** The charge and discharge variables of a stage. *)
Definition cha_of (s : stage) : vname :=
  match s with DAA => cha_daa | IDA => cha_ida | IDC => cha_idc end.

Definition dis_of (s : stage) : vname :=
  match s with DAA => dis_daa | IDA => dis_ida | IDC => dis_idc end.

(** The two later stages, which have closing variables and a prior. *)
Inductive market : Set := Auction | Continuous.

Definition stage_of (k : market) : stage :=
  match k with Auction => IDA | Continuous => IDC end.

Definition cha_close_of (k : market) : vname :=
  match k with Auction => cha_ida_close | Continuous => cha_idc_close end.

Definition dis_close_of (k : market) : vname :=
  match k with Auction => dis_ida_close | Continuous => dis_idc_close end.

Definition optimize (k : market) (n_cycles energy_cap power_cap : Q)
    (price prior_cha prior_dis : list Q)
    (solver : ConcreteModel -> option assignment) : result step23_result :=
  match k with
  | Auction => Step2.step2_optimize_ida n_cycles energy_cap power_cap price
                 prior_cha prior_dis solver
  | Continuous => Step3.step3_optimize_idc n_cycles energy_cap power_cap price
                    prior_cha prior_dis solver
  end.

(** The prior position of quarter [q] (numbered from 1, as the variables
    are): entry [q-1] of the Python list. *)
Definition prior (v : list Q) (q : nat) : Q := nth (q - 1) v 0.

(** The net flow into the battery in quarter [q], in units of power. *)
Definition netflow (s : stage) (a : assignment) (prior_cha prior_dis : list Q)
    (q : nat) : Q :=
  match s with
  | DAA => a cha_daa q - a dis_daa q
  | IDA => a cha_ida q - a dis_ida q + a cha_ida_close q - a dis_ida_close q
           + prior prior_cha q - prior prior_dis q
  | IDC => a cha_idc q - a dis_idc q + a cha_idc_close q - a dis_idc_close q
           + prior prior_cha q - prior prior_dis q
  end.

(** The values of variable [x] over the quarters [1 .. n]. *)
Definition day (a : assignment) (x : vname) (n : nat) : list Q :=
  map (a x) (RangeSet 1 n).

(** The prior position a stage accounts for in its cycle budget: none in
    Stage 1, [np.sum] of the prior vector in the later stages. *)
Definition prior_total (s : stage) (prior_v : list Q) : Q :=
  match s with DAA => 0 | IDA | IDC => sum_Q prior_v end.

(** The closing trades of the day: the discharge-closes reduce the charged
    energy, the charge-closes the discharged energy.  Stage 1 has none. *)
Definition dis_closed (s : stage) (a : assignment) (n : nat) : Q :=
  match s with
  | DAA => 0
  | IDA => sum_Q (day a dis_ida_close n)
  | IDC => sum_Q (day a dis_idc_close n)
  end.

Definition cha_closed (s : stage) (a : assignment) (n : nat) : Q :=
  match s with
  | DAA => 0
  | IDA => sum_Q (day a cha_ida_close n)
  | IDC => sum_Q (day a cha_idc_close n)
  end.

(** The charged and the discharged energy of the day a stage accounts
    for: prior position plus new trades minus closing trades of the
    opposite side, times the energy of a quarter at full power. *)
Definition charged_energy (s : stage) (power_cap : Q) (a : assignment)
    (prior_cha : list Q) (n : nat) : Q :=
  (prior_total s prior_cha + sum_Q (day a (cha_of s) n) - dis_closed s a n)
  * power_cap / 4.

Definition discharged_energy (s : stage) (power_cap : Q) (a : assignment)
    (prior_dis : list Q) (n : nat) : Q :=
  (prior_total s prior_dis + sum_Q (day a (dis_of s) n) - cha_closed s a n)
  * power_cap / 4.

(** A position vector entry is a fraction of the power capacity. *)
Definition unit_interval (x : Q) : Prop := 0 <= x <= 1.

(** The constraints of the Stage 1 model, read on an assignment: bounds
    of the variables, then the thirteen components in the order the source
    attaches them.  The three [dis_daa_..._parity] components repeat the
    three [cha_daa_..._parity] ones, so they add nothing here. *)
Record Step1_constraints (n_cycles energy_cap power_cap : Q) (a : assignment)
  : Prop := {
  s1_cha_bounds : forall q, (1 <= q <= 96)%nat -> 0 <= a cha_daa q <= 1;
  s1_dis_bounds : forall q, (1 <= q <= 96)%nat -> 0 <= a dis_daa q <= 1;
  s1_soc_max : forall q, (1 <= q <= 97)%nat -> a soc q <= energy_cap;
  s1_soc_min : forall q, (1 <= q <= 97)%nat -> 0 <= a soc q;
  s1_first : a soc 1%nat == 0;
  s1_last : a soc 97%nat == 0;
  s1_step : forall q, (1 <= q <= 96)%nat ->
      a soc (q + 1)%nat
      == a soc q + power_cap / 4 * a cha_daa q - power_cap / 4 * a dis_daa q;
  s1_cha_cycle :
      sum_Q (map (fun q => a cha_daa q * power_cap / 4) (RangeSet 1 96))
      <= energy_cap * n_cycles;
  s1_dis_cycle :
      sum_Q (map (fun q => a dis_daa q * power_cap / 4) (RangeSet 1 96))
      <= energy_cap * n_cycles;
  s1_parity_12 : forall h, (h <= 23)%nat ->
      a cha_daa (4 * h + 1)%nat == a cha_daa (4 * h + 2)%nat;
  s1_parity_23 : forall h, (h <= 23)%nat ->
      a cha_daa (4 * h + 2)%nat == a cha_daa (4 * h + 3)%nat;
  s1_parity_34 : forall h, (h <= 23)%nat ->
      a cha_daa (4 * h + 3)%nat == a cha_daa (4 * h + 4)%nat
}.

(** The constraints of the Stage 2 and Stage 3 models, read on an
    assignment; [n] is the length of the price vector. *)
Record Step23_constraints (k : market) (n_cycles energy_cap power_cap : Q)
    (n : nat) (prior_cha prior_dis : list Q) (a : assignment) : Prop := {
  s23_quarters : (96 <= n)%nat;
  s23_prior_cha_len : (n <= List.length prior_cha)%nat;
  s23_prior_dis_len : (n <= List.length prior_dis)%nat;
  s23_cha_bounds : forall q, (1 <= q <= n)%nat ->
      0 <= a (cha_of (stage_of k)) q <= 1;
  s23_dis_bounds : forall q, (1 <= q <= n)%nat ->
      0 <= a (dis_of (stage_of k)) q <= 1;
  s23_cha_close_bounds : forall q, (1 <= q <= n)%nat ->
      0 <= a (cha_close_of k) q <= 1;
  s23_dis_close_bounds : forall q, (1 <= q <= n)%nat ->
      0 <= a (dis_close_of k) q <= 1;
  s23_soc_max : forall q, (1 <= q <= n + 1)%nat -> a soc q <= energy_cap;
  s23_soc_min : forall q, (1 <= q <= n + 1)%nat -> 0 <= a soc q;
  s23_first : a soc 1%nat == 0;
  s23_last : a soc 97%nat == 0;
  s23_step : forall q, (1 <= q <= n)%nat ->
      a soc (q + 1)%nat
      == a soc q + power_cap / 4 * netflow (stage_of k) a prior_cha prior_dis q;
  s23_cha_cycle :
      charged_energy (stage_of k) power_cap a prior_cha n <= energy_cap * n_cycles;
  s23_dis_cycle :
      discharged_energy (stage_of k) power_cap a prior_dis n <= energy_cap * n_cycles;
  s23_cha_close : forall q, (1 <= q <= n)%nat ->
      a (cha_close_of k) q <= prior prior_dis q;
  s23_dis_close : forall q, (1 <= q <= n)%nat ->
      a (dis_close_of k) q <= prior prior_cha q;
  s23_cha_rate : forall q, (1 <= q <= n)%nat ->
      a (cha_of (stage_of k)) q + prior prior_cha q <= 1;
  s23_dis_rate : forall q, (1 <= q <= n)%nat ->
      a (dis_of (stage_of k)) q + prior prior_dis q <= 1
}.

(** What Stage 2 or Stage 3 returns once the solver has loaded the values
    [a] and every vector has one entry per quarter. *)
Definition solved (k : market) (power_cap : Q)
    (price prior_cha prior_dis : list Q) (a : assignment) : step23_result :=
  let n := List.length price in
  let cha := day a (cha_of (stage_of k)) n in
  let dis := day a (dis_of (stage_of k)) n in
  let cha_close := day a (cha_close_of k) n in
  let dis_close := day a (dis_close_of k) n in
  {| res_soc := day a soc n;
     res_cha := cha;
     res_dis := dis;
     res_cha_close := cha_close;
     res_dis_close := dis_close;
     res_profit :=
       sum_Q (zip_with Qmult
                (zip_with Qminus (zip_with Qplus dis dis_close)
                                 (zip_with Qplus cha cha_close))
                price) * power_cap / 4;
     res_cha_combined := zip_with Qplus (zip_with Qminus prior_cha dis_close) cha;
     res_dis_combined := zip_with Qplus (zip_with Qminus prior_dis cha_close) dis |}.

(** What Stage 1 returns once the solver has loaded the values [a], for a
    price vector of [n] entries. *)
Definition solved1 (power_cap : Q) (price : list Q) (a : assignment)
  : step1_result :=
  let n := List.length price in
  let cha := day a cha_daa n in
  let dis := day a dis_daa n in
  {| res1_soc := day a soc n;
     res1_cha := cha;
     res1_dis := dis;
     res1_profit :=
       sum_Q (map (fun q => power_cap / 4 * nth q price 0
                            * (nth q dis 0 - nth q cha 0))
                  (range 0 n)) |}.

(** The model of a successful build (the empty model otherwise). *)
Definition model_of (r : result ConcreteModel) : ConcreteModel :=
  match r with
  | Ok m => m
  | Raise _ => {| variables := []; constraints := []; obj := Num 0 |}
  end.

(** ** Concrete days *)

(** Prices of the two-hour scenario: 2 in the first hour, 6 in the second,
    0 afterwards. *)
Definition two_hour_prices : list Q := repeat 2 4 ++ repeat 6 4 ++ repeat 0 88.

(** No trade and an empty battery all day. *)
Definition idle : assignment := fun _ _ => 0.

(** The two-hour scenario with [energy_cap = 4], [power_cap = 4]: full
    charge in the first hour, full discharge in the second. *)
Definition block_cycle : assignment := fun x q =>
  match x with
  | cha_daa => if (1 <=? q)%nat && (q <=? 4)%nat then 1 else 0
  | dis_daa => if (5 <=? q)%nat && (q <=? 8)%nat then 1 else 0
  | soc => nth (q - 1) [0; 1; 2; 3; 4; 3; 2; 1] 0
  | _ => 0
  end.

Definition block_cycle_cha : list Q := repeat 1 4 ++ repeat 0 92.
Definition block_cycle_dis : list Q := repeat 0 4 ++ repeat 1 4 ++ repeat 0 88.

(** A day with [energy_cap = 1], [power_cap = 4]: a quarter of the power
    in each quarter of the first hour fills the battery, which is emptied
    in the single quarter 5. *)
Definition front_loaded : assignment := fun x q =>
  match x with
  | cha_daa => if (1 <=? q)%nat && (q <=? 4)%nat then 1 # 4 else 0
  | dis_daa => if (q =? 5)%nat then 1 else 0
  | soc => nth (q - 1) [0; 1 # 4; 1 # 2; 3 # 4; 1] 0
  | _ => 0
  end.

(** A later stage on top of [block_cycle]: the discharge of quarter 8 is
    closed and sold again in quarter 9. *)
Definition reshaped : assignment := fun x q =>
  match x with
  | cha_ida_close | cha_idc_close => if (q =? 8)%nat then 1 else 0
  | dis_ida | dis_idc => if (q =? 9)%nat then 1 else 0
  | soc => nth (q - 1) [0; 1; 2; 3; 4; 3; 2; 1; 1] 0
  | _ => 0
  end.

(** The variables a stage trades with. *)
Definition trade_vars (s : stage) : list vname :=
  match s with
  | DAA => [cha_daa; dis_daa]
  | IDA => [cha_ida; dis_ida; cha_ida_close; dis_ida_close]
  | IDC => [cha_idc; dis_idc; cha_idc_close; dis_idc_close]
  end.

(** The charge, discharge and closing vectors a stage returns, each under
    the name of its variable. *)
Definition returned (s : stage) (n_cycles energy_cap power_cap : Q)
    (price prior_cha prior_dis : list Q)
    (solver : ConcreteModel -> option assignment)
  : result (list (vname * list Q)) :=
  match s with
  | DAA =>
      r <- Step1.step1_optimize_daa n_cycles energy_cap power_cap price solver ;;
      Ok [(cha_daa, res1_cha r); (dis_daa, res1_dis r)]
  | IDA =>
      r <- Step2.step2_optimize_ida n_cycles energy_cap power_cap price
             prior_cha prior_dis solver ;;
      Ok [(cha_ida, res_cha r); (dis_ida, res_dis r);
          (cha_ida_close, res_cha_close r); (dis_ida_close, res_dis_close r)]
  | IDC =>
      r <- Step3.step3_optimize_idc n_cycles energy_cap power_cap price
             prior_cha prior_dis solver ;;
      Ok [(cha_idc, res_cha r); (dis_idc, res_dis r);
          (cha_idc_close, res_cha_close r); (dis_idc_close, res_dis_close r)]
  end.

(** A stage reports without solving: it raises, and the exception does not
    depend on the solver. *)
Definition reports_immediately {R : Type}
    (run : (ConcreteModel -> option assignment) -> result R) : Prop :=
  exists e, forall solver, run solver = Raise e.

(** [block_cycle] with a solver noise of [1e-9] above the bound on the
    charge of the first quarter. *)
Definition noisy : assignment := fun x q =>
  match x, q with
  | cha_daa, 1%nat => 1 + (1 # 1000000000)
  | _, _ => block_cycle x q
  end.

(** A charge of full power in every quarter, with an empty battery. *)
Definition phantom : assignment := fun x _ =>
  match x with cha_daa => 1 | _ => 0 end.

(** A prior charge of twice the power capacity in the first quarter. *)
Definition overbooked : list Q := 2 :: repeat 0 95.

(** ** Stage 3 read as Stage 2 *)

(** The Stage 3 variable that plays the part of a Stage 2 variable. *)
Definition to_idc (x : vname) : vname :=
  match x with
  | cha_ida => cha_idc
  | dis_ida => dis_idc
  | cha_ida_close => cha_idc_close
  | dis_ida_close => dis_idc_close
  | _ => x
  end.

Fixpoint rename_expr (e : expr) : expr :=
  match e with
  | Num c => Num c
  | Ref x q => Ref (to_idc x) q
  | Add e1 e2 => Add (rename_expr e1) (rename_expr e2)
  | Sub e1 e2 => Sub (rename_expr e1) (rename_expr e2)
  | Mul e1 e2 => Mul (rename_expr e1) (rename_expr e2)
  | Div e1 c => Div (rename_expr e1) c
  end.

Definition rename_constraint (c : constraint) : constraint :=
  {| lhs := rename_expr (lhs c); rel := rel c; rhs := rename_expr (rhs c) |}.

Definition rename_Var (v : Var) : Var :=
  {| var_name := to_idc (var_name v); var_index := var_index v;
     var_lb := var_lb v; var_ub := var_ub v |}.

(** Values of the Stage 3 variables, read under the Stage 2 names. *)
Definition as_ida (a : assignment) : assignment := fun x q => a (to_idc x) q.

(** The component of Stage 2 a component of Stage 3 corresponds to: the
    two cycle-budget components are exchanged. *)
Definition twin (name : string) : string :=
  if String.eqb "charge_cycle_limit" name then "discharge_cycle_limit"
  else if String.eqb "discharge_cycle_limit" name then "charge_cycle_limit"
  else name.

Definition rmap {A B : Type} (g : A -> B) (r : result A) : result B :=
  match r with
  | Ok a => Ok (g a)
  | Raise e => Raise e
  end.

(** ** Further notions on the stages *)

(** The next stage does nothing: no trade of its own, and the state of
    charge of the earlier solution [a]. *)
Definition holding (a : assignment) : assignment := fun x q =>
  match x with soc => a soc q | _ => 0 end.

(** [a] is an optimal solution of [m]: feasible, and no feasible solution
    has a larger objective. *)
Definition optimal (a : assignment) (m : ConcreteModel) : Prop :=
  feasible a m = true
  /\ forall a', feasible a' m = true -> eval a' (obj m) <= eval a (obj m).

(** The exception, if any, the construction of the Stage 2 or Stage 3
    model ends with, read off the lengths of the three vectors. *)
Definition build_outcome (price prior_cha prior_dis : list Q) : option exn :=
  if (List.length price <? 96)%nat then Some KeyError
  else if (List.length prior_cha <? List.length price)%nat
          || (List.length prior_dis <? List.length price)%nat
       then Some IndexError
       else None.

(** What Stage 2 or Stage 3 does once its model [m] is built. *)
Definition after_build (k : market) (power_cap : Q)
    (price prior_cha prior_dis : list Q)
    (solver : ConcreteModel -> option assignment) (m : ConcreteModel)
  : result step23_result :=
  match solver m with
  | None => Raise TypeError
  | Some a =>
      if (List.length prior_cha =? List.length price)%nat
         && (List.length prior_dis =? List.length price)%nat
      then Ok (solved k power_cap price prior_cha prior_dis a)
      else Raise ValueError
  end.

(** A later stage unwinds the whole prior position: every prior discharge
    is closed by a charge-close, every prior charge by a discharge-close,
    nothing else is traded and the battery stays empty. *)
Definition unwinding (prior_cha prior_dis : list Q) : assignment := fun x q =>
  match x with
  | cha_ida_close | cha_idc_close => prior prior_dis q
  | dis_ida_close | dis_idc_close => prior prior_cha q
  | _ => 0
  end.
(** * Properties *)

(** ** The error monad and comprehensions *)

Lemma bind_Ok {A B : Type} (r : result A) (k : A -> result B) (b : B) :
  bind r k = Ok b -> exists a, r = Ok a /\ k a = Ok b.
Proof.
  destruct r as [a|e]; simpl; intros E; [now exists a | discriminate].
Qed.

Lemma for_each_In {A B : Type} (f : A -> result B) (l : list A) (r : list B) :
  for_each f l = Ok r ->
  forall x, In x l -> exists y, f x = Ok y /\ In y r.
Proof.
  revert r; induction l as [|x0 l IH]; intros r E x Hx; [destruct Hx|].
  simpl in E.
  apply bind_Ok in E as (y0 & E0 & E).
  apply bind_Ok in E as (ys & E1 & E).
  injection E as <-.
  destruct Hx as [<-|Hx].
  - exists y0; split; [assumption | now left].
  - destruct (IH _ E1 _ Hx) as (y & Hy & Hin).
    exists y; split; [assumption | now right].
Qed.

Lemma for_each_In_inv {A B : Type} (f : A -> result B) (l : list A) (r : list B) :
  for_each f l = Ok r ->
  forall y, In y r -> exists x, In x l /\ f x = Ok y.
Proof.
  revert r; induction l as [|x0 l IH]; intros r E y Hy.
  - injection E as <-. destruct Hy.
  - simpl in E.
    apply bind_Ok in E as (y0 & E0 & E).
    apply bind_Ok in E as (ys & E1 & E).
    injection E as <-.
    destruct Hy as [<-|Hy].
    + exists x0; split; [now left | assumption].
    + destruct (IH _ E1 _ Hy) as (x & Hx & Hf).
      exists x; split; [now right | assumption].
Qed.

Lemma for_each_map {A B : Type} (f : A -> result B) (g : A -> B) (l : list A) :
  (forall x, In x l -> f x = Ok (g x)) -> for_each f l = Ok (map g l).
Proof.
  induction l as [|x l IH]; intros Hf; [reflexivity|].
  simpl. rewrite (Hf x (or_introl eq_refl)). simpl.
  rewrite IH; [reflexivity|].
  intros y Hy. apply Hf. now right.
Qed.

Lemma for_each_unique {A B : Type} (f : A -> result B) (g : A -> B)
    (l : list A) (r : list B) :
  for_each f l = Ok r -> (forall x, In x l -> f x = Ok (g x)) -> r = map g l.
Proof.
  intros E Hf. rewrite (for_each_map f g l Hf) in E. now injection E.
Qed.

Lemma for_each_total {A B : Type} (f : A -> result B) (l : list A) :
  (forall x, In x l -> exists y, f x = Ok y) -> exists r, for_each f l = Ok r.
Proof.
  induction l as [|x l IH]; intros Hf; [now exists []|].
  destruct (Hf x (or_introl eq_refl)) as (y & Hy).
  destruct IH as (ys & Hys); [intros z Hz; apply Hf; now right|].
  exists (y :: ys). simpl. now rewrite Hy, Hys.
Qed.

Lemma for_each_Raise {A B : Type} (f : A -> result B) (l : list A) (x : A) (e : exn) :
  In x l -> f x = Raise e -> exists e', for_each f l = Raise e'.
Proof.
  induction l as [|x0 l IH]; intros Hx Hf; [destruct Hx|].
  simpl. destruct Hx as [->|Hx].
  - rewrite Hf. now exists e.
  - destruct (f x0); simpl; [|now eexists].
    destruct (IH Hx Hf) as (e' & ->). now exists e'.
Qed.

Lemma for_each_Raise_only {A B : Type} (f : A -> result B) (l : list A) (e : exn) :
  (forall x, In x l -> (exists y, f x = Ok y) \/ f x = Raise e) ->
  (exists x, In x l /\ f x = Raise e) ->
  for_each f l = Raise e.
Proof.
  induction l as [|x0 l IH]; intros Hall (x & Hx & Hf); [destruct Hx|].
  simpl. destruct (Hall x0 (or_introl eq_refl)) as [(y & Hy)|Hr].
  - rewrite Hy. cbn [bind]. rewrite IH; [reflexivity | |].
    + intros z Hz. apply Hall. now right.
    + destruct Hx as [->|Hx]; [congruence|]. now exists x.
  - now rewrite Hr.
Qed.

(** ** Index sets and variable references *)

Lemma RangeSet_In (lo hi q : nat) :
  In q (RangeSet lo hi) <-> (lo <= q <= hi)%nat.
Proof. unfold RangeSet. rewrite in_seq. lia. Qed.

Lemma range_In (lo hi q : nat) :
  In q (range lo hi) <-> (lo <= q < hi)%nat.
Proof. unfold range. rewrite in_seq. lia. Qed.

Lemma getvar_In (v : Var) (q : nat) :
  In q (var_index v) -> getvar v q = Ok (Ref (var_name v) q).
Proof.
  intros Hq. unfold getvar.
  replace (existsb (Nat.eqb q) (var_index v)) with true; [reflexivity|].
  symmetry. apply existsb_exists. exists q. split; [assumption | apply Nat.eqb_refl].
Qed.

Lemma getvar_not_In (v : Var) (q : nat) :
  ~ In q (var_index v) -> getvar v q = Raise KeyError.
Proof.
  intros Hq. unfold getvar.
  destruct (existsb (Nat.eqb q) (var_index v)) eqn:E; [|reflexivity].
  apply existsb_exists in E as (x & Hx & Hqx).
  apply Nat.eqb_eq in Hqx. subst x. contradiction.
Qed.

Lemma getitem_Ok (v : list Q) (i : nat) :
  (i < List.length v)%nat -> getitem v i = Ok (nth i v 0).
Proof.
  intros Hi. unfold getitem.
  rewrite (nth_error_nth' v 0 Hi). reflexivity.
Qed.

Lemma getitem_Raise (v : list Q) (i : nat) :
  (List.length v <= i)%nat -> getitem v i = Raise IndexError.
Proof.
  intros Hi. unfold getitem.
  apply nth_error_None in Hi. now rewrite Hi.
Qed.

(** ** Sums *)

Lemma quarter (t : Q) : t / 4 == t * (1 # 4).
Proof. field. Qed.


Lemma eval_fold_Add (a : assignment) (es : list expr) (e0 : expr) :
  eval a (fold_left Add es e0) = fold_left Qplus (map (eval a) es) (eval a e0).
Proof.
  revert e0; induction es as [|e es IH]; intros e0; [reflexivity|].
  simpl. now rewrite IH.
Qed.

Lemma eval_sum_expr (a : assignment) (es : list expr) :
  eval a (sum_expr es) = sum_Q (map (eval a) es).
Proof. apply eval_fold_Add. Qed.

Lemma fold_Qplus_acc (xs : list Q) (x0 : Q) :
  fold_left Qplus xs x0 == x0 + sum_Q xs.
Proof.
  unfold sum_Q. revert x0; induction xs as [|x xs IH]; intros x0; simpl.
  - lra.
  - rewrite (IH (x0 + x)), (IH (0 + x)). lra.
Qed.

Lemma sum_Q_cons (x : Q) (xs : list Q) : sum_Q (x :: xs) == x + sum_Q xs.
Proof. unfold sum_Q at 1. simpl. rewrite fold_Qplus_acc. lra. Qed.

Lemma sum_Q_nonneg (xs : list Q) :
  (forall x, In x xs -> 0 <= x) -> 0 <= sum_Q xs.
Proof.
  induction xs as [|x xs IH]; intros Hx.
  - unfold sum_Q; simpl; lra.
  - rewrite sum_Q_cons.
    assert (0 <= x) by (apply Hx; now left).
    assert (0 <= sum_Q xs) by (apply IH; intros y Hy; apply Hx; now right).
    lra.
Qed.

Lemma sum_Q_member_le (xs : list Q) (x : Q) :
  (forall y, In y xs -> 0 <= y) -> In x xs -> x <= sum_Q xs.
Proof.
  induction xs as [|x0 xs IH]; intros Hnn Hx; [destruct Hx|].
  rewrite sum_Q_cons.
  assert (0 <= x0) by (apply Hnn; now left).
  assert (Hxs : forall y, In y xs -> 0 <= y) by (intros y Hy; apply Hnn; now right).
  pose proof (sum_Q_nonneg xs Hxs).
  destruct Hx as [<-|Hx]; [lra|].
  specialize (IH Hxs Hx). lra.
Qed.

Lemma sum_Q_zero (xs : list Q) :
  (forall x, In x xs -> x == 0) -> sum_Q xs == 0.
Proof.
  induction xs as [|x xs IH]; intros Hx.
  - reflexivity.
  - rewrite sum_Q_cons, (Hx x (or_introl eq_refl)), IH; [lra|].
    intros y Hy. apply Hx. now right.
Qed.

(** ** Feasibility, component by component *)

Lemma holds_le (a : assignment) (l r : expr) :
  holds a (l [<=] r) = true <-> eval a l <= eval a r.
Proof. unfold holds; simpl. apply Qle_bool_iff. Qed.

Lemma holds_ge (a : assignment) (l r : expr) :
  holds a (l [>=] r) = true <-> eval a r <= eval a l.
Proof. unfold holds; simpl. apply Qle_bool_iff. Qed.

Lemma holds_eq (a : assignment) (l r : expr) :
  holds a (l [==] r) = true <-> eval a l == eval a r.
Proof. unfold holds; simpl. apply Qeq_bool_iff. Qed.

Lemma feasible_component (a : assignment) (m : ConcreteModel) (name : string) :
  feasible a m = true ->
  forallb (holds a) (component name (constraints m)) = true.
Proof.
  unfold feasible. intros F. apply andb_prop in F as [_ F].
  induction (constraints m) as [|[n c] cs IH]; [reflexivity|].
  simpl in F. apply andb_prop in F as [Fc F].
  simpl. destruct (String.eqb n name); [exact Fc | exact (IH F)].
Qed.

Lemma feasible_bounds_hold (a : assignment) (m : ConcreteModel) :
  feasible a m = true -> bounds_hold a m = true.
Proof. unfold feasible. intros F. now apply andb_prop in F. Qed.

Lemma bounds_hold_at (a : assignment) (m : ConcreteModel) (v : Var) (q : nat) :
  bounds_hold a m = true -> In v (variables m) -> In q (var_index v) ->
  above (var_lb v) (a (var_name v) q) = true
  /\ below (var_ub v) (a (var_name v) q) = true.
Proof.
  unfold bounds_hold. intros F Hv Hq.
  rewrite forallb_forall in F. specialize (F v Hv).
  unfold within_bounds in F. rewrite forallb_forall in F.
  specialize (F q Hq). now apply andb_prop in F.
Qed.

Lemma Unit_Var_bounded (a : assignment) (m : ConcreteModel) (x : vname)
    (index : list nat) (q : nat) :
  bounds_hold a m = true -> In (Unit_Var x index) (variables m) -> In q index ->
  0 <= a x q <= 1.
Proof.
  intros F Hv Hq.
  destruct (bounds_hold_at a m (Unit_Var x index) q F Hv Hq) as [Hl Hu].
  simpl in Hl, Hu. apply Qle_bool_iff in Hl, Hu. split; assumption.
Qed.

Lemma Unit_Var_bounds (a : assignment) (m : ConcreteModel) (x : vname)
    (index : list nat) (q : nat) :
  feasible a m = true -> In (Unit_Var x index) (variables m) -> In q index ->
  0 <= a x q <= 1.
Proof.
  intros F. apply Unit_Var_bounded. now apply feasible_bounds_hold.
Qed.

Lemma Constraint_holds (a : assignment) (index : list nat)
    (rule : nat -> result constraint) (cs : list constraint) :
  Constraint index rule = Ok cs -> forallb (holds a) cs = true ->
  forall q, In q index -> exists c, rule q = Ok c /\ holds a c = true.
Proof.
  unfold Constraint. intros E F q Hq.
  destruct (for_each_In _ _ _ E q Hq) as (c & Hc & Hin).
  exists c. split; [assumption|].
  rewrite forallb_forall in F. now apply F.
Qed.

Lemma Constraint1_holds (a : assignment) (rule : result constraint)
    (cs : list constraint) :
  Constraint1 rule = Ok cs -> forallb (holds a) cs = true ->
  exists c, rule = Ok c /\ holds a c = true.
Proof.
  unfold Constraint1. intros E F.
  apply bind_Ok in E as (c & Hc & E). injection E as <-.
  exists c. split; [assumption|].
  simpl in F. now apply andb_prop in F as [F _].
Qed.

Lemma Constraint_complete (a : assignment) (index : list nat)
    (rule : nat -> result constraint) (cs : list constraint) :
  Constraint index rule = Ok cs ->
  (forall q c, In q index -> rule q = Ok c -> holds a c = true) ->
  forallb (holds a) cs = true.
Proof.
  unfold Constraint. intros E Hall.
  apply forallb_forall. intros c Hc.
  destruct (for_each_In_inv _ _ _ E c Hc) as (q & Hq & Hr).
  now apply (Hall q c).
Qed.

Lemma Constraint1_complete (a : assignment) (rule : result constraint)
    (cs : list constraint) :
  Constraint1 rule = Ok cs ->
  (forall c, rule = Ok c -> holds a c = true) ->
  forallb (holds a) cs = true.
Proof.
  unfold Constraint1. intros E Hall.
  apply bind_Ok in E as (c & Hc & E). injection E as <-.
  simpl. now rewrite (Hall c Hc).
Qed.

(** Decomposition of a successful sequence of binds. *)
Ltac binds_only E :=
  repeat (let c := fresh "c" in
          let Ec := fresh "Ec" in
          apply bind_Ok in E as (c & Ec & E)).

Ltac binds E := binds_only E; try (injection E as <-).

(** Evaluation of a rule at an index where its variable references succeed. *)
Ltac refs :=
  repeat (rewrite getvar_In by (apply RangeSet_In; lia)); cbn [bind].

(** From the constraints [F] of an indexed (or scalar) component, the
    constraint [k] its rule gives at index [q]. *)
Ltac indexed F q k Hk Hh :=
  match type of F with
  | forallb _ ?cs = true =>
      match goal with
      | E : Constraint _ _ = Ok cs |- _ =>
          destruct (Constraint_holds _ _ _ _ E F q) as (k & Hk & Hh);
          [ apply RangeSet_In; lia | ]
      end
  end.

Ltac scalar F k Hk Hh :=
  match type of F with
  | forallb _ ?cs = true =>
      match goal with
      | E : Constraint1 _ = Ok cs |- _ =>
          destruct (Constraint1_holds _ _ _ E F) as (k & Hk & Hh)
      end
  end.

Lemma Constraint_total (index : list nat) (rule : nat -> result constraint) :
  (forall q, In q index -> exists c, rule q = Ok c) ->
  exists cs, Constraint index rule = Ok cs.
Proof. apply for_each_total. Qed.

Lemma for_each_getvar {B : Type} (v : Var) (index : list nat) (g : expr -> B) :
  (forall q, In q index -> In q (var_index v)) ->
  for_each (fun q => c <- getvar v q ;; Ok (g c)) index
  = Ok (map (fun q => g (Ref (var_name v) q)) index).
Proof.
  intros Hsub. apply for_each_map. intros q Hq.
  now rewrite (getvar_In v q (Hsub q Hq)).
Qed.

Lemma for_each_getvar_id (v : Var) (index : list nat) :
  (forall q, In q index -> In q (var_index v)) ->
  for_each (getvar v) index = Ok (map (Ref (var_name v)) index).
Proof.
  intros Hsub. apply for_each_map. intros q Hq. apply getvar_In. now apply Hsub.
Qed.

Ltac head_of t := match t with ?f _ => head_of f | _ => t end.

(** A sequence of binds succeeds when each of its steps does. *)
Lemma bind_total {A B : Type} (r : result A) (k : A -> result B) :
  (exists a, r = Ok a) -> (forall a, exists b, k a = Ok b) ->
  exists b, bind r k = Ok b.
Proof.
  intros (a & ->) Hk. exact (Hk a).
Qed.

Lemma Constraint1_total (rule : result constraint) :
  (exists c, rule = Ok c) -> exists cs, Constraint1 rule = Ok cs.
Proof.
  intros (c & ->). now exists [c].
Qed.

(** The rules of an indexed component succeed at every index. *)
Ltac rule_total :=
  match goal with
  | |- exists cs, Constraint ?i ?r = Ok cs =>
      let q := fresh "q" in
      let Hq := fresh "Hq" in
      apply Constraint_total; intros q Hq; apply RangeSet_In in Hq; eexists;
      let h := head_of r in unfold h; refs;
      repeat (rewrite getitem_Ok by lia; cbn [bind]); reflexivity
  | |- exists cs, Constraint1 ?r = Ok cs =>
      apply Constraint1_total; eexists;
      let h := head_of r in unfold h; refs
  end.

(** Walks down the binds of a build, solving the indexed components. *)
Ltac build_chain :=
  apply bind_total; [ try rule_total | intros ?; try build_chain ].

(** ** Values read back from the solver *)

Lemma range_RangeSet (n : nat) : range 1 (n + 1) = RangeSet 1 n.
Proof. reflexivity. Qed.

Lemma values_Ok (v : Var) (sol : option assignment) (qs : list nat) :
  (forall q, In q qs -> In q (var_index v)) ->
  values v sol qs
  = Ok (map (fun q => option_map (fun a : assignment => a (var_name v) q) sol) qs).
Proof.
  intros Hsub. unfold values. apply for_each_map. intros q Hq.
  now rewrite (getvar_In v q (Hsub q Hq)).
Qed.

Lemma values_Raise (v : Var) (sol : option assignment) (qs : list nat) (q : nat) :
  In q qs -> ~ In q (var_index v) -> exists e, values v sol qs = Raise e.
Proof.
  intros Hq Hout. unfold values.
  apply (for_each_Raise _ qs q KeyError Hq).
  now rewrite (getvar_not_In v q Hout).
Qed.

Lemma numbers_Some {A : Type} (f : A -> Q) (l : list A) :
  numbers (map (fun x => Some (f x)) l) = Ok (map f l).
Proof.
  unfold numbers. induction l as [|x l IH]; [reflexivity|].
  simpl. simpl in IH. now rewrite IH.
Qed.

Lemma numbers_None {A : Type} (l : list A) :
  l <> [] -> numbers (map (fun _ => @None Q) l) = Raise TypeError.
Proof. destruct l; [congruence | reflexivity]. Qed.

Lemma day_length (a : assignment) (x : vname) (n : nat) :
  List.length (day a x n) = n.
Proof. unfold day, RangeSet. rewrite length_map, length_seq. lia. Qed.

Lemma day_nth (a : assignment) (x : vname) (n i : nat) :
  (i < n)%nat -> nth i (day a x n) 0 = a x (i + 1)%nat.
Proof.
  intros Hi. unfold day, RangeSet.
  rewrite (nth_indep _ 0 (a x 0%nat)) by (rewrite length_map, length_seq; lia).
  rewrite map_nth, seq_nth by lia. f_equal. lia.
Qed.

Lemma day_In (a : assignment) (x : vname) (n : nat) (y : Q) :
  In y (day a x n) <-> exists q, (1 <= q <= n)%nat /\ y = a x q.
Proof.
  unfold day. rewrite in_map_iff. split.
  - intros (q & <- & Hq). apply RangeSet_In in Hq. now exists q.
  - intros (q & Hq & ->). exists q. split; [reflexivity | now apply RangeSet_In].
Qed.

(** ** NumPy arithmetic *)

Lemma np_zip_same (f : Q -> Q -> Q) (x y : list Q) :
  List.length x = List.length y -> np_zip f x y = Ok (zip_with f x y).
Proof. intros E. unfold np_zip. now rewrite E, Nat.eqb_refl. Qed.

Lemma np_zip_long (f : Q -> Q -> Q) (x y z : list Q) :
  (2 <= List.length x)%nat -> (2 <= List.length y)%nat ->
  np_zip f x y = Ok z -> List.length x = List.length y.
Proof.
  intros Hx Hy. unfold np_zip.
  destruct (Nat.eqb_spec (List.length x) (List.length y)) as [E|E]; [easy|].
  destruct x as [|a [|a' x]]; simpl in Hx; try lia.
  destruct y as [|b [|b' y]]; simpl in Hy; try lia.
  discriminate.
Qed.

Lemma np_zip_mismatch (f : Q -> Q -> Q) (x y : list Q) :
  (2 <= List.length x)%nat -> (2 <= List.length y)%nat ->
  List.length x <> List.length y -> np_zip f x y = Raise ValueError.
Proof.
  intros Hx Hy E. unfold np_zip.
  destruct (Nat.eqb_spec (List.length x) (List.length y)) as [E'|_]; [easy|].
  destruct x as [|a [|a' x]]; simpl in Hx; try lia.
  destruct y as [|b [|b' y]]; simpl in Hy; try lia.
  reflexivity.
Qed.

Lemma zip_with_length (f : Q -> Q -> Q) (x y : list Q) :
  List.length x = List.length y -> List.length (zip_with f x y) = List.length x.
Proof.
  revert y; induction x as [|a x IH]; intros [|b y] E; simpl in *; try easy.
  now rewrite IH by lia.
Qed.

Lemma zip_with_nth (f : Q -> Q -> Q) (x y : list Q) (i : nat) :
  (i < List.length x)%nat -> (i < List.length y)%nat ->
  nth i (zip_with f x y) 0 = f (nth i x 0) (nth i y 0).
Proof.
  revert y i; induction x as [|a x IH]; intros [|b y] [|i] Hx Hy;
    simpl in *; try lia; try reflexivity.
  apply IH; lia.
Qed.

Lemma RangeSet_length (lo hi : nat) :
  List.length (RangeSet lo hi) = (hi + 1 - lo)%nat.
Proof. unfold RangeSet. apply length_seq. Qed.

(** Lengths of the vectors of a day. *)
Ltac lens :=
  repeat first [ rewrite zip_with_length by lens
               | rewrite length_map
               | rewrite RangeSet_length
               | rewrite day_length ];
  try lia.

Lemma sum_Q_scale {A : Type} (f : A -> Q) (c : Q) (l : list A) :
  sum_Q (map (fun x => f x * c / 4) l) == sum_Q (map f l) * c / 4.
Proof.
  induction l as [|x l IH].
  - unfold sum_Q; simpl. field.
  - simpl map. rewrite !sum_Q_cons, IH. field.
Qed.

(** Entries of a concrete vector, one by one. *)
Ltac units :=
  repeat (apply Forall_cons;
          [unfold unit_interval; split; vm_compute; discriminate|]);
  apply Forall_nil.

(** ** Stage 1: what a feasible solution satisfies *)

Section Step1_feasible.

Variables n_cycles energy_cap power_cap : Q.
Variable daa_price_vector : list Q.
Variable m : ConcreteModel.
Variable a : assignment.
Hypothesis HB : Step1.build_model n_cycles energy_cap power_cap daa_price_vector = Ok m.

(** The terms of the two cycle sums. *)
Lemma Step1_cycle_terms (v : Var) (ts : list expr) :
  var_index v = Step1.model_Q ->
  for_each (fun q => c <- getvar v q ;; Ok (c * Num power_cap / 4)%expr)
           Step1.model_Q = Ok ts ->
  eval a (sum_expr ts)
  = sum_Q (map (fun q => a (var_name v) q * power_cap / 4) (RangeSet 1 96)).
Proof.
  intros Hv E.
  rewrite (for_each_unique _ (fun q => (Ref (var_name v) q * Num power_cap / 4)%expr)
             _ _ E).
  - rewrite eval_sum_expr, map_map. reflexivity.
  - intros q Hq. rewrite getvar_In; [reflexivity | now rewrite Hv].
Qed.

Section Sound.

Hypothesis HF : feasible a m = true.

(** The constraints of component [name], with the rule they come from. *)
Ltac component1 name F :=
  let E := fresh "E" in
  pose proof HB as E; unfold Step1.build_model in E; binds E;
  pose proof (feasible_component a _ name HF) as F; simpl in F.

Ltac unit_bounds x :=
  let E := fresh "E" in
  intros q Hq; pose proof HB as E; unfold Step1.build_model in E; binds E;
  apply (Unit_Var_bounds a _ x Step1.model_Q q HF);
  [ simpl; auto | apply RangeSet_In; lia ].

Lemma Step1_sound : Step1_constraints n_cycles energy_cap power_cap a.
Proof.
  constructor.
  - unit_bounds cha_daa.
  - unit_bounds dis_daa.
  - intros q Hq. component1 "set_maximum_soc"%string F.
    indexed F q k Hk Hh.
    unfold Step1.set_maximum_soc in Hk. revert Hk. refs.
    intros [= <-]. now apply holds_le in Hh.
  - intros q Hq. component1 "set_minimum_soc"%string F.
    indexed F q k Hk Hh.
    unfold Step1.set_minimum_soc in Hk. revert Hk. refs.
    intros [= <-]. now apply holds_ge in Hh.
  - component1 "set_first_soc_to_0"%string F.
    scalar F k Hk Hh. injection Hk as <-. now apply holds_eq in Hh.
  - component1 "set_last_soc_to_0"%string F.
    scalar F k Hk Hh. injection Hk as <-. now apply holds_eq in Hh.
  - intros q Hq. component1 "soc_step_constraint"%string F.
    indexed F q k Hk Hh.
    unfold Step1.soc_step_constraint in Hk. revert Hk. refs.
    intros [= <-]. now apply holds_eq in Hh.
  - component1 "charge_cycle_limit"%string F.
    scalar F k Hk Hh. unfold Step1.charge_cycle_limit in Hk.
    apply bind_Ok in Hk as (ts & Hts & Hk). injection Hk as <-.
    apply holds_le in Hh. simpl eval in Hh.
    now rewrite (Step1_cycle_terms Step1.model_cha_daa ts eq_refl Hts) in Hh.
  - component1 "discharge_cycle_limit"%string F.
    scalar F k Hk Hh. unfold Step1.discharge_cycle_limit in Hk.
    apply bind_Ok in Hk as (ts & Hts & Hk). injection Hk as <-.
    apply holds_le in Hh. simpl eval in Hh.
    now rewrite (Step1_cycle_terms Step1.model_dis_daa ts eq_refl Hts) in Hh.
  - intros q Hq. component1 "cha_daa_quarters_1_2_parity"%string F.
    indexed F q k Hk Hh.
    unfold Step1.cha_daa_quarters_1_2_parity in Hk. revert Hk. refs.
    intros [= <-]. now apply holds_eq in Hh.
  - intros q Hq. component1 "cha_daa_quarters_2_3_parity"%string F.
    indexed F q k Hk Hh.
    unfold Step1.cha_daa_quarters_2_3_parity in Hk. revert Hk. refs.
    intros [= <-]. now apply holds_eq in Hh.
  - intros q Hq. component1 "cha_daa_quarters_3_4_parity"%string F.
    indexed F q k Hk Hh.
    unfold Step1.cha_daa_quarters_3_4_parity in Hk. revert Hk. refs.
    intros [= <-]. now apply holds_eq in Hh.
Qed.

End Sound.

Lemma within_bounds_Reals (x : vname) (index : list nat) :
  within_bounds a (Reals_Var x index) = true.
Proof. unfold within_bounds. apply forallb_forall. reflexivity. Qed.

Lemma within_bounds_Unit (x : vname) (index : list nat) :
  (forall q, In q index -> 0 <= a x q <= 1) ->
  within_bounds a (Unit_Var x index) = true.
Proof.
  intros Hb. unfold within_bounds. apply forallb_forall. intros q Hq.
  destruct (Hb q Hq) as [Hl Hu]. simpl.
  apply andb_true_intro. split; now apply Qle_bool_iff.
Qed.

Lemma Step1_complete :
  Step1_constraints n_cycles energy_cap power_cap a -> feasible a m = true.
Proof.
  intros [Hc Hd Hmax Hmin Hfst Hlst Hstep Hcc Hdc H12 H23 H34].
  pose proof HB as E. unfold Step1.build_model in E. binds E.
  unfold feasible, bounds_hold. cbn [variables constraints forallb component_holds snd].
  rewrite !andb_true_iff.
  repeat match goal with |- _ /\ _ => split end;
    try match goal with |- true = true => reflexivity end.
  - exact (within_bounds_Reals _ _).
  - apply (within_bounds_Unit cha_daa). intros q Hq. apply Hc.
    now apply RangeSet_In in Hq.
  - apply (within_bounds_Unit dis_daa). intros q Hq. apply Hd.
    now apply RangeSet_In in Hq.
  - eapply Constraint_complete; [eassumption|]. intros q k Hq.
    apply RangeSet_In in Hq. unfold Step1.set_maximum_soc. refs.
    intros [= <-]. apply holds_le. now apply Hmax.
  - eapply Constraint_complete; [eassumption|]. intros q k Hq.
    apply RangeSet_In in Hq. unfold Step1.set_minimum_soc. refs.
    intros [= <-]. apply holds_ge. now apply Hmin.
  - eapply Constraint1_complete; [eassumption|]. intros k [= <-].
    now apply holds_eq.
  - eapply Constraint1_complete; [eassumption|]. intros k [= <-].
    now apply holds_eq.
  - eapply Constraint_complete; [eassumption|]. intros q k Hq.
    apply RangeSet_In in Hq. unfold Step1.soc_step_constraint. refs.
    intros [= <-]. apply holds_eq. now apply Hstep.
  - eapply Constraint1_complete; [eassumption|]. intros k Hk.
    unfold Step1.charge_cycle_limit in Hk.
    apply bind_Ok in Hk as (ts & Hts & Hk). injection Hk as <-.
    apply holds_le. simpl eval.
    now rewrite (Step1_cycle_terms Step1.model_cha_daa ts eq_refl Hts).
  - eapply Constraint1_complete; [eassumption|]. intros k Hk.
    unfold Step1.discharge_cycle_limit in Hk.
    apply bind_Ok in Hk as (ts & Hts & Hk). injection Hk as <-.
    apply holds_le. simpl eval.
    now rewrite (Step1_cycle_terms Step1.model_dis_daa ts eq_refl Hts).
  - eapply Constraint_complete; [eassumption|]. intros q k Hq.
    apply RangeSet_In in Hq. unfold Step1.cha_daa_quarters_1_2_parity. refs.
    intros [= <-]. apply holds_eq. apply H12. lia.
  - eapply Constraint_complete; [eassumption|]. intros q k Hq.
    apply RangeSet_In in Hq. unfold Step1.cha_daa_quarters_2_3_parity. refs.
    intros [= <-]. apply holds_eq. apply H23. lia.
  - eapply Constraint_complete; [eassumption|]. intros q k Hq.
    apply RangeSet_In in Hq. unfold Step1.cha_daa_quarters_3_4_parity. refs.
    intros [= <-]. apply holds_eq. apply H34. lia.
  - eapply Constraint_complete; [eassumption|]. intros q k Hq.
    apply RangeSet_In in Hq. unfold Step1.dis_daa_quarters_1_2_parity. refs.
    intros [= <-]. apply holds_eq. apply H12. lia.
  - eapply Constraint_complete; [eassumption|]. intros q k Hq.
    apply RangeSet_In in Hq. unfold Step1.dis_daa_quarters_2_3_parity. refs.
    intros [= <-]. apply holds_eq. apply H23. lia.
  - eapply Constraint_complete; [eassumption|]. intros q k Hq.
    apply RangeSet_In in Hq. unfold Step1.dis_daa_quarters_3_4_parity. refs.
    intros [= <-]. apply holds_eq. apply H34. lia.
Qed.

End Step1_feasible.

Lemma Step1_feasible_iff (n_cycles energy_cap power_cap : Q) (price : list Q)
    (m : ConcreteModel) (a : assignment) :
  Step1.build_model n_cycles energy_cap power_cap price = Ok m ->
  feasible a m = true <-> Step1_constraints n_cycles energy_cap power_cap a.
Proof.
  intros HB. split.
  - now apply (Step1_sound n_cycles energy_cap power_cap price m).
  - now apply (Step1_complete n_cycles energy_cap power_cap price m).
Qed.

(** The Stage 1 model is built as soon as the price vector has an entry
    for each of the 96 quarters. *)
Lemma Step1_build_total (n_cycles energy_cap power_cap : Q) (price : list Q) :
  (96 <= List.length price)%nat ->
  exists m, Step1.build_model n_cycles energy_cap power_cap price = Ok m.
Proof.
  intros Hlen. unfold Step1.build_model.
  build_chain.
  - reflexivity.
  - reflexivity.
  - unfold Step1.charge_cycle_limit.
    rewrite for_each_getvar by (intros q Hq; exact Hq). reflexivity.
  - unfold Step1.discharge_cycle_limit.
    rewrite for_each_getvar by (intros q Hq; exact Hq). reflexivity.
  - unfold Step1.objective. apply bind_total; [|intros ts; now eexists].
    apply for_each_total. intros q Hq. apply RangeSet_In in Hq. eexists.
    rewrite getitem_Ok by lia. cbn [bind]. refs. reflexivity.
  - now eexists.
Qed.

(** The stage on a built model for which the solver loaded values. *)
Lemma Step1_result (n_cycles energy_cap power_cap : Q) (price : list Q)
    (solver : ConcreteModel -> option assignment)
    (m : ConcreteModel) (a : assignment) :
  Step1.build_model n_cycles energy_cap power_cap price = Ok m ->
  solver m = Some a ->
  List.length price = 96%nat ->
  Step1.step1_optimize_daa n_cycles energy_cap power_cap price solver
  = Ok (solved1 power_cap price a).
Proof.
  intros HB Hs Hlen. unfold Step1.step1_optimize_daa.
  rewrite HB. cbn [bind]. rewrite Hs, range_RangeSet.
  rewrite !values_Ok
    by (intros q Hq; apply RangeSet_In in Hq; apply RangeSet_In; lia).
  cbn [bind option_map].
  rewrite !(numbers_Some (fun q => a _ q)). cbn [bind].
  unfold Step1.profit.
  rewrite (for_each_map _
             (fun q => power_cap / 4 * nth q price 0
                       * (nth q (day a dis_daa (List.length price)) 0
                          - nth q (day a cha_daa (List.length price)) 0))).
  - reflexivity.
  - intros q Hq. apply range_In in Hq.
    rewrite !getitem_Ok by lens. reflexivity.
Qed.

(** ** Stage 2: what a feasible solution satisfies *)

Section Step2_feasible.

Variables n_cycles energy_cap power_cap : Q.
Variables price prior_cha prior_dis : list Q.
Variable m : ConcreteModel.
Variable a : assignment.
Hypothesis HB :
  Step2.build_model n_cycles energy_cap power_cap price prior_cha prior_dis = Ok m.

Local Abbreviation n := (List.length price).

(** A model is built only for a day of at least 96 quarters whose prior
    vectors cover every quarter. *)
Lemma Step2_build_lengths :
  (96 <= n)%nat /\ (n <= List.length prior_cha)%nat
  /\ (n <= List.length prior_dis)%nat.
Proof.
  pose proof HB as E. unfold Step2.build_model in E. binds_only E.
  assert (H96 : (96 <= n)%nat).
  { unfold Constraint1, Step2.set_last_soc_to_0 in Ec2.
    apply bind_Ok in Ec2 as (k & Hk & _).
    apply bind_Ok in Hk as (s & Hs & _).
    destruct (in_dec Nat.eq_dec 97%nat (var_index (Step2.model_soc price))) as [Hin|Hout].
    - apply RangeSet_In in Hin. lia.
    - rewrite (getvar_not_In _ _ Hout) in Hs. discriminate. }
  split; [exact H96|].
  destruct (for_each_In _ _ _ Ec3 n) as (k & Hk & _).
  { apply RangeSet_In. lia. }
  unfold Step2.soc_step_constraint in Hk. revert Hk. refs.
  unfold getitem.
  destruct (nth_error prior_cha (n - 1)) eqn:Hc; [|discriminate].
  destruct (nth_error prior_dis (n - 1)) eqn:Hd; [|discriminate].
  intros _.
  assert (n - 1 < List.length prior_cha)%nat
    by (apply nth_error_Some; congruence).
  assert (n - 1 < List.length prior_dis)%nat
    by (apply nth_error_Some; congruence).
  lia.
Qed.

Lemma Step2_prior_cha (q : nat) :
  (1 <= q <= n)%nat -> getitem prior_cha (q - 1) = Ok (prior prior_cha q).
Proof.
  intros Hq. destruct Step2_build_lengths as (_ & Hc & _).
  apply getitem_Ok. lia.
Qed.

Lemma Step2_prior_dis (q : nat) :
  (1 <= q <= n)%nat -> getitem prior_dis (q - 1) = Ok (prior prior_dis q).
Proof.
  intros Hq. destruct Step2_build_lengths as (_ & _ & Hd).
  apply getitem_Ok. lia.
Qed.

Lemma Step2_cycle_terms (v : Var) (ts : list expr) :
  var_index v = Step2.model_Q price ->
  for_each (getvar v) (Step2.model_Q price) = Ok ts ->
  eval a (sum_expr ts) = sum_Q (day a (var_name v) n).
Proof.
  intros Hv E.
  rewrite for_each_getvar_id in E by (intros q Hq; now rewrite Hv).
  injection E as <-.
  rewrite eval_sum_expr, map_map. reflexivity.
Qed.

(** The constraints [F] of a component of [m], with the rule they come
    from. *)
Ltac open_component F :=
  let E := fresh "E" in
  pose proof HB as E; unfold Step2.build_model in E; binds_only E;
  injection E as E; rewrite <- E in F; simpl in F.

Ltac priors Hq :=
  rewrite ?(Step2_prior_cha _ Hq), ?(Step2_prior_dis _ Hq); cbn [bind].

Lemma Step2_unit_bounds (x : vname) (q : nat) :
  bounds_hold a m = true ->
  In x [cha_ida; dis_ida; cha_ida_close; dis_ida_close] ->
  (1 <= q <= n)%nat -> 0 <= a x q <= 1.
Proof.
  intros F Hx Hq.
  pose proof HB as E. unfold Step2.build_model in E. binds_only E.
  injection E as E.
  apply (Unit_Var_bounded a m x (Step2.model_Q price) q F).
  - rewrite <- E. simpl.
    destruct Hx as [<-|[<-|[<-|[<-|[]]]]]; auto 6.
  - apply RangeSet_In. lia.
Qed.

Lemma Step2_cha_close_logic (q : nat) :
  forallb (holds a) (component "cha_close_logic" (constraints m)) = true ->
  (1 <= q <= n)%nat -> a cha_ida_close q <= prior prior_dis q.
Proof.
  intros F Hq. open_component F. indexed F q k Hk Hh.
  unfold Step2.cha_close_logic in Hk. revert Hk. refs. priors Hq.
  intros [= <-]. now apply holds_le in Hh.
Qed.

Lemma Step2_dis_close_logic (q : nat) :
  forallb (holds a) (component "dis_close_logic" (constraints m)) = true ->
  (1 <= q <= n)%nat -> a dis_ida_close q <= prior prior_cha q.
Proof.
  intros F Hq. open_component F. indexed F q k Hk Hh.
  unfold Step2.dis_close_logic in Hk. revert Hk. refs. priors Hq.
  intros [= <-]. now apply holds_le in Hh.
Qed.

Lemma Step2_charge_rate_limit (q : nat) :
  forallb (holds a) (component "charge_rate_limit" (constraints m)) = true ->
  (1 <= q <= n)%nat -> a cha_ida q + prior prior_cha q <= 1.
Proof.
  intros F Hq. open_component F. indexed F q k Hk Hh.
  unfold Step2.charge_rate_limit in Hk. revert Hk. refs. priors Hq.
  intros [= <-]. now apply holds_le in Hh.
Qed.

Lemma Step2_discharge_rate_limit (q : nat) :
  forallb (holds a) (component "discharge_rate_limit" (constraints m)) = true ->
  (1 <= q <= n)%nat -> a dis_ida q + prior prior_dis q <= 1.
Proof.
  intros F Hq. open_component F. indexed F q k Hk Hh.
  unfold Step2.discharge_rate_limit in Hk. revert Hk. refs. priors Hq.
  intros [= <-]. now apply holds_le in Hh.
Qed.

Hypothesis HF : feasible a m = true.

Ltac component2 name F :=
  pose proof (feasible_component a m name HF) as F; open_component F.

Ltac unit_bounds :=
  intros q Hq;
  apply (Step2_unit_bounds _ q (feasible_bounds_hold a m HF)); [simpl; auto 6 | exact Hq].

Lemma Step2_sound :
  Step23_constraints Auction n_cycles energy_cap power_cap n prior_cha prior_dis a.
Proof.
  destruct Step2_build_lengths as (H96 & Hlc & Hld).
  constructor; try assumption.
  - unit_bounds.
  - unit_bounds.
  - unit_bounds.
  - unit_bounds.
  - intros q Hq. component2 "set_maximum_soc"%string F.
    indexed F q k Hk Hh.
    unfold Step2.set_maximum_soc in Hk. revert Hk. refs.
    intros [= <-]. now apply holds_le in Hh.
  - intros q Hq. component2 "set_minimum_soc"%string F.
    indexed F q k Hk Hh.
    unfold Step2.set_minimum_soc in Hk. revert Hk. refs.
    intros [= <-]. now apply holds_ge in Hh.
  - component2 "set_first_soc_to_0"%string F.
    scalar F k Hk Hh. unfold Step2.set_first_soc_to_0 in Hk. revert Hk. refs.
    intros [= <-]. now apply holds_eq in Hh.
  - component2 "set_last_soc_to_0"%string F.
    scalar F k Hk Hh. unfold Step2.set_last_soc_to_0 in Hk. revert Hk. refs.
    intros [= <-]. now apply holds_eq in Hh.
  - intros q Hq. component2 "soc_step_constraint"%string F.
    indexed F q k Hk Hh.
    unfold Step2.soc_step_constraint in Hk. revert Hk. refs. priors Hq.
    intros [= <-]. now apply holds_eq in Hh.
  - component2 "charge_cycle_limit"%string F.
    scalar F k Hk Hh. unfold Step2.charge_cycle_limit in Hk.
    apply bind_Ok in Hk as (ts & Hts & Hk).
    apply bind_Ok in Hk as (us & Hus & Hk). injection Hk as <-.
    apply holds_le in Hh. simpl eval in Hh.
    rewrite (Step2_cycle_terms (Step2.model_cha_ida price) ts eq_refl Hts) in Hh.
    now rewrite (Step2_cycle_terms (Step2.model_dis_ida_close price) us eq_refl Hus) in Hh.
  - component2 "discharge_cycle_limit"%string F.
    scalar F k Hk Hh. unfold Step2.discharge_cycle_limit in Hk.
    apply bind_Ok in Hk as (ts & Hts & Hk).
    apply bind_Ok in Hk as (us & Hus & Hk). injection Hk as <-.
    apply holds_le in Hh. simpl eval in Hh.
    rewrite (Step2_cycle_terms (Step2.model_dis_ida price) ts eq_refl Hts) in Hh.
    now rewrite (Step2_cycle_terms (Step2.model_cha_ida_close price) us eq_refl Hus) in Hh.
  - intros q Hq. apply Step2_cha_close_logic; [|exact Hq].
    now apply feasible_component.
  - intros q Hq. apply Step2_dis_close_logic; [|exact Hq].
    now apply feasible_component.
  - intros q Hq. apply Step2_charge_rate_limit; [|exact Hq].
    now apply feasible_component.
  - intros q Hq. apply Step2_discharge_rate_limit; [|exact Hq].
    now apply feasible_component.
Qed.

End Step2_feasible.

(** The Stage 2 model is built when the day has at least 96 quarters and
    both prior vectors cover it. *)
Lemma Step2_build_total (n_cycles energy_cap power_cap : Q)
    (price prior_cha prior_dis : list Q) :
  (96 <= List.length price)%nat ->
  (List.length price <= List.length prior_cha)%nat ->
  (List.length price <= List.length prior_dis)%nat ->
  exists m,
    Step2.build_model n_cycles energy_cap power_cap price prior_cha prior_dis
    = Ok m.
Proof.
  intros H96 Hc Hd. unfold Step2.build_model.
  build_chain.
  - reflexivity.
  - reflexivity.
  - unfold Step2.charge_cycle_limit.
    rewrite !for_each_getvar_id by (intros q Hq; exact Hq). reflexivity.
  - unfold Step2.discharge_cycle_limit.
    rewrite !for_each_getvar_id by (intros q Hq; exact Hq). reflexivity.
  - unfold Step2.objective. apply bind_total; [|intros ts; now eexists].
    apply for_each_total. intros q Hq. apply RangeSet_In in Hq. eexists.
    rewrite getitem_Ok by lia. cbn [bind]. refs. reflexivity.
  - now eexists.
Qed.

(** A prior vector shorter than the day stops the construction of the
    model with an [IndexError]. *)
Lemma Step2_build_short (n_cycles energy_cap power_cap : Q)
    (price prior_cha prior_dis : list Q) :
  (96 <= List.length price)%nat ->
  (List.length prior_cha < List.length price
   \/ List.length prior_dis < List.length price)%nat ->
  Step2.build_model n_cycles energy_cap power_cap price prior_cha prior_dis
  = Raise IndexError.
Proof.
  intros H96 Hshort. unfold Step2.build_model.
  destruct (Constraint_total (Step2.model_Q_plus_1 price)
              (Step2.set_maximum_soc energy_cap price)) as (c1 & ->).
  { intros q Hq. apply RangeSet_In in Hq. eexists.
    unfold Step2.set_maximum_soc. refs. reflexivity. }
  destruct (Constraint_total (Step2.model_Q_plus_1 price)
              (Step2.set_minimum_soc price)) as (c2 & ->).
  { intros q Hq. apply RangeSet_In in Hq. eexists.
    unfold Step2.set_minimum_soc. refs. reflexivity. }
  unfold Constraint1 at 1, Step2.set_first_soc_to_0. refs.
  unfold Constraint1 at 1, Step2.set_last_soc_to_0. refs.
  unfold Constraint at 1.
  rewrite (for_each_Raise_only _ (Step2.model_Q price) IndexError);
    [reflexivity | |].
  - intros q Hq. apply RangeSet_In in Hq.
    unfold Step2.soc_step_constraint. refs. unfold getitem.
    destruct (nth_error prior_cha (q - 1)); [|now right].
    destruct (nth_error prior_dis (q - 1)); [|now right].
    left. now eexists.
  - destruct Hshort as [Hs|Hs].
    + exists (List.length prior_cha + 1)%nat. split; [apply RangeSet_In; lia|].
      unfold Step2.soc_step_constraint. refs.
      rewrite (getitem_Raise prior_cha) by lia. reflexivity.
    + exists (List.length prior_dis + 1)%nat. split; [apply RangeSet_In; lia|].
      unfold Step2.soc_step_constraint. refs. unfold getitem.
      destruct (nth_error prior_cha _); [|reflexivity].
      replace (nth_error prior_dis _) with (@None Q); [reflexivity|].
      symmetry. apply nth_error_None. lia.
Qed.

(** The stage on a built model for which the solver loaded values. *)
Lemma Step2_result (n_cycles energy_cap power_cap : Q)
    (price prior_cha prior_dis : list Q)
    (solver : ConcreteModel -> option assignment)
    (m : ConcreteModel) (a : assignment) :
  Step2.build_model n_cycles energy_cap power_cap price prior_cha prior_dis
  = Ok m ->
  solver m = Some a ->
  List.length prior_cha = List.length price ->
  List.length prior_dis = List.length price ->
  Step2.step2_optimize_ida n_cycles energy_cap power_cap price prior_cha prior_dis solver
  = Ok (solved Auction power_cap price prior_cha prior_dis a).
Proof.
  intros HB Hs Hc Hd. unfold Step2.step2_optimize_ida.
  rewrite HB. cbn [bind]. rewrite Hs, range_RangeSet.
  rewrite !values_Ok
    by (intros q Hq; apply RangeSet_In in Hq; apply RangeSet_In; lia).
  cbn [bind option_map].
  rewrite !(numbers_Some (fun q => a _ q)). cbn [bind].
  unfold Step2.profit, Step2.combined.
  repeat (rewrite np_zip_same by lens; cbn [bind]).
  reflexivity.
Qed.

(** The stage without values from the solver: arithmetic on [None]. *)
Lemma Step2_no_values (n_cycles energy_cap power_cap : Q)
    (price prior_cha prior_dis : list Q)
    (solver : ConcreteModel -> option assignment) (m : ConcreteModel) :
  Step2.build_model n_cycles energy_cap power_cap price prior_cha prior_dis
  = Ok m ->
  solver m = None ->
  Step2.step2_optimize_ida n_cycles energy_cap power_cap price prior_cha prior_dis solver
  = Raise TypeError.
Proof.
  intros HB Hs.
  destruct (Step2_build_lengths _ _ _ _ _ _ _ HB) as (H96 & _).
  unfold Step2.step2_optimize_ida.
  rewrite HB. cbn [bind]. rewrite Hs, range_RangeSet.
  rewrite !values_Ok
    by (intros q Hq; apply RangeSet_In in Hq; apply RangeSet_In; lia).
  cbn [bind option_map].
  rewrite numbers_None; [reflexivity|].
  intros Hnil. apply (f_equal (@List.length nat)) in Hnil.
  rewrite RangeSet_length in Hnil. simpl in Hnil. lia.
Qed.

(** A normal return of the stage: the model was built, the solver loaded
    values, and the prior vectors have one entry per quarter. *)
Lemma Step2_result_inv (n_cycles energy_cap power_cap : Q)
    (price prior_cha prior_dis : list Q)
    (solver : ConcreteModel -> option assignment) (r : step23_result) :
  Step2.step2_optimize_ida n_cycles energy_cap power_cap price prior_cha prior_dis solver
  = Ok r ->
  exists m a,
    Step2.build_model n_cycles energy_cap power_cap price prior_cha prior_dis
    = Ok m
    /\ solver m = Some a
    /\ (96 <= List.length price)%nat
    /\ List.length prior_cha = List.length price
    /\ List.length prior_dis = List.length price
    /\ r = solved Auction power_cap price prior_cha prior_dis a.
Proof.
  intros H.
  destruct (Step2.build_model n_cycles energy_cap power_cap price
              prior_cha prior_dis) as [m|e] eqn:HB;
    [|unfold Step2.step2_optimize_ida in H; rewrite HB in H; discriminate].
  destruct (solver m) as [a|] eqn:Hs;
    [|rewrite (Step2_no_values _ _ _ _ _ _ _ _ HB Hs) in H; discriminate].
  destruct (Step2_build_lengths _ _ _ _ _ _ _ HB) as (H96 & Hc & Hd).
  assert (Hlen : List.length prior_cha = List.length price
                 /\ List.length prior_dis = List.length price).
  { pose proof H as H'. unfold Step2.step2_optimize_ida in H'.
    rewrite HB in H'. cbn [bind] in H'. rewrite Hs, range_RangeSet in H'.
    rewrite !values_Ok in H'
      by (intros q Hq; apply RangeSet_In in Hq; apply RangeSet_In; lia).
    cbn [bind option_map] in H'.
    rewrite !(numbers_Some (fun q => a _ q)) in H'. cbn [bind] in H'.
    apply bind_Ok in H' as (p & _ & H').
    apply bind_Ok in H' as (cc & Hcc & H').
    apply bind_Ok in H' as (dc & Hdc & _).
    unfold Step2.combined in Hcc, Hdc.
    apply bind_Ok in Hcc as (x & Hx & _).
    apply bind_Ok in Hdc as (y & Hy & _).
    apply np_zip_long in Hx; [|lia|lens].
    apply np_zip_long in Hy; [|lia|lens].
    rewrite length_map, RangeSet_length in Hx, Hy. lia. }
  destruct Hlen as (Hc' & Hd').
  rewrite (Step2_result _ _ _ _ _ _ _ _ _ HB Hs Hc' Hd') in H.
  injection H as <-. exists m, a. repeat split; assumption.
Qed.

(** ** Stage 3: what a feasible solution satisfies *)

Section Step3_feasible.

Variables n_cycles energy_cap power_cap : Q.
Variables price prior_cha prior_dis : list Q.
Variable m : ConcreteModel.
Variable a : assignment.
Hypothesis HB :
  Step3.build_model n_cycles energy_cap power_cap price prior_cha prior_dis = Ok m.

Local Abbreviation n := (List.length price).

(** A model is built only for a day of at least 96 quarters whose prior
    vectors cover every quarter. *)
Lemma Step3_build_lengths :
  (96 <= n)%nat /\ (n <= List.length prior_cha)%nat
  /\ (n <= List.length prior_dis)%nat.
Proof.
  pose proof HB as E. unfold Step3.build_model in E. binds_only E.
  assert (H96 : (96 <= n)%nat).
  { unfold Constraint1, Step3.set_last_soc_to_0 in Ec2.
    apply bind_Ok in Ec2 as (k & Hk & _).
    apply bind_Ok in Hk as (s & Hs & _).
    destruct (in_dec Nat.eq_dec 97%nat (var_index (Step3.model_soc price))) as [Hin|Hout].
    - apply RangeSet_In in Hin. lia.
    - rewrite (getvar_not_In _ _ Hout) in Hs. discriminate. }
  split; [exact H96|].
  destruct (for_each_In _ _ _ Ec3 n) as (k & Hk & _).
  { apply RangeSet_In. lia. }
  unfold Step3.soc_step_constraint in Hk. revert Hk. refs.
  unfold getitem.
  destruct (nth_error prior_cha (n - 1)) eqn:Hc; [|discriminate].
  destruct (nth_error prior_dis (n - 1)) eqn:Hd; [|discriminate].
  intros _.
  assert (n - 1 < List.length prior_cha)%nat
    by (apply nth_error_Some; congruence).
  assert (n - 1 < List.length prior_dis)%nat
    by (apply nth_error_Some; congruence).
  lia.
Qed.

Lemma Step3_prior_cha (q : nat) :
  (1 <= q <= n)%nat -> getitem prior_cha (q - 1) = Ok (prior prior_cha q).
Proof.
  intros Hq. destruct Step3_build_lengths as (_ & Hc & _).
  apply getitem_Ok. lia.
Qed.

Lemma Step3_prior_dis (q : nat) :
  (1 <= q <= n)%nat -> getitem prior_dis (q - 1) = Ok (prior prior_dis q).
Proof.
  intros Hq. destruct Step3_build_lengths as (_ & _ & Hd).
  apply getitem_Ok. lia.
Qed.

Lemma Step3_cycle_terms (v : Var) (ts : list expr) :
  var_index v = Step3.model_Q price ->
  for_each (getvar v) (Step3.model_Q price) = Ok ts ->
  eval a (sum_expr ts) = sum_Q (day a (var_name v) n).
Proof.
  intros Hv E.
  rewrite for_each_getvar_id in E by (intros q Hq; now rewrite Hv).
  injection E as <-.
  rewrite eval_sum_expr, map_map. reflexivity.
Qed.

(** The constraints [F] of a component of [m], with the rule they come
    from. *)
Ltac open_component F :=
  let E := fresh "E" in
  pose proof HB as E; unfold Step3.build_model in E; binds_only E;
  injection E as E; rewrite <- E in F; simpl in F.

Ltac priors Hq :=
  rewrite ?(Step3_prior_cha _ Hq), ?(Step3_prior_dis _ Hq); cbn [bind].

Lemma Step3_unit_bounds (x : vname) (q : nat) :
  bounds_hold a m = true ->
  In x [cha_idc; dis_idc; cha_idc_close; dis_idc_close] ->
  (1 <= q <= n)%nat -> 0 <= a x q <= 1.
Proof.
  intros F Hx Hq.
  pose proof HB as E. unfold Step3.build_model in E. binds_only E.
  injection E as E.
  apply (Unit_Var_bounded a m x (Step3.model_Q price) q F).
  - rewrite <- E. simpl.
    destruct Hx as [<-|[<-|[<-|[<-|[]]]]]; auto 6.
  - apply RangeSet_In. lia.
Qed.

Lemma Step3_cha_close_logic (q : nat) :
  forallb (holds a) (component "cha_close_logic" (constraints m)) = true ->
  (1 <= q <= n)%nat -> a cha_idc_close q <= prior prior_dis q.
Proof.
  intros F Hq. open_component F. indexed F q k Hk Hh.
  unfold Step3.cha_close_logic in Hk. revert Hk. refs. priors Hq.
  intros [= <-]. now apply holds_le in Hh.
Qed.

Lemma Step3_dis_close_logic (q : nat) :
  forallb (holds a) (component "dis_close_logic" (constraints m)) = true ->
  (1 <= q <= n)%nat -> a dis_idc_close q <= prior prior_cha q.
Proof.
  intros F Hq. open_component F. indexed F q k Hk Hh.
  unfold Step3.dis_close_logic in Hk. revert Hk. refs. priors Hq.
  intros [= <-]. now apply holds_le in Hh.
Qed.

Lemma Step3_charge_rate_limit (q : nat) :
  forallb (holds a) (component "charge_rate_limit" (constraints m)) = true ->
  (1 <= q <= n)%nat -> a cha_idc q + prior prior_cha q <= 1.
Proof.
  intros F Hq. open_component F. indexed F q k Hk Hh.
  unfold Step3.charge_rate_limit in Hk. revert Hk. refs. priors Hq.
  intros [= <-]. now apply holds_le in Hh.
Qed.

Lemma Step3_discharge_rate_limit (q : nat) :
  forallb (holds a) (component "discharge_rate_limit" (constraints m)) = true ->
  (1 <= q <= n)%nat -> a dis_idc q + prior prior_dis q <= 1.
Proof.
  intros F Hq. open_component F. indexed F q k Hk Hh.
  unfold Step3.discharge_rate_limit in Hk. revert Hk. refs. priors Hq.
  intros [= <-]. now apply holds_le in Hh.
Qed.

Hypothesis HF : feasible a m = true.

Ltac component3 name F :=
  pose proof (feasible_component a m name HF) as F; open_component F.

Ltac unit_bounds :=
  intros q Hq;
  apply (Step3_unit_bounds _ q (feasible_bounds_hold a m HF)); [simpl; auto 6 | exact Hq].

Lemma Step3_sound :
  Step23_constraints Continuous n_cycles energy_cap power_cap n prior_cha prior_dis a.
Proof.
  destruct Step3_build_lengths as (H96 & Hlc & Hld).
  constructor; try assumption.
  - unit_bounds.
  - unit_bounds.
  - unit_bounds.
  - unit_bounds.
  - intros q Hq. component3 "set_maximum_soc"%string F.
    indexed F q k Hk Hh.
    unfold Step3.set_maximum_soc in Hk. revert Hk. refs.
    intros [= <-]. now apply holds_le in Hh.
  - intros q Hq. component3 "set_minimum_soc"%string F.
    indexed F q k Hk Hh.
    unfold Step3.set_minimum_soc in Hk. revert Hk. refs.
    intros [= <-]. now apply holds_ge in Hh.
  - component3 "set_first_soc_to_0"%string F.
    scalar F k Hk Hh. unfold Step3.set_first_soc_to_0 in Hk. revert Hk. refs.
    intros [= <-]. now apply holds_eq in Hh.
  - component3 "set_last_soc_to_0"%string F.
    scalar F k Hk Hh. unfold Step3.set_last_soc_to_0 in Hk. revert Hk. refs.
    intros [= <-]. now apply holds_eq in Hh.
  - intros q Hq. component3 "soc_step_constraint"%string F.
    indexed F q k Hk Hh.
    unfold Step3.soc_step_constraint in Hk. revert Hk. refs. priors Hq.
    intros [= <-]. now apply holds_eq in Hh.
  - component3 "discharge_cycle_limit"%string F.
    scalar F k Hk Hh. unfold Step3.discharge_cycle_limit in Hk.
    apply bind_Ok in Hk as (ts & Hts & Hk).
    apply bind_Ok in Hk as (us & Hus & Hk). injection Hk as <-.
    apply holds_le in Hh. simpl eval in Hh.
    rewrite (Step3_cycle_terms (Step3.model_cha_idc price) ts eq_refl Hts) in Hh.
    now rewrite (Step3_cycle_terms (Step3.model_dis_idc_close price) us eq_refl Hus) in Hh.
  - component3 "charge_cycle_limit"%string F.
    scalar F k Hk Hh. unfold Step3.charge_cycle_limit in Hk.
    apply bind_Ok in Hk as (ts & Hts & Hk).
    apply bind_Ok in Hk as (us & Hus & Hk). injection Hk as <-.
    apply holds_le in Hh. simpl eval in Hh.
    rewrite (Step3_cycle_terms (Step3.model_dis_idc price) ts eq_refl Hts) in Hh.
    now rewrite (Step3_cycle_terms (Step3.model_cha_idc_close price) us eq_refl Hus) in Hh.
  - intros q Hq. apply Step3_cha_close_logic; [|exact Hq].
    now apply feasible_component.
  - intros q Hq. apply Step3_dis_close_logic; [|exact Hq].
    now apply feasible_component.
  - intros q Hq. apply Step3_charge_rate_limit; [|exact Hq].
    now apply feasible_component.
  - intros q Hq. apply Step3_discharge_rate_limit; [|exact Hq].
    now apply feasible_component.
Qed.

End Step3_feasible.

(** The Stage 3 model is built when the day has at least 96 quarters and
    both prior vectors cover it. *)
Lemma Step3_build_total (n_cycles energy_cap power_cap : Q)
    (price prior_cha prior_dis : list Q) :
  (96 <= List.length price)%nat ->
  (List.length price <= List.length prior_cha)%nat ->
  (List.length price <= List.length prior_dis)%nat ->
  exists m,
    Step3.build_model n_cycles energy_cap power_cap price prior_cha prior_dis
    = Ok m.
Proof.
  intros H96 Hc Hd. unfold Step3.build_model.
  build_chain.
  - reflexivity.
  - reflexivity.
  - unfold Step3.charge_cycle_limit.
    rewrite !for_each_getvar_id by (intros q Hq; exact Hq). reflexivity.
  - unfold Step3.discharge_cycle_limit.
    rewrite !for_each_getvar_id by (intros q Hq; exact Hq). reflexivity.
  - unfold Step3.objective. apply bind_total; [|intros ts; now eexists].
    apply for_each_total. intros q Hq. apply RangeSet_In in Hq. eexists.
    rewrite getitem_Ok by lia. cbn [bind]. refs. reflexivity.
  - now eexists.
Qed.

(** A prior vector shorter than the day stops the construction of the
    model with an [IndexError]. *)
Lemma Step3_build_short (n_cycles energy_cap power_cap : Q)
    (price prior_cha prior_dis : list Q) :
  (96 <= List.length price)%nat ->
  (List.length prior_cha < List.length price
   \/ List.length prior_dis < List.length price)%nat ->
  Step3.build_model n_cycles energy_cap power_cap price prior_cha prior_dis
  = Raise IndexError.
Proof.
  intros H96 Hshort. unfold Step3.build_model.
  destruct (Constraint_total (Step3.model_Q_plus_1 price)
              (Step3.set_maximum_soc energy_cap price)) as (c1 & ->).
  { intros q Hq. apply RangeSet_In in Hq. eexists.
    unfold Step3.set_maximum_soc. refs. reflexivity. }
  destruct (Constraint_total (Step3.model_Q_plus_1 price)
              (Step3.set_minimum_soc price)) as (c2 & ->).
  { intros q Hq. apply RangeSet_In in Hq. eexists.
    unfold Step3.set_minimum_soc. refs. reflexivity. }
  unfold Constraint1 at 1, Step3.set_first_soc_to_0. refs.
  unfold Constraint1 at 1, Step3.set_last_soc_to_0. refs.
  unfold Constraint at 1.
  rewrite (for_each_Raise_only _ (Step3.model_Q price) IndexError);
    [reflexivity | |].
  - intros q Hq. apply RangeSet_In in Hq.
    unfold Step3.soc_step_constraint. refs. unfold getitem.
    destruct (nth_error prior_cha (q - 1)); [|now right].
    destruct (nth_error prior_dis (q - 1)); [|now right].
    left. now eexists.
  - destruct Hshort as [Hs|Hs].
    + exists (List.length prior_cha + 1)%nat. split; [apply RangeSet_In; lia|].
      unfold Step3.soc_step_constraint. refs.
      rewrite (getitem_Raise prior_cha) by lia. reflexivity.
    + exists (List.length prior_dis + 1)%nat. split; [apply RangeSet_In; lia|].
      unfold Step3.soc_step_constraint. refs. unfold getitem.
      destruct (nth_error prior_cha _); [|reflexivity].
      replace (nth_error prior_dis _) with (@None Q); [reflexivity|].
      symmetry. apply nth_error_None. lia.
Qed.

(** The stage on a built model for which the solver loaded values. *)
Lemma Step3_result (n_cycles energy_cap power_cap : Q)
    (price prior_cha prior_dis : list Q)
    (solver : ConcreteModel -> option assignment)
    (m : ConcreteModel) (a : assignment) :
  Step3.build_model n_cycles energy_cap power_cap price prior_cha prior_dis
  = Ok m ->
  solver m = Some a ->
  List.length prior_cha = List.length price ->
  List.length prior_dis = List.length price ->
  Step3.step3_optimize_idc n_cycles energy_cap power_cap price prior_cha prior_dis solver
  = Ok (solved Continuous power_cap price prior_cha prior_dis a).
Proof.
  intros HB Hs Hc Hd. unfold Step3.step3_optimize_idc.
  rewrite HB. cbn [bind]. rewrite Hs, range_RangeSet.
  rewrite !values_Ok
    by (intros q Hq; apply RangeSet_In in Hq; apply RangeSet_In; lia).
  cbn [bind option_map].
  rewrite !(numbers_Some (fun q => a _ q)). cbn [bind].
  unfold Step3.profit, Step3.combined.
  repeat (rewrite np_zip_same by lens; cbn [bind]).
  reflexivity.
Qed.

(** The stage without values from the solver: arithmetic on [None]. *)
Lemma Step3_no_values (n_cycles energy_cap power_cap : Q)
    (price prior_cha prior_dis : list Q)
    (solver : ConcreteModel -> option assignment) (m : ConcreteModel) :
  Step3.build_model n_cycles energy_cap power_cap price prior_cha prior_dis
  = Ok m ->
  solver m = None ->
  Step3.step3_optimize_idc n_cycles energy_cap power_cap price prior_cha prior_dis solver
  = Raise TypeError.
Proof.
  intros HB Hs.
  destruct (Step3_build_lengths _ _ _ _ _ _ _ HB) as (H96 & _).
  unfold Step3.step3_optimize_idc.
  rewrite HB. cbn [bind]. rewrite Hs, range_RangeSet.
  rewrite !values_Ok
    by (intros q Hq; apply RangeSet_In in Hq; apply RangeSet_In; lia).
  cbn [bind option_map].
  rewrite numbers_None; [reflexivity|].
  intros Hnil. apply (f_equal (@List.length nat)) in Hnil.
  rewrite RangeSet_length in Hnil. simpl in Hnil. lia.
Qed.

(** A normal return of the stage: the model was built, the solver loaded
    values, and the prior vectors have one entry per quarter. *)
Lemma Step3_result_inv (n_cycles energy_cap power_cap : Q)
    (price prior_cha prior_dis : list Q)
    (solver : ConcreteModel -> option assignment) (r : step23_result) :
  Step3.step3_optimize_idc n_cycles energy_cap power_cap price prior_cha prior_dis solver
  = Ok r ->
  exists m a,
    Step3.build_model n_cycles energy_cap power_cap price prior_cha prior_dis
    = Ok m
    /\ solver m = Some a
    /\ (96 <= List.length price)%nat
    /\ List.length prior_cha = List.length price
    /\ List.length prior_dis = List.length price
    /\ r = solved Continuous power_cap price prior_cha prior_dis a.
Proof.
  intros H.
  destruct (Step3.build_model n_cycles energy_cap power_cap price
              prior_cha prior_dis) as [m|e] eqn:HB;
    [|unfold Step3.step3_optimize_idc in H; rewrite HB in H; discriminate].
  destruct (solver m) as [a|] eqn:Hs;
    [|rewrite (Step3_no_values _ _ _ _ _ _ _ _ HB Hs) in H; discriminate].
  destruct (Step3_build_lengths _ _ _ _ _ _ _ HB) as (H96 & Hc & Hd).
  assert (Hlen : List.length prior_cha = List.length price
                 /\ List.length prior_dis = List.length price).
  { pose proof H as H'. unfold Step3.step3_optimize_idc in H'.
    rewrite HB in H'. cbn [bind] in H'. rewrite Hs, range_RangeSet in H'.
    rewrite !values_Ok in H'
      by (intros q Hq; apply RangeSet_In in Hq; apply RangeSet_In; lia).
    cbn [bind option_map] in H'.
    rewrite !(numbers_Some (fun q => a _ q)) in H'. cbn [bind] in H'.
    apply bind_Ok in H' as (p & _ & H').
    apply bind_Ok in H' as (cc & Hcc & H').
    apply bind_Ok in H' as (dc & Hdc & _).
    unfold Step3.combined in Hcc, Hdc.
    apply bind_Ok in Hcc as (x & Hx & _).
    apply bind_Ok in Hdc as (y & Hy & _).
    apply np_zip_long in Hx; [|lia|lens].
    apply np_zip_long in Hy; [|lia|lens].
    rewrite length_map, RangeSet_length in Hx, Hy. lia. }
  destruct Hlen as (Hc' & Hd').
  rewrite (Step3_result _ _ _ _ _ _ _ _ _ HB Hs Hc' Hd') in H.
  injection H as <-. exists m, a. repeat split; assumption.
Qed.

(** * The claims *)

(** ** Hourly blocks of Stage 1 *)

(** In every feasible solution of the Stage 1 model the four charge
    values of an hour are equal. *)
Lemma Step1_charge_blocks (n_cycles energy_cap power_cap : Q) (price : list Q)
    (m : ConcreteModel) (a : assignment) (h : nat) :
  Step1.build_model n_cycles energy_cap power_cap price = Ok m ->
  feasible a m = true -> (h <= 23)%nat ->
  a cha_daa (4 * h + 1)%nat == a cha_daa (4 * h + 2)%nat
  /\ a cha_daa (4 * h + 2)%nat == a cha_daa (4 * h + 3)%nat
  /\ a cha_daa (4 * h + 3)%nat == a cha_daa (4 * h + 4)%nat.
Proof.
  intros HB HF Hh.
  destruct (Step1_sound _ _ _ _ _ _ HB HF) as [_ _ _ _ _ _ _ _ _ H12 H23 H34].
  auto.
Qed.

(** The assignment [front_loaded] is an optimal solution of the Stage 1
    model for [n_cycles = 1], [energy_cap = 1], [power_cap = 4] and the
    two-hour prices: no feasible solution earns more than its revenue
    of 4. *)
Lemma front_loaded_optimal (a : assignment) :
  let m := model_of (Step1.build_model 1 1 4 two_hour_prices) in
  feasible a m = true ->
  eval a (obj m) <= eval front_loaded (obj m)
  /\ eval front_loaded (obj m) == 4.
Proof.
  intros m HF.
  assert (HB : Step1.build_model 1 1 4 two_hour_prices = Ok m)
    by (vm_compute; reflexivity).
  pose proof (Step1_sound _ _ _ _ _ _ HB HF) as S.
  assert (E4 : eval front_loaded (obj m) == 4) by (vm_compute; reflexivity).
  split; [|exact E4]. rewrite E4.
  pose proof (s1_first _ _ _ _ S) as H1.
  pose proof (s1_soc_max _ _ _ _ S 5%nat ltac:(lia)) as H5.
  pose proof (s1_soc_min _ _ _ _ S 9%nat ltac:(lia)) as H9.
  pose proof (s1_step _ _ _ _ S 1%nat ltac:(lia)) as T1.
  pose proof (s1_step _ _ _ _ S 2%nat ltac:(lia)) as T2.
  pose proof (s1_step _ _ _ _ S 3%nat ltac:(lia)) as T3.
  pose proof (s1_step _ _ _ _ S 4%nat ltac:(lia)) as T4.
  pose proof (s1_step _ _ _ _ S 5%nat ltac:(lia)) as T5.
  pose proof (s1_step _ _ _ _ S 6%nat ltac:(lia)) as T6.
  pose proof (s1_step _ _ _ _ S 7%nat ltac:(lia)) as T7.
  pose proof (s1_step _ _ _ _ S 8%nat ltac:(lia)) as T8.
  simpl Nat.add in *.
  clear S HF HB E4.
  set (o := obj m). vm_compute in o. subst o. cbn [eval].
  rewrite quarter in T1, T2, T3, T4, T5, T6, T7, T8.
  lra.
Qed.

(** C1.  The claim asks for equal charge values and equal discharge
    values within each hour of every feasible solution of the Stage 1
    model.  The charge half holds ([Step1_charge_blocks]); the discharge
    half does not hold of the model the code builds, whose three
    [dis_daa_..._parity] components constrain [cha_daa].  For
    [n_cycles = 1], [energy_cap = 1], [power_cap = 4] and the two-hour
    prices, the assignment [front_loaded] is feasible and optimal, the
    stage returns it when the solver loads it, and it discharges at full
    power in quarter 5 and not at all in quarter 6 of the same hour. *)
Theorem C1_discharge_blocks_not_enforced :
  let m := model_of (Step1.build_model 1 1 4 two_hour_prices) in
  Step1.build_model 1 1 4 two_hour_prices = Ok m
  /\ feasible front_loaded m = true
  /\ (forall a, feasible a m = true ->
        eval a (obj m) <= eval front_loaded (obj m))
  /\ Step1.step1_optimize_daa 1 1 4 two_hour_prices (fun _ => Some front_loaded)
     = Ok (solved1 4 two_hour_prices front_loaded)
  /\ front_loaded dis_daa (4 * 1 + 1)%nat == 1
  /\ front_loaded dis_daa (4 * 1 + 2)%nat == 0
  /\ ~ front_loaded dis_daa (4 * 1 + 1)%nat == front_loaded dis_daa (4 * 1 + 2)%nat.
Proof.
  cbv zeta. split; [|split; [|split; [|split; [|split; [|split]]]]].
  - vm_compute. reflexivity.
  - vm_compute. reflexivity.
  - intros a HF. now apply front_loaded_optimal.
  - vm_compute. reflexivity.
  - vm_compute. reflexivity.
  - vm_compute. reflexivity.
  - vm_compute. discriminate.
Qed.

(** ** Conservation of the state of charge *)

(** C2.  In every feasible solution of the model of a stage, the state of
    charge after quarter [q] is the state before it plus [power_cap / 4]
    times the net flow of the quarter: charge minus discharge in Stage 1,
    and in Stages 2 and 3 also plus the charge-close, minus the
    discharge-close, plus the prior charge, minus the prior discharge. *)
Theorem C2_soc_step (s : stage) (n_cycles energy_cap power_cap : Q)
    (price prior_cha prior_dis : list Q) (m : ConcreteModel) (a : assignment)
    (q : nat) :
  build_model s n_cycles energy_cap power_cap price prior_cha prior_dis = Ok m ->
  feasible a m = true ->
  (1 <= q <= 96)%nat ->
  a soc (q + 1)%nat
  == a soc q + power_cap / 4 * netflow s a prior_cha prior_dis q.
Proof.
  intros HB HF Hq. destruct s; simpl in HB.
  - rewrite (s1_step _ _ _ _ (Step1_sound _ _ _ _ _ _ HB HF) q Hq).
    unfold netflow. ring.
  - pose proof (Step2_sound _ _ _ _ _ _ _ _ HB HF) as S.
    apply (s23_step _ _ _ _ _ _ _ _ S). pose proof (s23_quarters _ _ _ _ _ _ _ _ S). lia.
  - pose proof (Step3_sound _ _ _ _ _ _ _ _ HB HF) as S.
    apply (s23_step _ _ _ _ _ _ _ _ S). pose proof (s23_quarters _ _ _ _ _ _ _ _ S). lia.
Qed.

Lemma C2_witness :
  reshaped soc 9%nat
  == reshaped soc 8%nat
     + 4 / 4 * netflow IDA reshaped block_cycle_cha block_cycle_dis 8.
Proof.
  apply (C2_soc_step IDA 1 4 4 two_hour_prices block_cycle_cha block_cycle_dis
           (model_of (Step2.build_model 1 4 4 two_hour_prices
                        block_cycle_cha block_cycle_dis))
           reshaped 8%nat).
  - vm_compute. reflexivity.
  - vm_compute. reflexivity.
  - lia.
Defined.

(** ** Combined positions *)

(** C3.  Whenever Stage 2 or Stage 3 returns, whatever the solver loaded,
    the combined vectors it returns are, entry by entry, the prior charge
    minus the discharge-close plus the new charge, and the prior discharge
    minus the charge-close plus the new discharge; they have one entry
    per quarter. *)
Theorem C3_combined_identity (k : market) (n_cycles energy_cap power_cap : Q)
    (price prior_cha prior_dis : list Q)
    (solver : ConcreteModel -> option assignment) (r : step23_result) (i : nat) :
  optimize k n_cycles energy_cap power_cap price prior_cha prior_dis solver
  = Ok r ->
  (i < List.length price)%nat ->
  nth i (res_cha_combined r) 0
  = nth i prior_cha 0 - nth i (res_dis_close r) 0 + nth i (res_cha r) 0
  /\ nth i (res_dis_combined r) 0
     = nth i prior_dis 0 - nth i (res_cha_close r) 0 + nth i (res_dis r) 0
  /\ List.length (res_cha_combined r) = List.length price
  /\ List.length (res_dis_combined r) = List.length price
  /\ (96 <= List.length price)%nat.
Proof.
  intros H Hi.
  assert (exists a, List.length prior_cha = List.length price
                    /\ List.length prior_dis = List.length price
                    /\ (96 <= List.length price)%nat
                    /\ r = solved k power_cap price prior_cha prior_dis a)
    as (a & Hc & Hd & H96 & ->).
  { destruct k; simpl in H.
    - apply Step2_result_inv in H as (m & a & _ & _ & H96 & Hc & Hd & Hr).
      now exists a.
    - apply Step3_result_inv in H as (m & a & _ & _ & H96 & Hc & Hd & Hr).
      now exists a. }
  cbn [solved res_cha_combined res_dis_combined res_cha res_dis
       res_cha_close res_dis_close].
  rewrite !zip_with_nth by lens.
  repeat split; try reflexivity; lens.
Qed.

Lemma C3_witness :
  let r := solved Auction 4 two_hour_prices block_cycle_cha block_cycle_dis
             reshaped in
  nth 7 (res_cha_combined r) 0
  = nth 7 block_cycle_cha 0 - nth 7 (res_dis_close r) 0 + nth 7 (res_cha r) 0
  /\ nth 7 (res_dis_combined r) 0
     = nth 7 block_cycle_dis 0 - nth 7 (res_cha_close r) 0 + nth 7 (res_dis r) 0
  /\ List.length (res_cha_combined r) = List.length two_hour_prices
  /\ List.length (res_dis_combined r) = List.length two_hour_prices
  /\ (96 <= List.length two_hour_prices)%nat.
Proof.
  apply (C3_combined_identity Auction 1 4 4 two_hour_prices
           block_cycle_cha block_cycle_dis (fun _ => Some reshaped)).
  - vm_compute. reflexivity.
  - vm_compute. lia.
Defined.

(** ** Cycle budget *)

(** C4.  In every feasible solution of the model of a stage, the charged
    energy of the day (prior charge plus new charges minus
    discharge-closes, times [power_cap / 4]) is at most
    [energy_cap * n_cycles], and so is the discharged energy (prior
    discharge plus new discharges minus charge-closes, times
    [power_cap / 4]). *)
Theorem C4_cycle_budget (s : stage) (n_cycles energy_cap power_cap : Q)
    (price prior_cha prior_dis : list Q) (m : ConcreteModel) (a : assignment) :
  build_model s n_cycles energy_cap power_cap price prior_cha prior_dis = Ok m ->
  feasible a m = true ->
  List.length price = 96%nat ->
  charged_energy s power_cap a prior_cha 96 <= energy_cap * n_cycles
  /\ discharged_energy s power_cap a prior_dis 96 <= energy_cap * n_cycles.
Proof.
  intros HB HF Hlen. destruct s; simpl in HB.
  - destruct (Step1_sound _ _ _ _ _ _ HB HF) as [_ _ _ _ _ _ _ Hc Hd _ _ _].
    rewrite (sum_Q_scale (a cha_daa)) in Hc.
    rewrite (sum_Q_scale (a dis_daa)) in Hd.
    unfold charged_energy, discharged_energy, prior_total, dis_closed,
      cha_closed, day, cha_of, dis_of.
    split.
    + eapply Qle_trans; [|exact Hc]. apply Qle_lteq. right. field.
    + eapply Qle_trans; [|exact Hd]. apply Qle_lteq. right. field.
  - destruct (Step2_sound _ _ _ _ _ _ _ _ HB HF)
      as [_ _ _ _ _ _ _ _ _ _ _ _ Hc Hd _ _ _ _].
    rewrite Hlen in Hc, Hd. now split.
  - destruct (Step3_sound _ _ _ _ _ _ _ _ HB HF)
      as [_ _ _ _ _ _ _ _ _ _ _ _ Hc Hd _ _ _ _].
    rewrite Hlen in Hc, Hd. now split.
Qed.

Lemma C4_witness :
  charged_energy IDC 4 reshaped block_cycle_cha 96 <= 4 * 1
  /\ discharged_energy IDC 4 reshaped block_cycle_dis 96 <= 4 * 1.
Proof.
  apply (C4_cycle_budget IDC 1 4 4 two_hour_prices block_cycle_cha
           block_cycle_dis
           (model_of (Step3.build_model 1 4 4 two_hour_prices
                        block_cycle_cha block_cycle_dis))).
  - vm_compute. reflexivity.
  - vm_compute. reflexivity.
  - reflexivity.
Defined.

(** ** Closing trades *)

(** C5.  In every feasible solution of the Stage 2 or Stage 3 model, the
    charge-close of a quarter is at most the prior discharge of that
    quarter and the discharge-close at most the prior charge, the priors
    being the two vectors the stage receives (the Stage 1 schedules for
    Stage 2, the combined vectors of Stage 2 for Stage 3). *)
Theorem C5_closing_legality (k : market) (n_cycles energy_cap power_cap : Q)
    (price prior_cha prior_dis : list Q) (m : ConcreteModel) (a : assignment)
    (q : nat) :
  build_model (stage_of k) n_cycles energy_cap power_cap price
    prior_cha prior_dis = Ok m ->
  feasible a m = true ->
  (1 <= q <= 96)%nat ->
  a (cha_close_of k) q <= prior prior_dis q
  /\ a (dis_close_of k) q <= prior prior_cha q.
Proof.
  intros HB HF Hq. destruct k; simpl in HB.
  - pose proof (Step2_sound _ _ _ _ _ _ _ _ HB HF) as S.
    pose proof (s23_quarters _ _ _ _ _ _ _ _ S).
    split; [apply (s23_cha_close _ _ _ _ _ _ _ _ S)
           | apply (s23_dis_close _ _ _ _ _ _ _ _ S)]; lia.
  - pose proof (Step3_sound _ _ _ _ _ _ _ _ HB HF) as S.
    pose proof (s23_quarters _ _ _ _ _ _ _ _ S).
    split; [apply (s23_cha_close _ _ _ _ _ _ _ _ S)
           | apply (s23_dis_close _ _ _ _ _ _ _ _ S)]; lia.
Qed.

Lemma C5_witness :
  reshaped (cha_close_of Auction) 8%nat <= prior block_cycle_dis 8
  /\ reshaped (dis_close_of Auction) 8%nat <= prior block_cycle_cha 8.
Proof.
  apply (C5_closing_legality Auction 1 4 4 two_hour_prices block_cycle_cha
           block_cycle_dis
           (model_of (Step2.build_model 1 4 4 two_hour_prices
                        block_cycle_cha block_cycle_dis))).
  - vm_compute. reflexivity.
  - vm_compute. reflexivity.
  - lia.
Defined.

(** ** The cascade stays within [0,1] *)

Lemma prior_nth (v : list Q) (i : nat) : prior v (i + 1) = nth i v 0.
Proof. unfold prior. f_equal. lia. Qed.

(** The combined vectors of a later stage, under the closing-legality,
    combined-rate and bound constraints only. *)
Lemma solved_unit_interval (k : market) (power_cap : Q)
    (price prior_cha prior_dis : list Q) (a : assignment) :
  List.length prior_cha = List.length price ->
  List.length prior_dis = List.length price ->
  (forall x q, In x (trade_vars (stage_of k)) ->
               (1 <= q <= List.length price)%nat -> 0 <= a x q <= 1) ->
  (forall q, (1 <= q <= List.length price)%nat ->
             a (cha_close_of k) q <= prior prior_dis q
             /\ a (dis_close_of k) q <= prior prior_cha q
             /\ a (cha_of (stage_of k)) q + prior prior_cha q <= 1
             /\ a (dis_of (stage_of k)) q + prior prior_dis q <= 1) ->
  Forall unit_interval
    (res_cha_combined (solved k power_cap price prior_cha prior_dis a))
  /\ Forall unit_interval
       (res_dis_combined (solved k power_cap price prior_cha prior_dis a)).
Proof.
  intros Hc Hd Hb Hl.
  cbn [solved res_cha_combined res_dis_combined].
  split; apply Forall_nth; intros i d Hi; rewrite (nth_indep _ d 0 Hi);
    rewrite !zip_with_length in Hi by lens;
    rewrite !zip_with_nth by lens; rewrite !day_nth by lia;
    rewrite <- !prior_nth;
    assert (Hq : (1 <= i + 1 <= List.length price)%nat) by lia;
    destruct (Hl _ Hq) as (H1 & H2 & H3 & H4); unfold unit_interval.
  - assert (0 <= a (dis_close_of k) (i + 1)%nat <= 1)
      by (apply Hb; [destruct k; simpl; auto | exact Hq]).
    assert (0 <= a (cha_of (stage_of k)) (i + 1)%nat <= 1)
      by (apply Hb; [destruct k; simpl; auto | exact Hq]).
    lra.
  - assert (0 <= a (cha_close_of k) (i + 1)%nat <= 1)
      by (apply Hb; [destruct k; simpl; auto | exact Hq]).
    assert (0 <= a (dis_of (stage_of k)) (i + 1)%nat <= 1)
      by (apply Hb; [destruct k; simpl; auto | exact Hq]).
    lra.
Qed.

(** C10.  For prior vectors in [0,1]^96 and values that satisfy the
    bounds of the variables, the closing-legality and the combined-rate
    constraints of the Stage 2 (or Stage 3) model, the two combined
    vectors the stage returns have 96 entries, all in [0,1]: the output
    meets what the next stage assumes of its input. *)
Theorem C10_combined_in_unit_interval (k : market)
    (n_cycles energy_cap power_cap : Q) (price prior_cha prior_dis : list Q)
    (solver : ConcreteModel -> option assignment)
    (m : ConcreteModel) (a : assignment) :
  List.length price = 96%nat ->
  List.length prior_cha = 96%nat -> Forall unit_interval prior_cha ->
  List.length prior_dis = 96%nat -> Forall unit_interval prior_dis ->
  build_model (stage_of k) n_cycles energy_cap power_cap price
    prior_cha prior_dis = Ok m ->
  solver m = Some a ->
  bounds_hold a m = true ->
  forallb (holds a) (component "cha_close_logic" (constraints m)) = true ->
  forallb (holds a) (component "dis_close_logic" (constraints m)) = true ->
  forallb (holds a) (component "charge_rate_limit" (constraints m)) = true ->
  forallb (holds a) (component "discharge_rate_limit" (constraints m)) = true ->
  exists r,
    optimize k n_cycles energy_cap power_cap price prior_cha prior_dis solver
    = Ok r
    /\ List.length (res_cha_combined r) = 96%nat
    /\ Forall unit_interval (res_cha_combined r)
    /\ List.length (res_dis_combined r) = 96%nat
    /\ Forall unit_interval (res_dis_combined r).
Proof.
  intros Hlen Hc _ Hd _ HB Hs Hb F1 F2 F3 F4.
  exists (solved k power_cap price prior_cha prior_dis a).
  assert (Hc' : List.length prior_cha = List.length price) by congruence.
  assert (Hd' : List.length prior_dis = List.length price) by congruence.
  destruct (solved_unit_interval k power_cap price prior_cha prior_dis a Hc' Hd')
    as (U1 & U2).
  - intros x q Hx Hq. destruct k; simpl in HB, Hx.
    + now apply (Step2_unit_bounds _ _ _ _ _ _ _ _ HB x q Hb).
    + now apply (Step3_unit_bounds _ _ _ _ _ _ _ _ HB x q Hb).
  - intros q Hq. destruct k; simpl in HB; cbn [cha_close_of dis_close_of cha_of dis_of stage_of].
    + repeat split.
      * now apply (Step2_cha_close_logic _ _ _ _ _ _ _ _ HB).
      * now apply (Step2_dis_close_logic _ _ _ _ _ _ _ _ HB).
      * now apply (Step2_charge_rate_limit _ _ _ _ _ _ _ _ HB).
      * now apply (Step2_discharge_rate_limit _ _ _ _ _ _ _ _ HB).
    + repeat split.
      * now apply (Step3_cha_close_logic _ _ _ _ _ _ _ _ HB).
      * now apply (Step3_dis_close_logic _ _ _ _ _ _ _ _ HB).
      * now apply (Step3_charge_rate_limit _ _ _ _ _ _ _ _ HB).
      * now apply (Step3_discharge_rate_limit _ _ _ _ _ _ _ _ HB).
  - repeat split; try assumption.
    + destruct k; simpl in HB |- *.
      * now apply (Step2_result _ _ _ _ _ _ _ m).
      * now apply (Step3_result _ _ _ _ _ _ _ m).
    + cbn [solved res_cha_combined]. lens.
    + cbn [solved res_dis_combined]. lens.
Qed.

Lemma C10_witness :
  exists r,
    optimize Auction 1 4 4 two_hour_prices block_cycle_cha block_cycle_dis
      (fun _ => Some reshaped) = Ok r
    /\ List.length (res_cha_combined r) = 96%nat
    /\ Forall unit_interval (res_cha_combined r)
    /\ List.length (res_dis_combined r) = 96%nat
    /\ Forall unit_interval (res_dis_combined r).
Proof.
  apply (C10_combined_in_unit_interval Auction 1 4 4 two_hour_prices
           block_cycle_cha block_cycle_dis (fun _ => Some reshaped)
           (model_of (Step2.build_model 1 4 4 two_hour_prices
                        block_cycle_cha block_cycle_dis))
           reshaped).
  - reflexivity.
  - reflexivity.
  - unfold block_cycle_cha; simpl; units.
  - reflexivity.
  - unfold block_cycle_dis; simpl; units.
  - vm_compute. reflexivity.
  - reflexivity.
  - vm_compute. reflexivity.
  - vm_compute. reflexivity.
  - vm_compute. reflexivity.
  - vm_compute. reflexivity.
  - vm_compute. reflexivity.
Defined.

(** ** Degenerate capacities *)

(** C6, as stated, fails.  With a negative energy capacity the all-zero
    assignment is not feasible (the initial state of charge 0 exceeds the
    capacity); with a zero power capacity a feasible solution may charge
    at full rate in every quarter. *)
Lemma C6_counterexample :
  (let m := model_of (Step1.build_model 1 (-1) 1 two_hour_prices) in
   Step1.build_model 1 (-1) 1 two_hour_prices = Ok m
   /\ feasible idle m = false)
  /\ (let m := model_of (Step1.build_model 1 1 0 two_hour_prices) in
      Step1.build_model 1 1 0 two_hour_prices = Ok m
      /\ feasible phantom m = true
      /\ phantom cha_daa 1%nat == 1).
Proof.
  cbv zeta. repeat split; vm_compute; reflexivity.
Qed.

(** With a positive power capacity and an empty cycle budget, a feasible
    solution of the Stage 1 model trades nothing and keeps the battery
    empty. *)
Lemma Step1_no_budget (n_cycles energy_cap power_cap : Q) (a : assignment) :
  0 < power_cap -> energy_cap * n_cycles == 0 ->
  Step1_constraints n_cycles energy_cap power_cap a ->
  (forall q, (1 <= q <= 96)%nat -> a cha_daa q == 0 /\ a dis_daa q == 0)
  /\ (forall q, (1 <= q <= 97)%nat -> a soc q == 0).
Proof.
  intros Hp Hv [Hc Hd _ _ Hfst _ Hstep Hcc Hdc _ _ _].
  assert (Hzero : forall x,
             (forall q, (1 <= q <= 96)%nat -> 0 <= a x q <= 1) ->
             sum_Q (map (fun q => a x q * power_cap / 4) (RangeSet 1 96))
             <= energy_cap * n_cycles ->
             forall q, (1 <= q <= 96)%nat -> a x q == 0).
  { intros x Hb Hsum q Hq.
    assert (Hterm : a x q * power_cap / 4
                    <= sum_Q (map (fun q => a x q * power_cap / 4)
                                  (RangeSet 1 96))).
    { apply sum_Q_member_le.
      - intros y Hy. apply in_map_iff in Hy as (q' & <- & Hq').
        apply RangeSet_In in Hq'. destruct (Hb q' Hq') as [H0 _].
        assert (0 <= a x q' * power_cap) by (apply Qmult_le_0_compat; lra).
        cbv beta. rewrite quarter. lra.
      - apply in_map_iff. exists q. split; [reflexivity|].
        apply RangeSet_In. lia. }
    destruct (Hb q Hq) as [H0 _].
    destruct (Qlt_le_dec 0 (a x q)) as [Hpos|Hneg]; [|lra].
    assert (0 < a x q * power_cap) by (apply Qmult_lt_0_compat; assumption).
    rewrite quarter in Hterm. lra. }
  assert (Hcha := Hzero cha_daa Hc Hcc).
  assert (Hdis := Hzero dis_daa Hd Hdc).
  split; [intros q Hq; split; auto|].
  intros q Hq.
  assert (Hind : forall j, (j <= 96)%nat -> a soc (j + 1)%nat == 0).
  { induction j as [|j IH]; intros Hj; [exact Hfst|].
    replace (S j + 1)%nat with (j + 1 + 1)%nat by lia.
    rewrite (Hstep (j + 1)%nat) by lia.
    rewrite (Hcha (j + 1)%nat), (Hdis (j + 1)%nat) by lia.
    rewrite IH by lia. ring. }
  replace q with (q - 1 + 1)%nat by lia. apply Hind. lia.
Qed.

(** C6, amended.  For a positive power capacity, a non-negative energy
    capacity and an empty cycle budget ([energy_cap * n_cycles = 0], in
    particular [n_cycles = 0] with positive capacities), the Stage 1 model
    admits the all-zero assignment, every feasible solution has all charge
    and discharge values and all states of charge equal to 0, and the
    stage run on a feasible solution returns all-zero schedules and a
    profit of 0. *)
Theorem C6_no_budget_no_trade (n_cycles energy_cap power_cap : Q)
    (price : list Q) :
  0 < power_cap -> 0 <= energy_cap -> energy_cap * n_cycles == 0 ->
  List.length price = 96%nat ->
  exists m,
    Step1.build_model n_cycles energy_cap power_cap price = Ok m
    /\ feasible idle m = true
    /\ (forall a, feasible a m = true ->
          (forall q, (1 <= q <= 96)%nat -> a cha_daa q == 0 /\ a dis_daa q == 0)
          /\ (forall q, (1 <= q <= 97)%nat -> a soc q == 0))
    /\ (forall solver a, solver m = Some a -> feasible a m = true ->
          exists r,
            Step1.step1_optimize_daa n_cycles energy_cap power_cap price solver
            = Ok r
            /\ Forall (fun x => x == 0) (res1_cha r)
            /\ Forall (fun x => x == 0) (res1_dis r)
            /\ Forall (fun x => x == 0) (res1_soc r)
            /\ res1_profit r == 0).
Proof.
  intros Hp He Hv Hlen.
  destruct (Step1_build_total n_cycles energy_cap power_cap price) as (m & HB);
    [lia|].
  exists m. split; [exact HB|]. split; [|split].
  - apply (Step1_complete _ _ _ _ _ _ HB).
    constructor; unfold idle; intros; try lra; try reflexivity.
    + rewrite sum_Q_zero; [lra|].
      intros x Hx. apply in_map_iff in Hx as (q & <- & _). field.
    + rewrite sum_Q_zero; [lra|].
      intros x Hx. apply in_map_iff in Hx as (q & <- & _). field.
  - intros a HF. apply (Step1_no_budget n_cycles energy_cap power_cap a Hp Hv).
    now apply (Step1_sound _ _ _ _ _ _ HB).
  - intros solver a Hs HF.
    destruct (Step1_no_budget n_cycles energy_cap power_cap a Hp Hv
                (Step1_sound _ _ _ _ _ _ HB HF)) as (Htrade & Hsoc).
    exists (solved1 power_cap price a).
    split; [now apply (Step1_result _ _ _ _ _ m)|].
    cbn [solved1 res1_cha res1_dis res1_soc res1_profit]. rewrite Hlen.
    repeat split.
    + apply Forall_forall. intros x Hx. apply day_In in Hx as (q & Hq & ->).
      now apply Htrade.
    + apply Forall_forall. intros x Hx. apply day_In in Hx as (q & Hq & ->).
      now apply Htrade.
    + apply Forall_forall. intros x Hx. apply day_In in Hx as (q & Hq & ->).
      apply Hsoc. lia.
    + apply sum_Q_zero. intros x Hx.
      apply in_map_iff in Hx as (q & <- & Hq). apply range_In in Hq.
      rewrite !day_nth by lia.
      destruct (Htrade (q + 1)%nat) as (-> & ->); [lia|]. ring.
Qed.

Lemma C6_witness :
  exists m,
    Step1.build_model 0 4 4 two_hour_prices = Ok m
    /\ feasible idle m = true
    /\ (forall a, feasible a m = true ->
          (forall q, (1 <= q <= 96)%nat -> a cha_daa q == 0 /\ a dis_daa q == 0)
          /\ (forall q, (1 <= q <= 97)%nat -> a soc q == 0))
    /\ (forall solver a, solver m = Some a -> feasible a m = true ->
          exists r,
            Step1.step1_optimize_daa 0 4 4 two_hour_prices solver = Ok r
            /\ Forall (fun x => x == 0) (res1_cha r)
            /\ Forall (fun x => x == 0) (res1_dis r)
            /\ Forall (fun x => x == 0) (res1_soc r)
            /\ res1_profit r == 0).
Proof.
  apply (C6_no_budget_no_trade 0 4 4 two_hour_prices).
  - reflexivity.
  - discriminate.
  - reflexivity.
  - reflexivity.
Defined.

(** ** Values outside the bounds *)

(** C9, as stated, fails: no stage clamps.  When the solver loads a
    charge of [1 + 1e-9] for the first quarter, Stage 1 returns that value
    as the first entry of its charge schedule. *)
Lemma C9_counterexample :
  Step1.step1_optimize_daa 1 4 4 two_hour_prices (fun _ => Some noisy)
  = Ok (solved1 4 two_hour_prices noisy)
  /\ nth 0 (res1_cha (solved1 4 two_hour_prices noisy)) 0
     == 1 + (1 # 1000000000)
  /\ ~ unit_interval (nth 0 (res1_cha (solved1 4 two_hour_prices noisy)) 0).
Proof.
  split; [vm_compute; reflexivity|].
  split; [vm_compute; reflexivity|].
  intros [_ H]. vm_compute in H. apply H. reflexivity.
Qed.

(** C9, amended.  For a day of 96 quarters (and prior vectors of 96
    entries), whatever values the solver loads, each stage returns and
    raises no error, and its charge, discharge and closing vectors are the
    raw values of the solver, quarter by quarter, unchanged. *)
Theorem C9_raw_values_returned (s : stage) (n_cycles energy_cap power_cap : Q)
    (price prior_cha prior_dis : list Q)
    (solver : ConcreteModel -> option assignment)
    (m : ConcreteModel) (a : assignment) :
  List.length price = 96%nat ->
  List.length prior_cha = 96%nat ->
  List.length prior_dis = 96%nat ->
  build_model s n_cycles energy_cap power_cap price prior_cha prior_dis = Ok m ->
  solver m = Some a ->
  returned s n_cycles energy_cap power_cap price prior_cha prior_dis solver
  = Ok (map (fun x => (x, day a x 96)) (trade_vars s)).
Proof.
  intros Hlen Hc Hd HB Hs. destruct s; simpl in HB; unfold returned.
  - rewrite (Step1_result _ _ _ _ _ m a HB Hs Hlen).
    cbn [bind solved1 res1_cha res1_dis trade_vars map]. now rewrite Hlen.
  - rewrite (Step2_result _ _ _ _ _ _ _ m a HB Hs) by congruence.
    cbn [bind solved res_cha res_dis res_cha_close res_dis_close trade_vars
         map stage_of cha_of dis_of cha_close_of dis_close_of].
    now rewrite Hlen.
  - rewrite (Step3_result _ _ _ _ _ _ _ m a HB Hs) by congruence.
    cbn [bind solved res_cha res_dis res_cha_close res_dis_close trade_vars
         map stage_of cha_of dis_of cha_close_of dis_close_of].
    now rewrite Hlen.
Qed.

Lemma C9_witness :
  returned DAA 1 4 4 two_hour_prices (repeat 0 96) (repeat 0 96)
    (fun _ => Some noisy)
  = Ok (map (fun x => (x, day noisy x 96)) (trade_vars DAA)).
Proof.
  apply (C9_raw_values_returned DAA 1 4 4 two_hour_prices
           (repeat 0 96) (repeat 0 96) (fun _ => Some noisy)
           (model_of (Step1.build_model 1 4 4 two_hour_prices)) noisy).
  - reflexivity.
  - reflexivity.
  - reflexivity.
  - vm_compute. reflexivity.
  - reflexivity.
Defined.

(** ** Prior vectors that break the contract *)

(** A prior entry outside [0,1] leaves no feasible solution: the prior
    either exceeds the combined rate or lies below a closing trade that
    cannot be negative. *)
Lemma prior_outside_infeasible (k : market) (n_cycles energy_cap power_cap : Q)
    (n : nat) (prior_cha prior_dis : list Q) (a : assignment) (q : nat) :
  Step23_constraints k n_cycles energy_cap power_cap n prior_cha prior_dis a ->
  (1 <= q <= n)%nat ->
  unit_interval (prior prior_cha q) /\ unit_interval (prior prior_dis q).
Proof.
  intros S Hq.
  pose proof (s23_cha_bounds _ _ _ _ _ _ _ _ S q Hq).
  pose proof (s23_dis_bounds _ _ _ _ _ _ _ _ S q Hq).
  pose proof (s23_cha_close_bounds _ _ _ _ _ _ _ _ S q Hq).
  pose proof (s23_dis_close_bounds _ _ _ _ _ _ _ _ S q Hq).
  pose proof (s23_cha_close _ _ _ _ _ _ _ _ S q Hq).
  pose proof (s23_dis_close _ _ _ _ _ _ _ _ S q Hq).
  pose proof (s23_cha_rate _ _ _ _ _ _ _ _ S q Hq).
  pose proof (s23_dis_rate _ _ _ _ _ _ _ _ S q Hq).
  unfold unit_interval. split; lra.
Qed.

(** C8, as stated, fails: the stages do not check their prior vectors.
    With a prior charge of 2 in the first quarter, Stage 2 builds the
    model, consults the solver and returns; with prior vectors of 97
    entries, Stage 3 fails only after the solver ran, with an exception
    that depends on what the solver loaded. *)
Lemma C8_counterexample :
  ~ unit_interval (nth 0 overbooked 0)
  /\ optimize Auction 1 4 4 two_hour_prices overbooked (repeat 0 96)
       (fun _ => Some idle)
     = Ok (solved Auction 4 two_hour_prices overbooked (repeat 0 96) idle)
  /\ ~ reports_immediately
         (optimize Auction 1 4 4 two_hour_prices overbooked (repeat 0 96))
  /\ List.length (repeat 0 97) <> 96%nat
  /\ ~ reports_immediately
         (optimize Continuous 1 4 4 two_hour_prices (repeat 0 97) (repeat 0 97)).
Proof.
  assert (E : optimize Auction 1 4 4 two_hour_prices overbooked (repeat 0 96)
                (fun _ => Some idle)
              = Ok (solved Auction 4 two_hour_prices overbooked (repeat 0 96) idle))
    by (vm_compute; reflexivity).
  split; [|split; [|split; [|split]]].
  - intros [_ H]. vm_compute in H. apply H. reflexivity.
  - exact E.
  - intros (e & He). rewrite He in E. discriminate.
  - vm_compute. discriminate.
  - intros (e & He).
    pose proof (He (fun _ => Some idle)) as H1.
    pose proof (He (fun _ => None)) as H2.
    vm_compute in H1, H2. congruence.
Qed.

(** C8, amended.  Stage 2 and Stage 3 do not validate their prior vectors.
    For a day of 96 quarters, a prior vector with fewer than 96 entries
    stops the construction of the model with an [IndexError], whatever the
    solver; when both prior vectors have at least 96 entries and one of
    the first 96 entries lies outside [0,1], the model is built and has no
    feasible solution, and if the solver then loads no value the stage
    fails with a [TypeError] raised while it post-processes. *)
Theorem C8_no_validation (k : market) (n_cycles energy_cap power_cap : Q)
    (price prior_cha prior_dis : list Q) :
  List.length price = 96%nat ->
  ((List.length prior_cha < 96 \/ List.length prior_dis < 96)%nat ->
   forall solver,
     optimize k n_cycles energy_cap power_cap price prior_cha prior_dis solver
     = Raise IndexError)
  /\ ((96 <= List.length prior_cha)%nat -> (96 <= List.length prior_dis)%nat ->
      (exists q, (1 <= q <= 96)%nat
                 /\ (~ unit_interval (prior prior_cha q)
                     \/ ~ unit_interval (prior prior_dis q))) ->
      exists m,
        build_model (stage_of k) n_cycles energy_cap power_cap price
          prior_cha prior_dis = Ok m
        /\ (forall a, feasible a m = false)
        /\ (forall solver, solver m = None ->
              optimize k n_cycles energy_cap power_cap price
                prior_cha prior_dis solver = Raise TypeError)).
Proof.
  intros Hlen. split.
  - intros Hshort solver. destruct k; simpl.
    + unfold Step2.step2_optimize_ida.
      rewrite Step2_build_short by (rewrite Hlen; lia). reflexivity.
    + unfold Step3.step3_optimize_idc.
      rewrite Step3_build_short by (rewrite Hlen; lia). reflexivity.
  - intros Hc Hd (q & Hq & Hout). destruct k; simpl.
    + destruct (Step2_build_total n_cycles energy_cap power_cap price
                  prior_cha prior_dis) as (m & HB); try lia.
      exists m. split; [exact HB|]. split.
      * intros a. destruct (feasible a m) eqn:HF; [exfalso|reflexivity].
        pose proof (Step2_sound _ _ _ _ _ _ _ _ HB HF) as S.
        destruct (prior_outside_infeasible _ _ _ _ _ _ _ _ q S); [lia|].
        tauto.
      * intros solver Hs. now apply (Step2_no_values _ _ _ _ _ _ _ m).
    + destruct (Step3_build_total n_cycles energy_cap power_cap price
                  prior_cha prior_dis) as (m & HB); try lia.
      exists m. split; [exact HB|]. split.
      * intros a. destruct (feasible a m) eqn:HF; [exfalso|reflexivity].
        pose proof (Step3_sound _ _ _ _ _ _ _ _ HB HF) as S.
        destruct (prior_outside_infeasible _ _ _ _ _ _ _ _ q S); [lia|].
        tauto.
      * intros solver Hs. now apply (Step3_no_values _ _ _ _ _ _ _ m).
Qed.

Lemma C8_witness :
  (forall solver,
     optimize Auction 1 4 4 two_hour_prices (repeat 0 95) overbooked solver
     = Raise IndexError)
  /\ (exists m,
        build_model (stage_of Auction) 1 4 4 two_hour_prices
          overbooked (repeat 0 96) = Ok m
        /\ (forall a, feasible a m = false)
        /\ (forall solver, solver m = None ->
              optimize Auction 1 4 4 two_hour_prices
                overbooked (repeat 0 96) solver = Raise TypeError)).
Proof.
  split.
  - apply (proj1 (C8_no_validation Auction 1 4 4 two_hour_prices
                    (repeat 0 95) overbooked eq_refl)).
    left. vm_compute. lia.
  - apply (proj2 (C8_no_validation Auction 1 4 4 two_hour_prices
                    overbooked (repeat 0 96) eq_refl)).
    + vm_compute. lia.
    + vm_compute. lia.
    + exists 1%nat. split; [lia|]. left.
      intros [_ H]. vm_compute in H. apply H. reflexivity.
Defined.

(** ** Stage 3 builds the model of Stage 2 *)

Lemma eval_rename (a : assignment) (e : expr) :
  eval a (rename_expr e) = eval (as_ida a) e.
Proof.
  induction e as [c|x q|e1 IH1 e2 IH2|e1 IH1 e2 IH2|e1 IH1 e2 IH2|e1 IH1 c];
    simpl; try reflexivity; now rewrite ?IH1, ?IH2.
Qed.

Lemma holds_rename (a : assignment) (c : constraint) :
  holds a (rename_constraint c) = holds (as_ida a) c.
Proof.
  unfold holds, rename_constraint. simpl. rewrite !eval_rename. reflexivity.
Qed.

Lemma forallb_holds_rename (a : assignment) (cs : list constraint) :
  forallb (holds a) (map rename_constraint cs) = forallb (holds (as_ida a)) cs.
Proof.
  induction cs as [|c cs IH]; [reflexivity|].
  simpl. now rewrite holds_rename, IH.
Qed.

Lemma within_bounds_rename (a : assignment) (v : Var) :
  within_bounds a (rename_Var v) = within_bounds (as_ida a) v.
Proof. reflexivity. Qed.

Lemma rename_fold_Add (es : list expr) (e0 : expr) :
  rename_expr (fold_left Add es e0)
  = fold_left Add (map rename_expr es) (rename_expr e0).
Proof.
  revert e0; induction es as [|e es IH]; intros e0; [reflexivity|].
  simpl. now rewrite IH.
Qed.

Lemma rename_sum_expr (es : list expr) :
  rename_expr (sum_expr es) = sum_expr (map rename_expr es).
Proof. apply rename_fold_Add. Qed.

Lemma for_each_rmap {A B : Type} (f2 f3 : A -> result B) (g : B -> B)
    (l : list A) :
  (forall x, f3 x = rmap g (f2 x)) ->
  for_each f3 l = rmap (map g) (for_each f2 l).
Proof.
  intros Hf. induction l as [|x l IH]; [reflexivity|].
  simpl. rewrite Hf, IH.
  destruct (f2 x); [|reflexivity]. simpl.
  destruct (for_each f2 l); reflexivity.
Qed.

Lemma getvar_rename (v : Var) (q : nat) :
  getvar (rename_Var v) q = rmap rename_expr (getvar v q).
Proof.
  unfold getvar. simpl. destruct (existsb (Nat.eqb q) (var_index v)); reflexivity.
Qed.

Section Twin.

Variables n_cycles energy_cap power_cap : Q.
Variables price prior_cha prior_dis : list Q.

(** The variables of Stage 3 are those of Stage 2 under their new names. *)
Lemma Step3_vars :
  Step3.model_soc price = rename_Var (Step2.model_soc price)
  /\ Step3.model_cha_idc price = rename_Var (Step2.model_cha_ida price)
  /\ Step3.model_dis_idc price = rename_Var (Step2.model_dis_ida price)
  /\ Step3.model_cha_idc_close price = rename_Var (Step2.model_cha_ida_close price)
  /\ Step3.model_dis_idc_close price = rename_Var (Step2.model_dis_ida_close price).
Proof. repeat split. Qed.

(** Each rule of Stage 3 gives the renamed constraint of its twin. *)
Ltac twin_rule :=
  intros q;
  destruct Step3_vars as (E1 & E2 & E3 & E4 & E5);
  rewrite ?E1, ?E2, ?E3, ?E4, ?E5; clear E1 E2 E3 E4 E5;
  rewrite ?getvar_rename;
  repeat match goal with
         | |- context [getvar ?v ?i] => destruct (getvar v i); cbn [bind rmap]
         end;
  try reflexivity;
  repeat match goal with
         | |- context [getitem ?v ?i] => destruct (getitem v i); cbn [bind rmap]
         end;
  reflexivity.

Lemma twin_set_maximum_soc :
  forall q, Step3.set_maximum_soc energy_cap price q
            = rmap rename_constraint (Step2.set_maximum_soc energy_cap price q).
Proof. unfold Step3.set_maximum_soc, Step2.set_maximum_soc. twin_rule. Qed.

Lemma twin_set_minimum_soc :
  forall q, Step3.set_minimum_soc price q
            = rmap rename_constraint (Step2.set_minimum_soc price q).
Proof. unfold Step3.set_minimum_soc, Step2.set_minimum_soc. twin_rule. Qed.

Lemma twin_soc_step_constraint :
  forall q, Step3.soc_step_constraint power_cap price prior_cha prior_dis q
            = rmap rename_constraint
                (Step2.soc_step_constraint power_cap price prior_cha prior_dis q).
Proof. unfold Step3.soc_step_constraint, Step2.soc_step_constraint. twin_rule. Qed.

Lemma twin_cha_close_logic :
  forall q, Step3.cha_close_logic price prior_dis q
            = rmap rename_constraint (Step2.cha_close_logic price prior_dis q).
Proof. unfold Step3.cha_close_logic, Step2.cha_close_logic. twin_rule. Qed.

Lemma twin_dis_close_logic :
  forall q, Step3.dis_close_logic price prior_cha q
            = rmap rename_constraint (Step2.dis_close_logic price prior_cha q).
Proof. unfold Step3.dis_close_logic, Step2.dis_close_logic. twin_rule. Qed.

Lemma twin_charge_rate_limit :
  forall q, Step3.charge_rate_limit price prior_cha q
            = rmap rename_constraint (Step2.charge_rate_limit price prior_cha q).
Proof. unfold Step3.charge_rate_limit, Step2.charge_rate_limit. twin_rule. Qed.

Lemma twin_discharge_rate_limit :
  forall q, Step3.discharge_rate_limit price prior_dis q
            = rmap rename_constraint (Step2.discharge_rate_limit price prior_dis q).
Proof. unfold Step3.discharge_rate_limit, Step2.discharge_rate_limit. twin_rule. Qed.

Lemma twin_set_first_soc_to_0 :
  Step3.set_first_soc_to_0 price
  = rmap rename_constraint (Step2.set_first_soc_to_0 price).
Proof.
  unfold Step3.set_first_soc_to_0, Step2.set_first_soc_to_0.
  generalize 1%nat. twin_rule.
Qed.

Lemma twin_set_last_soc_to_0 :
  Step3.set_last_soc_to_0 price
  = rmap rename_constraint (Step2.set_last_soc_to_0 price).
Proof.
  unfold Step3.set_last_soc_to_0, Step2.set_last_soc_to_0.
  generalize 97%nat. twin_rule.
Qed.

Lemma twin_objective :
  Step3.objective power_cap price
  = rmap rename_expr (Step2.objective power_cap price).
Proof.
  unfold Step3.objective, Step2.objective.
  change (Step3.model_Q price) with (Step2.model_Q price).
  rewrite (for_each_rmap
             (fun q => p <- getitem price (q - 1) ;;
                       d <- getvar (Step2.model_dis_ida price) q ;;
                       dc <- getvar (Step2.model_dis_ida_close price) q ;;
                       c <- getvar (Step2.model_cha_ida price) q ;;
                       cc <- getvar (Step2.model_cha_ida_close price) q ;;
                       Ok (Num (p * power_cap / 4) * (d + dc - c - cc))%expr)
             _ rename_expr).
  - destruct (for_each _ (Step2.model_Q price)) as [ts|e]; [|reflexivity].
    cbn [bind rmap]. now rewrite rename_sum_expr.
  - intros q. destruct (getitem price (q - 1)); [|reflexivity]. cbn [bind].
    revert q. twin_rule.
Qed.

(** The cycle-budget rule Stage 3 calls [charge_cycle_limit] is the
    renamed [discharge_cycle_limit] of Stage 2, and conversely. *)
Lemma twin_cycle (s : Q) (v w : Var) :
  (ts <- for_each (getvar (rename_Var v)) (Step2.model_Q price) ;;
   us <- for_each (getvar (rename_Var w)) (Step2.model_Q price) ;;
   Ok ((Num s + sum_expr ts - sum_expr us) * Num power_cap / 4
       [<=] Num (energy_cap * n_cycles)))
  = rmap rename_constraint
      (ts <- for_each (getvar v) (Step2.model_Q price) ;;
       us <- for_each (getvar w) (Step2.model_Q price) ;;
       Ok ((Num s + sum_expr ts - sum_expr us) * Num power_cap / 4
           [<=] Num (energy_cap * n_cycles))).
Proof.
  rewrite (for_each_rmap (getvar v) (getvar (rename_Var v)) rename_expr)
    by apply getvar_rename.
  rewrite (for_each_rmap (getvar w) (getvar (rename_Var w)) rename_expr)
    by apply getvar_rename.
  destruct (for_each (getvar v) _) as [ts|e]; [|reflexivity].
  destruct (for_each (getvar w) _) as [us|e]; [|reflexivity].
  cbn [bind rmap]. unfold rename_constraint. simpl.
  now rewrite !rename_sum_expr.
Qed.

Lemma twin_charge_cycle_limit :
  Step3.charge_cycle_limit n_cycles energy_cap power_cap price prior_dis
  = rmap rename_constraint
      (Step2.discharge_cycle_limit n_cycles energy_cap power_cap price prior_dis).
Proof.
  exact (twin_cycle (sum_Q prior_dis) (Step2.model_dis_ida price)
           (Step2.model_cha_ida_close price)).
Qed.

Lemma twin_discharge_cycle_limit :
  Step3.discharge_cycle_limit n_cycles energy_cap power_cap price prior_cha
  = rmap rename_constraint
      (Step2.charge_cycle_limit n_cycles energy_cap power_cap price prior_cha).
Proof.
  exact (twin_cycle (sum_Q prior_cha) (Step2.model_cha_ida price)
           (Step2.model_dis_ida_close price)).
Qed.

(** The two cycle-budget rules never raise. *)
Lemma Step2_charge_cycle_limit_Ok :
  exists c,
    Step2.charge_cycle_limit n_cycles energy_cap power_cap price prior_cha = Ok c.
Proof.
  unfold Step2.charge_cycle_limit.
  rewrite !for_each_getvar_id by (intros q Hq; exact Hq). now eexists.
Qed.

Lemma Step2_discharge_cycle_limit_Ok :
  exists c,
    Step2.discharge_cycle_limit n_cycles energy_cap power_cap price prior_dis
    = Ok c.
Proof.
  unfold Step2.discharge_cycle_limit.
  rewrite !for_each_getvar_id by (intros q Hq; exact Hq). now eexists.
Qed.

End Twin.

Lemma Constraint_twin (index : list nat) (r2 r3 : nat -> result constraint) :
  (forall q, r3 q = rmap rename_constraint (r2 q)) ->
  Constraint index r3 = rmap (map rename_constraint) (Constraint index r2).
Proof. apply for_each_rmap. Qed.

Lemma Constraint1_twin (r2 r3 : result constraint) :
  r3 = rmap rename_constraint r2 ->
  Constraint1 r3 = rmap (map rename_constraint) (Constraint1 r2).
Proof. intros ->. destruct r2; reflexivity. Qed.

Lemma andb_swap (x y z : bool) : x && (y && z) = y && (x && z).
Proof. destruct x, y, z; reflexivity. Qed.

(** C7.  For identical inputs Stage 3 builds the model of Stage 2 under
    the names of its own variables: either both constructions raise the
    same exception, or both models are built, an assignment is feasible
    for the one exactly when it is for the other, the objectives are the
    same expression, and the constraint components correspond one to one,
    the component Stage 3 calls [charge_cycle_limit] being the
    [discharge_cycle_limit] of Stage 2 and conversely, so that the pair of
    cycle-budget constraints is the same conjunction. *)
Theorem C7_stage3_builds_stage2_model (n_cycles energy_cap power_cap : Q)
    (price prior_cha prior_dis : list Q) :
  match Step2.build_model n_cycles energy_cap power_cap price prior_cha prior_dis,
        Step3.build_model n_cycles energy_cap power_cap price prior_cha prior_dis
  with
  | Ok m2, Ok m3 =>
      (forall a, feasible a m3 = feasible (as_ida a) m2)
      /\ obj m3 = rename_expr (obj m2)
      /\ (forall a, eval a (obj m3) = eval (as_ida a) (obj m2))
      /\ variables m3 = map rename_Var (variables m2)
      /\ (forall name,
            component name (constraints m3)
            = map rename_constraint (component (twin name) (constraints m2)))
  | Raise e2, Raise e3 => e2 = e3
  | _, _ => False
  end.
Proof.
  unfold Step3.build_model.
  change (Step3.model_Q price) with (Step2.model_Q price).
  change (Step3.model_Q_plus_1 price) with (Step2.model_Q_plus_1 price).
  rewrite (Constraint_twin _ _ _ (twin_set_maximum_soc energy_cap price)).
  rewrite (Constraint_twin _ _ _ (twin_set_minimum_soc price)).
  rewrite (Constraint1_twin _ _ (twin_set_first_soc_to_0 price)).
  rewrite (Constraint1_twin _ _ (twin_set_last_soc_to_0 price)).
  rewrite (Constraint_twin _ _ _
             (twin_soc_step_constraint power_cap price prior_cha prior_dis)).
  rewrite (Constraint1_twin _ _
             (twin_charge_cycle_limit n_cycles energy_cap power_cap price prior_dis)).
  rewrite (Constraint1_twin _ _
             (twin_discharge_cycle_limit n_cycles energy_cap power_cap price prior_cha)).
  rewrite (Constraint_twin _ _ _ (twin_cha_close_logic price prior_dis)).
  rewrite (Constraint_twin _ _ _ (twin_dis_close_logic price prior_cha)).
  rewrite (Constraint_twin _ _ _ (twin_charge_rate_limit price prior_cha)).
  rewrite (Constraint_twin _ _ _ (twin_discharge_rate_limit price prior_dis)).
  rewrite twin_objective.
  unfold Step2.build_model.
  destruct (Step2_charge_cycle_limit_Ok n_cycles energy_cap power_cap price
              prior_cha) as (k6 & ->).
  destruct (Step2_discharge_cycle_limit_Ok n_cycles energy_cap power_cap price
              prior_dis) as (k7 & ->).
  destruct (Constraint _ (Step2.set_maximum_soc _ _)) as [c1|e];
    [cbn [bind rmap Constraint1 map] | cbn [bind rmap]; reflexivity].
  destruct (Constraint _ (Step2.set_minimum_soc _)) as [c2|e];
    [cbn [bind rmap Constraint1 map] | cbn [bind rmap]; reflexivity].
  destruct (Constraint1 (Step2.set_first_soc_to_0 _)) as [c3|e];
    [cbn [bind rmap Constraint1 map] | cbn [bind rmap]; reflexivity].
  destruct (Constraint1 (Step2.set_last_soc_to_0 _)) as [c4|e];
    [cbn [bind rmap Constraint1 map] | cbn [bind rmap]; reflexivity].
  destruct (Constraint _ (Step2.soc_step_constraint _ _ _ _)) as [c5|e];
    [cbn [bind rmap Constraint1 map] | cbn [bind rmap]; reflexivity].
  destruct (Constraint _ (Step2.cha_close_logic _ _)) as [c8|e];
    [cbn [bind rmap Constraint1 map] | cbn [bind rmap]; reflexivity].
  destruct (Constraint _ (Step2.dis_close_logic _ _)) as [c9|e];
    [cbn [bind rmap Constraint1 map] | cbn [bind rmap]; reflexivity].
  destruct (Constraint _ (Step2.charge_rate_limit _ _)) as [c10|e];
    [cbn [bind rmap Constraint1 map] | cbn [bind rmap]; reflexivity].
  destruct (Constraint _ (Step2.discharge_rate_limit _ _)) as [c11|e];
    [cbn [bind rmap Constraint1 map] | cbn [bind rmap]; reflexivity].
  destruct (Step2.objective _ _) as [o|e]; [cbn [bind rmap Constraint1 map] | cbn [bind rmap]; reflexivity].
  split; [|split; [|split; [|split]]].
  - intros a. unfold feasible, bounds_hold.
    cbn [variables constraints forallb component_holds snd map].
    rewrite !forallb_holds_rename. cbn [forallb]. rewrite !holds_rename.
    f_equal. do 5 f_equal.
    rewrite andb_true_r. rewrite (andb_true_r (holds (as_ida a) k6)).
    apply andb_swap.
  - reflexivity.
  - intros a. apply eval_rename.
  - reflexivity.
  - intros name. unfold twin.
    destruct (String.eqb_spec "charge_cycle_limit" name) as [<-|N1];
      [reflexivity|].
    destruct (String.eqb_spec "discharge_cycle_limit" name) as [<-|N2];
      [reflexivity|].
    cbn [constraints component].
    apply String.eqb_neq in N1, N2. rewrite N1, N2.
    destruct (String.eqb "set_maximum_soc" name); [reflexivity|].
    destruct (String.eqb "set_minimum_soc" name); [reflexivity|].
    destruct (String.eqb "set_first_soc_to_0" name); [reflexivity|].
    destruct (String.eqb "set_last_soc_to_0" name); [reflexivity|].
    destruct (String.eqb "soc_step_constraint" name); [reflexivity|].
    destruct (String.eqb "cha_close_logic" name); [reflexivity|].
    destruct (String.eqb "dis_close_logic" name); [reflexivity|].
    destruct (String.eqb "charge_rate_limit" name); [reflexivity|].
    destruct (String.eqb "discharge_rate_limit" name); reflexivity.
Qed.

(** ** Stage 2: the constraints make a feasible solution *)

Lemma Step2_complete (n_cycles energy_cap power_cap : Q)
    (price prior_cha prior_dis : list Q) (m : ConcreteModel) (a : assignment) :
  Step2.build_model n_cycles energy_cap power_cap price prior_cha prior_dis
  = Ok m ->
  Step23_constraints Auction n_cycles energy_cap power_cap (List.length price)
    prior_cha prior_dis a ->
  feasible a m = true.
Proof.
  intros HB [H96 Hlc Hld Hc Hd Hcc Hdc Hmax Hmin Hfst Hlst Hstep Hcyc Hdcyc
             Hcl Hdl Hcr Hdr].
  cbn [stage_of cha_of dis_of cha_close_of dis_close_of] in *.
  pose proof HB as E. unfold Step2.build_model in E. binds_only E.
  injection E as E. rewrite <- E.
  unfold feasible, bounds_hold.
  cbn [variables constraints forallb component_holds snd].
  rewrite !andb_true_iff.
  repeat match goal with |- _ /\ _ => split end;
    try match goal with |- true = true => reflexivity end.
  - exact (within_bounds_Reals _ _ _).
  - apply (within_bounds_Unit a cha_ida). intros q Hq. apply Hc.
    now apply RangeSet_In in Hq.
  - apply (within_bounds_Unit a dis_ida). intros q Hq. apply Hd.
    now apply RangeSet_In in Hq.
  - apply (within_bounds_Unit a cha_ida_close). intros q Hq. apply Hcc.
    now apply RangeSet_In in Hq.
  - apply (within_bounds_Unit a dis_ida_close). intros q Hq. apply Hdc.
    now apply RangeSet_In in Hq.
  - apply (Constraint_complete a _ _ _ Ec). intros q k Hq.
    apply RangeSet_In in Hq. unfold Step2.set_maximum_soc. refs.
    intros [= <-]. apply holds_le. now apply Hmax.
  - apply (Constraint_complete a _ _ _ Ec0). intros q k Hq.
    apply RangeSet_In in Hq. unfold Step2.set_minimum_soc. refs.
    intros [= <-]. apply holds_ge. now apply Hmin.
  - apply (Constraint1_complete a _ _ Ec1). intros k.
    unfold Step2.set_first_soc_to_0. refs.
    intros [= <-]. now apply holds_eq.
  - apply (Constraint1_complete a _ _ Ec2). intros k.
    unfold Step2.set_last_soc_to_0. refs.
    intros [= <-]. now apply holds_eq.
  - apply (Constraint_complete a _ _ _ Ec3). intros q k Hq.
    apply RangeSet_In in Hq. unfold Step2.soc_step_constraint. refs.
    rewrite (Step2_prior_cha _ _ _ _ _ _ _ HB q Hq),
            (Step2_prior_dis _ _ _ _ _ _ _ HB q Hq). cbn [bind].
    intros [= <-]. apply holds_eq. now apply Hstep.
  - apply (Constraint1_complete a _ _ Ec4). intros k Hk.
    unfold Step2.charge_cycle_limit in Hk.
    apply bind_Ok in Hk as (ts & Hts & Hk).
    apply bind_Ok in Hk as (us & Hus & Hk). injection Hk as <-.
    apply holds_le. simpl eval.
    rewrite (Step2_cycle_terms price a (Step2.model_cha_ida price) ts eq_refl Hts).
    rewrite (Step2_cycle_terms price a (Step2.model_dis_ida_close price) us eq_refl Hus).
    exact Hcyc.
  - apply (Constraint1_complete a _ _ Ec5). intros k Hk.
    unfold Step2.discharge_cycle_limit in Hk.
    apply bind_Ok in Hk as (ts & Hts & Hk).
    apply bind_Ok in Hk as (us & Hus & Hk). injection Hk as <-.
    apply holds_le. simpl eval.
    rewrite (Step2_cycle_terms price a (Step2.model_dis_ida price) ts eq_refl Hts).
    rewrite (Step2_cycle_terms price a (Step2.model_cha_ida_close price) us eq_refl Hus).
    exact Hdcyc.
  - apply (Constraint_complete a _ _ _ Ec6). intros q k Hq.
    apply RangeSet_In in Hq. unfold Step2.cha_close_logic. refs.
    rewrite (Step2_prior_dis _ _ _ _ _ _ _ HB q Hq). cbn [bind].
    intros [= <-]. apply holds_le. now apply Hcl.
  - apply (Constraint_complete a _ _ _ Ec7). intros q k Hq.
    apply RangeSet_In in Hq. unfold Step2.dis_close_logic. refs.
    rewrite (Step2_prior_cha _ _ _ _ _ _ _ HB q Hq). cbn [bind].
    intros [= <-]. apply holds_le. now apply Hdl.
  - apply (Constraint_complete a _ _ _ Ec8). intros q k Hq.
    apply RangeSet_In in Hq. unfold Step2.charge_rate_limit. refs.
    rewrite (Step2_prior_cha _ _ _ _ _ _ _ HB q Hq). cbn [bind].
    intros [= <-]. apply holds_le. now apply Hcr.
  - apply (Constraint_complete a _ _ _ Ec9). intros q k Hq.
    apply RangeSet_In in Hq. unfold Step2.discharge_rate_limit. refs.
    rewrite (Step2_prior_dis _ _ _ _ _ _ _ HB q Hq). cbn [bind].
    intros [= <-]. apply holds_le. now apply Hdr.
Qed.

(** ** Stage 3: the constraints make a feasible solution *)

Lemma Step3_complete (n_cycles energy_cap power_cap : Q)
    (price prior_cha prior_dis : list Q) (m : ConcreteModel) (a : assignment) :
  Step3.build_model n_cycles energy_cap power_cap price prior_cha prior_dis
  = Ok m ->
  Step23_constraints Continuous n_cycles energy_cap power_cap (List.length price)
    prior_cha prior_dis a ->
  feasible a m = true.
Proof.
  intros HB [H96 Hlc Hld Hc Hd Hcc Hdc Hmax Hmin Hfst Hlst Hstep Hcyc Hdcyc
             Hcl Hdl Hcr Hdr].
  cbn [stage_of cha_of dis_of cha_close_of dis_close_of] in *.
  pose proof HB as E. unfold Step3.build_model in E. binds_only E.
  injection E as E. rewrite <- E.
  unfold feasible, bounds_hold.
  cbn [variables constraints forallb component_holds snd].
  rewrite !andb_true_iff.
  repeat match goal with |- _ /\ _ => split end;
    try match goal with |- true = true => reflexivity end.
  - exact (within_bounds_Reals _ _ _).
  - apply (within_bounds_Unit a cha_idc). intros q Hq. apply Hc.
    now apply RangeSet_In in Hq.
  - apply (within_bounds_Unit a dis_idc). intros q Hq. apply Hd.
    now apply RangeSet_In in Hq.
  - apply (within_bounds_Unit a cha_idc_close). intros q Hq. apply Hcc.
    now apply RangeSet_In in Hq.
  - apply (within_bounds_Unit a dis_idc_close). intros q Hq. apply Hdc.
    now apply RangeSet_In in Hq.
  - apply (Constraint_complete a _ _ _ Ec). intros q k Hq.
    apply RangeSet_In in Hq. unfold Step3.set_maximum_soc. refs.
    intros [= <-]. apply holds_le. now apply Hmax.
  - apply (Constraint_complete a _ _ _ Ec0). intros q k Hq.
    apply RangeSet_In in Hq. unfold Step3.set_minimum_soc. refs.
    intros [= <-]. apply holds_ge. now apply Hmin.
  - apply (Constraint1_complete a _ _ Ec1). intros k.
    unfold Step3.set_first_soc_to_0. refs.
    intros [= <-]. now apply holds_eq.
  - apply (Constraint1_complete a _ _ Ec2). intros k.
    unfold Step3.set_last_soc_to_0. refs.
    intros [= <-]. now apply holds_eq.
  - apply (Constraint_complete a _ _ _ Ec3). intros q k Hq.
    apply RangeSet_In in Hq. unfold Step3.soc_step_constraint. refs.
    rewrite (Step3_prior_cha _ _ _ _ _ _ _ HB q Hq),
            (Step3_prior_dis _ _ _ _ _ _ _ HB q Hq). cbn [bind].
    intros [= <-]. apply holds_eq. now apply Hstep.
  - apply (Constraint1_complete a _ _ Ec4). intros k Hk.
    unfold Step3.charge_cycle_limit in Hk.
    apply bind_Ok in Hk as (ts & Hts & Hk).
    apply bind_Ok in Hk as (us & Hus & Hk). injection Hk as <-.
    apply holds_le. simpl eval.
    rewrite (Step3_cycle_terms price a (Step3.model_dis_idc price) ts eq_refl Hts).
    rewrite (Step3_cycle_terms price a (Step3.model_cha_idc_close price) us eq_refl Hus).
    exact Hdcyc.
  - apply (Constraint1_complete a _ _ Ec5). intros k Hk.
    unfold Step3.discharge_cycle_limit in Hk.
    apply bind_Ok in Hk as (ts & Hts & Hk).
    apply bind_Ok in Hk as (us & Hus & Hk). injection Hk as <-.
    apply holds_le. simpl eval.
    rewrite (Step3_cycle_terms price a (Step3.model_cha_idc price) ts eq_refl Hts).
    rewrite (Step3_cycle_terms price a (Step3.model_dis_idc_close price) us eq_refl Hus).
    exact Hcyc.
  - apply (Constraint_complete a _ _ _ Ec6). intros q k Hq.
    apply RangeSet_In in Hq. unfold Step3.cha_close_logic. refs.
    rewrite (Step3_prior_dis _ _ _ _ _ _ _ HB q Hq). cbn [bind].
    intros [= <-]. apply holds_le. now apply Hcl.
  - apply (Constraint_complete a _ _ _ Ec7). intros q k Hq.
    apply RangeSet_In in Hq. unfold Step3.dis_close_logic. refs.
    rewrite (Step3_prior_cha _ _ _ _ _ _ _ HB q Hq). cbn [bind].
    intros [= <-]. apply holds_le. now apply Hdl.
  - apply (Constraint_complete a _ _ _ Ec8). intros q k Hq.
    apply RangeSet_In in Hq. unfold Step3.charge_rate_limit. refs.
    rewrite (Step3_prior_cha _ _ _ _ _ _ _ HB q Hq). cbn [bind].
    intros [= <-]. apply holds_le. now apply Hcr.
  - apply (Constraint_complete a _ _ _ Ec9). intros q k Hq.
    apply RangeSet_In in Hq. unfold Step3.discharge_rate_limit. refs.
    rewrite (Step3_prior_dis _ _ _ _ _ _ _ HB q Hq). cbn [bind].
    intros [= <-]. apply holds_le. now apply Hdr.
Qed.

(** * Further properties of the stages *)

(** ** Sums over the quarters *)

Lemma sum_Q_ext {A : Type} (f g : A -> Q) (l : list A) :
  (forall x, In x l -> f x == g x) -> sum_Q (map f l) == sum_Q (map g l).
Proof.
  induction l as [|x l IH]; intros H; [reflexivity|].
  simpl map. rewrite !sum_Q_cons, (H x (or_introl eq_refl)), IH; [reflexivity|].
  intros y Hy. apply H. now right.
Qed.

Lemma sum_Q_map_minus {A : Type} (f g : A -> Q) (l : list A) :
  sum_Q (map (fun x => f x - g x) l) == sum_Q (map f l) - sum_Q (map g l).
Proof.
  induction l as [|x l IH]; [reflexivity|].
  simpl map. rewrite !sum_Q_cons, IH. ring.
Qed.

Lemma sum_Q_map_plus {A : Type} (f g : A -> Q) (l : list A) :
  sum_Q (map (fun x => f x + g x) l) == sum_Q (map f l) + sum_Q (map g l).
Proof.
  induction l as [|x l IH]; [reflexivity|].
  simpl map. rewrite !sum_Q_cons, IH. ring.
Qed.

Lemma sum_Q_map_zero {A : Type} (l : list A) : sum_Q (map (fun _ => 0) l) == 0.
Proof.
  apply sum_Q_zero. intros x Hx. apply in_map_iff in Hx as (y & <- & _).
  reflexivity.
Qed.

Lemma sum_Q_snoc (l : list Q) (x : Q) : sum_Q (l ++ [x]) == sum_Q l + x.
Proof.
  induction l as [|y l IH]; simpl app.
  - rewrite sum_Q_cons. unfold sum_Q; simpl. ring.
  - rewrite !sum_Q_cons, IH. ring.
Qed.

Lemma RangeSet_snoc (q : nat) : RangeSet 1 (S q) = RangeSet 1 q ++ [S q].
Proof.
  unfold RangeSet.
  replace (S q + 1 - 1)%nat with (S q) by lia.
  replace (q + 1 - 1)%nat with q by lia.
  now rewrite seq_S.
Qed.

(** A vector is the list of its entries over the quarters. *)
Lemma list_as_day (l : list Q) :
  l = map (prior l) (RangeSet 1 (List.length l)).
Proof.
  apply (nth_ext _ _ 0 (prior l 0)).
  - now rewrite length_map, RangeSet_length, Nat.add_sub.
  - intros i Hi.
    rewrite map_nth. unfold RangeSet. rewrite seq_nth by lia.
    unfold prior. f_equal. lia.
Qed.


(** ** The stages, uniformly *)

Lemma later_stage_sound (k : market) (n_cycles energy_cap power_cap : Q)
    (price prior_cha prior_dis : list Q) (m : ConcreteModel) (a : assignment) :
  build_model (stage_of k) n_cycles energy_cap power_cap price
    prior_cha prior_dis = Ok m ->
  feasible a m = true ->
  Step23_constraints k n_cycles energy_cap power_cap (List.length price)
    prior_cha prior_dis a.
Proof.
  intros HB HF. destruct k; simpl in HB.
  - exact (Step2_sound _ _ _ _ _ _ m a HB HF).
  - exact (Step3_sound _ _ _ _ _ _ m a HB HF).
Qed.

Lemma later_stage_complete (k : market) (n_cycles energy_cap power_cap : Q)
    (price prior_cha prior_dis : list Q) (m : ConcreteModel) (a : assignment) :
  build_model (stage_of k) n_cycles energy_cap power_cap price
    prior_cha prior_dis = Ok m ->
  Step23_constraints k n_cycles energy_cap power_cap (List.length price)
    prior_cha prior_dis a ->
  feasible a m = true.
Proof.
  intros HB S. destruct k; simpl in HB.
  - exact (Step2_complete _ _ _ _ _ _ m a HB S).
  - exact (Step3_complete _ _ _ _ _ _ m a HB S).
Qed.

Lemma later_stage_build_total (k : market) (n_cycles energy_cap power_cap : Q)
    (price prior_cha prior_dis : list Q) :
  (96 <= List.length price)%nat ->
  (List.length price <= List.length prior_cha)%nat ->
  (List.length price <= List.length prior_dis)%nat ->
  exists m,
    build_model (stage_of k) n_cycles energy_cap power_cap price
      prior_cha prior_dis = Ok m.
Proof.
  intros. destruct k; simpl.
  - now apply Step2_build_total.
  - now apply Step3_build_total.
Qed.

Lemma later_stage_result (k : market) (n_cycles energy_cap power_cap : Q)
    (price prior_cha prior_dis : list Q)
    (solver : ConcreteModel -> option assignment)
    (m : ConcreteModel) (a : assignment) :
  build_model (stage_of k) n_cycles energy_cap power_cap price
    prior_cha prior_dis = Ok m ->
  solver m = Some a ->
  List.length prior_cha = List.length price ->
  List.length prior_dis = List.length price ->
  optimize k n_cycles energy_cap power_cap price prior_cha prior_dis solver
  = Ok (solved k power_cap price prior_cha prior_dis a).
Proof.
  intros HB Hs Hc Hd. destruct k; simpl in HB |- *.
  - exact (Step2_result _ _ _ _ _ _ _ m a HB Hs Hc Hd).
  - exact (Step3_result _ _ _ _ _ _ _ m a HB Hs Hc Hd).
Qed.

(** The state of charge along a feasible solution of any stage. *)
Lemma stage_soc (s : stage) (n_cycles energy_cap power_cap : Q)
    (price prior_cha prior_dis : list Q) (m : ConcreteModel) (a : assignment) :
  build_model s n_cycles energy_cap power_cap price prior_cha prior_dis = Ok m ->
  feasible a m = true ->
  a soc 1%nat == 0 /\ a soc 97%nat == 0
  /\ (forall q, (1 <= q <= 97)%nat -> 0 <= a soc q <= energy_cap)
  /\ (forall q, (1 <= q <= 96)%nat ->
        a soc (q + 1)%nat
        == a soc q + power_cap / 4 * netflow s a prior_cha prior_dis q).
Proof.
  intros HB HF. destruct s; simpl in HB.
  - destruct (Step1_sound _ _ _ _ _ _ HB HF)
      as [_ _ Hmax Hmin Hfst Hlst Hstep _ _ _ _ _].
    repeat split; auto.
    intros q Hq. rewrite (Hstep q Hq). unfold netflow. ring.
  - destruct (Step2_sound _ _ _ _ _ _ _ _ HB HF)
      as [H96 _ _ _ _ _ _ Hmax Hmin Hfst Hlst Hstep _ _ _ _ _ _].
    repeat split; auto; try (apply Hmax; lia); try (apply Hmin; lia).
    intros q Hq. apply Hstep. lia.
  - destruct (Step3_sound _ _ _ _ _ _ _ _ HB HF)
      as [H96 _ _ _ _ _ _ Hmax Hmin Hfst Hlst Hstep _ _ _ _ _ _].
    repeat split; auto; try (apply Hmax; lia); try (apply Hmin; lia).
    intros q Hq. apply Hstep. lia.
Qed.

Lemma stage_cumulative (s : stage) (n_cycles energy_cap power_cap : Q)
    (price prior_cha prior_dis : list Q) (m : ConcreteModel) (a : assignment)
    (q : nat) :
  build_model s n_cycles energy_cap power_cap price prior_cha prior_dis = Ok m ->
  feasible a m = true ->
  (q <= 96)%nat ->
  a soc (q + 1)%nat
  == power_cap / 4 * sum_Q (map (netflow s a prior_cha prior_dis) (RangeSet 1 q)).
Proof.
  intros HB HF.
  destruct (stage_soc s _ _ _ _ _ _ m a HB HF) as (Hfst & _ & _ & Hstep).
  induction q as [|q IH]; intros Hq.
  - simpl. rewrite Hfst. unfold sum_Q; simpl. ring.
  - replace (S q + 1)%nat with (q + 1 + 1)%nat by lia.
    rewrite (Hstep (q + 1)%nat) by lia. rewrite IH by lia.
    rewrite RangeSet_snoc, map_app. cbn [map]. rewrite sum_Q_snoc.
    replace (q + 1)%nat with (S q) by lia. ring.
Qed.

(** ** State of charge *)

(** X1.  In every feasible solution of the model of any stage, the
    battery is empty at the first checkpoint and at checkpoint 97, and at
    each of the 97 checkpoints the state of charge lies between 0 and the
    energy capacity. *)
Theorem X1_soc_within_capacity (s : stage) (n_cycles energy_cap power_cap : Q)
    (price prior_cha prior_dis : list Q) (m : ConcreteModel) (a : assignment) :
  build_model s n_cycles energy_cap power_cap price prior_cha prior_dis = Ok m ->
  feasible a m = true ->
  a soc 1%nat == 0 /\ a soc 97%nat == 0
  /\ forall q, (1 <= q <= 97)%nat -> 0 <= a soc q <= energy_cap.
Proof.
  intros HB HF.
  destruct (stage_soc s _ _ _ _ _ _ m a HB HF) as (H1 & H97 & Hb & _).
  auto.
Qed.

Lemma X1_witness :
  reshaped soc 1%nat == 0 /\ reshaped soc 97%nat == 0
  /\ forall q, (1 <= q <= 97)%nat -> 0 <= reshaped soc q <= 4.
Proof.
  apply (X1_soc_within_capacity IDC 1 4 4 two_hour_prices block_cycle_cha
           block_cycle_dis
           (model_of (Step3.build_model 1 4 4 two_hour_prices
                        block_cycle_cha block_cycle_dis))).
  - vm_compute. reflexivity.
  - vm_compute. reflexivity.
Defined.

(** X2.  In every feasible solution of the model of any stage, the state
    of charge after quarter [q] is [power_cap / 4] times the net flow
    accumulated over the quarters 1 to [q]: the trades (and the prior
    position) determine the whole trajectory. *)
Theorem X2_soc_is_accumulated_flow (s : stage)
    (n_cycles energy_cap power_cap : Q)
    (price prior_cha prior_dis : list Q) (m : ConcreteModel) (a : assignment)
    (q : nat) :
  build_model s n_cycles energy_cap power_cap price prior_cha prior_dis = Ok m ->
  feasible a m = true ->
  (q <= 96)%nat ->
  a soc (q + 1)%nat
  == power_cap / 4 * sum_Q (map (netflow s a prior_cha prior_dis) (RangeSet 1 q)).
Proof. apply stage_cumulative. Qed.

Lemma X2_witness :
  reshaped soc (8 + 1)%nat
  == 4 / 4 * sum_Q (map (netflow IDA reshaped block_cycle_cha block_cycle_dis)
                        (RangeSet 1 8)).
Proof.
  apply (X2_soc_is_accumulated_flow IDA 1 4 4 two_hour_prices block_cycle_cha
           block_cycle_dis
           (model_of (Step2.build_model 1 4 4 two_hour_prices
                        block_cycle_cha block_cycle_dis))
           reshaped 8%nat).
  - vm_compute. reflexivity.
  - vm_compute. reflexivity.
  - lia.
Defined.

(** ** Power and energy over the day *)

(** X3.  In every feasible solution of the Stage 2 or Stage 3 model, the
    new charge of a quarter is at least 0 and at most what the prior
    charge leaves of the power capacity, and likewise the new discharge;
    the closing trades are at least 0. *)
Theorem X3_new_trades_fit_remaining_power (k : market)
    (n_cycles energy_cap power_cap : Q)
    (price prior_cha prior_dis : list Q) (m : ConcreteModel) (a : assignment)
    (q : nat) :
  build_model (stage_of k) n_cycles energy_cap power_cap price
    prior_cha prior_dis = Ok m ->
  feasible a m = true ->
  (1 <= q <= 96)%nat ->
  0 <= a (cha_of (stage_of k)) q <= 1 - prior prior_cha q
  /\ 0 <= a (dis_of (stage_of k)) q <= 1 - prior prior_dis q
  /\ 0 <= a (cha_close_of k) q
  /\ 0 <= a (dis_close_of k) q.
Proof.
  intros HB HF Hq.
  pose proof (later_stage_sound k _ _ _ _ _ _ m a HB HF) as S.
  pose proof (s23_quarters _ _ _ _ _ _ _ _ S) as H96.
  assert (Hq' : (1 <= q <= List.length price)%nat) by lia.
  pose proof (s23_cha_bounds _ _ _ _ _ _ _ _ S q Hq').
  pose proof (s23_dis_bounds _ _ _ _ _ _ _ _ S q Hq').
  pose proof (s23_cha_close_bounds _ _ _ _ _ _ _ _ S q Hq').
  pose proof (s23_dis_close_bounds _ _ _ _ _ _ _ _ S q Hq').
  pose proof (s23_cha_rate _ _ _ _ _ _ _ _ S q Hq').
  pose proof (s23_dis_rate _ _ _ _ _ _ _ _ S q Hq').
  repeat split; lra.
Qed.

Lemma X3_witness :
  0 <= reshaped (cha_of (stage_of Auction)) 9%nat <= 1 - prior block_cycle_cha 9
  /\ 0 <= reshaped (dis_of (stage_of Auction)) 9%nat
          <= 1 - prior block_cycle_dis 9
  /\ 0 <= reshaped (cha_close_of Auction) 9%nat
  /\ 0 <= reshaped (dis_close_of Auction) 9%nat.
Proof.
  apply (X3_new_trades_fit_remaining_power Auction 1 4 4 two_hour_prices
           block_cycle_cha block_cycle_dis
           (model_of (Step2.build_model 1 4 4 two_hour_prices
                        block_cycle_cha block_cycle_dis))).
  - vm_compute. reflexivity.
  - vm_compute. reflexivity.
  - lia.
Defined.

Lemma netflow_day_zero (s : stage) (n_cycles energy_cap power_cap : Q)
    (price prior_cha prior_dis : list Q) (m : ConcreteModel) (a : assignment) :
  build_model s n_cycles energy_cap power_cap price prior_cha prior_dis = Ok m ->
  feasible a m = true ->
  ~ power_cap == 0 ->
  sum_Q (map (netflow s a prior_cha prior_dis) (RangeSet 1 96)) == 0.
Proof.
  intros HB HF Hp.
  pose proof (stage_cumulative s _ _ _ _ _ _ m a 96 HB HF (le_n _)) as H.
  destruct (stage_soc s _ _ _ _ _ _ m a HB HF) as (_ & H97 & _).
  change (96 + 1)%nat with 97%nat in H. rewrite H97 in H.
  symmetry in H. rewrite quarter in H.
  apply Qmult_integral in H as [H|H]; [|exact H].
  apply Qmult_integral in H as [H|H]; [contradiction | discriminate].
Qed.

(** X4.  With a power capacity other than 0, every feasible solution of
    the Stage 1 model charges over the day exactly as much as it
    discharges. *)
Theorem X4_day_ahead_energy_neutral (n_cycles energy_cap power_cap : Q)
    (price : list Q) (m : ConcreteModel) (a : assignment) :
  Step1.build_model n_cycles energy_cap power_cap price = Ok m ->
  feasible a m = true ->
  ~ power_cap == 0 ->
  sum_Q (day a cha_daa 96) == sum_Q (day a dis_daa 96).
Proof.
  intros HB HF Hp.
  pose proof (netflow_day_zero DAA n_cycles energy_cap power_cap price [] []
                m a HB HF Hp) as H.
  unfold netflow in H. rewrite sum_Q_map_minus in H.
  unfold day. lra.
Qed.

Lemma X4_witness :
  sum_Q (day front_loaded cha_daa 96) == sum_Q (day front_loaded dis_daa 96).
Proof.
  apply (X4_day_ahead_energy_neutral 1 1 4 two_hour_prices
           (model_of (Step1.build_model 1 1 4 two_hour_prices))).
  - vm_compute. reflexivity.
  - vm_compute. reflexivity.
  - discriminate.
Defined.

(** X5.  With a positive power capacity, in every feasible solution of
    the Stage 1 model the discharges of the quarters 1 to [q] never exceed
    the charges of these quarters, and the energy charged in excess of
    them never exceeds the energy capacity. *)
Theorem X5_day_ahead_discharges_stored_energy
    (n_cycles energy_cap power_cap : Q)
    (price : list Q) (m : ConcreteModel) (a : assignment) (q : nat) :
  Step1.build_model n_cycles energy_cap power_cap price = Ok m ->
  feasible a m = true ->
  0 < power_cap ->
  (q <= 96)%nat ->
  sum_Q (day a dis_daa q) <= sum_Q (day a cha_daa q)
  /\ power_cap / 4 * (sum_Q (day a cha_daa q) - sum_Q (day a dis_daa q))
     <= energy_cap.
Proof.
  intros HB HF Hp Hq.
  pose proof (stage_cumulative DAA n_cycles energy_cap power_cap price [] []
                m a q HB HF Hq) as H.
  destruct (stage_soc DAA _ _ _ _ [] [] m a HB HF) as (_ & _ & Hb & _).
  destruct (Hb (q + 1)%nat) as [H0 H1]; [lia|].
  unfold netflow in H. rewrite sum_Q_map_minus in H.
  unfold day. rewrite H in H0, H1.
  split; [|exact H1].
  set (d := sum_Q (map (a cha_daa) (RangeSet 1 q))
            - sum_Q (map (a dis_daa) (RangeSet 1 q))) in *.
  destruct (Qlt_le_dec d 0) as [Hneg|Hpos]; [|unfold d in Hpos; lra].
  exfalso. rewrite quarter in H0.
  assert (0 < power_cap * (1 # 4)) by lra.
  assert (0 < power_cap * (1 # 4) * - d) by (apply Qmult_lt_0_compat; lra).
  assert (power_cap * (1 # 4) * - d == - (power_cap * (1 # 4) * d)) as E by ring.
  rewrite E in *. lra.
Qed.

Lemma X5_witness :
  sum_Q (day front_loaded dis_daa 5) <= sum_Q (day front_loaded cha_daa 5)
  /\ 4 / 4 * (sum_Q (day front_loaded cha_daa 5)
              - sum_Q (day front_loaded dis_daa 5)) <= 1.
Proof.
  apply (X5_day_ahead_discharges_stored_energy 1 1 4 two_hour_prices
           (model_of (Step1.build_model 1 1 4 two_hour_prices))).
  - vm_compute. reflexivity.
  - vm_compute. reflexivity.
  - reflexivity.
  - lia.
Defined.




(** ** The profit a stage reports *)

Lemma seq_shift_1 (n : nat) : RangeSet 1 n = map S (range 0 n).
Proof.
  unfold RangeSet, range. rewrite seq_shift.
  now replace (n + 1 - 1)%nat with (n - 0)%nat by lia.
Qed.

(** The objective of the Stage 1 model, evaluated. *)
Lemma Step1_objective_value (n_cycles energy_cap power_cap : Q)
    (price : list Q) (m : ConcreteModel) (a : assignment) :
  Step1.build_model n_cycles energy_cap power_cap price = Ok m ->
  (96 <= List.length price)%nat ->
  eval a (obj m)
  = sum_Q (map (fun q => power_cap / 4 * prior price q
                         * (a dis_daa q - a cha_daa q)) (RangeSet 1 96)).
Proof.
  intros HB Hlen. pose proof HB as E. unfold Step1.build_model in E.
  binds_only E. injection E as E. rewrite <- E. cbn [obj].
  unfold Step1.objective in Ec12.
  apply bind_Ok in Ec12 as (ts & Hts & Ho). injection Ho as <-.
  rewrite (for_each_unique _
             (fun q => (Num (power_cap / 4 * prior price q)
                        * (Ref dis_daa q - Ref cha_daa q))%expr) _ _ Hts).
  - rewrite eval_sum_expr, map_map. reflexivity.
  - intros q Hq. apply RangeSet_In in Hq.
    rewrite getitem_Ok by lia. cbn [bind]. refs. reflexivity.
Qed.

(** X7.  When Stage 1 runs on 96 prices and the solver loads values, the
    profit it returns, recomputed from the returned schedules, is the
    value of the model's objective at these values. *)
Theorem X7_day_ahead_profit_is_objective (n_cycles energy_cap power_cap : Q)
    (price : list Q) (solver : ConcreteModel -> option assignment)
    (m : ConcreteModel) (a : assignment) :
  Step1.build_model n_cycles energy_cap power_cap price = Ok m ->
  solver m = Some a ->
  List.length price = 96%nat ->
  exists r,
    Step1.step1_optimize_daa n_cycles energy_cap power_cap price solver = Ok r
    /\ res1_profit r == eval a (obj m).
Proof.
  intros HB Hs Hlen. exists (solved1 power_cap price a).
  split; [exact (Step1_result _ _ _ _ _ m a HB Hs Hlen)|].
  rewrite (Step1_objective_value _ _ _ _ m a HB) by lia.
  cbn [solved1 res1_profit]. rewrite Hlen, seq_shift_1, map_map.
  apply sum_Q_ext. intros i Hi. apply range_In in Hi.
  rewrite !day_nth by lia.
  unfold prior. replace (S i - 1)%nat with i by lia.
  replace (i + 1)%nat with (S i) by lia. reflexivity.
Qed.

Lemma X7_witness :
  exists r,
    Step1.step1_optimize_daa 1 1 4 two_hour_prices (fun _ => Some front_loaded)
    = Ok r
    /\ res1_profit r
       == eval front_loaded
            (obj (model_of (Step1.build_model 1 1 4 two_hour_prices))).
Proof.
  apply (X7_day_ahead_profit_is_objective 1 1 4 two_hour_prices
           (fun _ => Some front_loaded)
           (model_of (Step1.build_model 1 1 4 two_hour_prices)) front_loaded).
  - vm_compute. reflexivity.
  - reflexivity.
  - reflexivity.
Defined.

(** The objective of the Stage 2 model, evaluated. *)
Lemma Step2_objective_value (n_cycles energy_cap power_cap : Q)
    (price prior_cha prior_dis : list Q) (m : ConcreteModel) (a : assignment) :
  Step2.build_model n_cycles energy_cap power_cap price prior_cha prior_dis
  = Ok m ->
  eval a (obj m)
  = sum_Q (map (fun q => prior price q * power_cap / 4
                         * (a dis_ida q + a dis_ida_close q
                            - a cha_ida q - a cha_ida_close q))
               (RangeSet 1 (List.length price))).
Proof.
  intros HB. pose proof HB as E. unfold Step2.build_model in E.
  binds_only E. injection E as E. rewrite <- E. cbn [obj].
  unfold Step2.objective in Ec10.
  apply bind_Ok in Ec10 as (ts & Hts & Ho). injection Ho as <-.
  rewrite (for_each_unique _
             (fun q => (Num (prior price q * power_cap / 4)
                        * (Ref dis_ida q + Ref dis_ida_close q
                           - Ref cha_ida q - Ref cha_ida_close q))%expr)
             _ _ Hts).
  - rewrite eval_sum_expr, map_map. reflexivity.
  - intros q Hq. apply RangeSet_In in Hq.
    rewrite getitem_Ok by lia. cbn [bind]. refs. reflexivity.
Qed.

(** The objective of the Stage 3 model, evaluated. *)
Lemma Step3_objective_value (n_cycles energy_cap power_cap : Q)
    (price prior_cha prior_dis : list Q) (m : ConcreteModel) (a : assignment) :
  Step3.build_model n_cycles energy_cap power_cap price prior_cha prior_dis
  = Ok m ->
  eval a (obj m)
  = sum_Q (map (fun q => prior price q * power_cap / 4
                         * (a dis_idc q + a dis_idc_close q
                            - a cha_idc q - a cha_idc_close q))
               (RangeSet 1 (List.length price))).
Proof.
  intros HB. pose proof HB as E. unfold Step3.build_model in E.
  binds_only E. injection E as E. rewrite <- E. cbn [obj].
  unfold Step3.objective in Ec10.
  apply bind_Ok in Ec10 as (ts & Hts & Ho). injection Ho as <-.
  rewrite (for_each_unique _
             (fun q => (Num (prior price q * power_cap / 4)
                        * (Ref dis_idc q + Ref dis_idc_close q
                           - Ref cha_idc q - Ref cha_idc_close q))%expr)
             _ _ Hts).
  - rewrite eval_sum_expr, map_map. reflexivity.
  - intros q Hq. apply RangeSet_In in Hq.
    rewrite getitem_Ok by lia. cbn [bind]. refs. reflexivity.
Qed.

Lemma later_stage_objective_value (k : market)
    (n_cycles energy_cap power_cap : Q)
    (price prior_cha prior_dis : list Q) (m : ConcreteModel) (a : assignment) :
  build_model (stage_of k) n_cycles energy_cap power_cap price
    prior_cha prior_dis = Ok m ->
  eval a (obj m)
  = sum_Q (map (fun q => prior price q * power_cap / 4
                         * (a (dis_of (stage_of k)) q + a (dis_close_of k) q
                            - a (cha_of (stage_of k)) q - a (cha_close_of k) q))
               (RangeSet 1 (List.length price))).
Proof.
  intros HB. destruct k; simpl in HB.
  - exact (Step2_objective_value _ _ _ _ _ _ m a HB).
  - exact (Step3_objective_value _ _ _ _ _ _ m a HB).
Qed.



(** ** How a stage ends *)

Lemma bind_skip {A B : Type} (r : result A) (k : A -> result B) (e : exn) :
  (exists a, r = Ok a) -> (forall a, k a = Raise e) -> bind r k = Raise e.
Proof. intros (a & ->) Hk. exact (Hk a). Qed.

Lemma bind_Raise {A B : Type} (r : result A) (k : A -> result B) (e : exn) :
  r = Raise e -> bind r k = Raise e.
Proof. now intros ->. Qed.

(** Walks down the first [n] binds of a build that raises later. *)
Ltac skip_chain n :=
  match n with
  | O => idtac
  | S ?n' => apply bind_skip; [ try rule_total | intros ?; skip_chain n' ]
  end.

Lemma values_KeyError (v : Var) (sol : option assignment) (qs : list nat) :
  (exists q, In q qs /\ ~ In q (var_index v)) ->
  values v sol qs = Raise KeyError.
Proof.
  intros (q & Hq & Hout). unfold values. apply for_each_Raise_only.
  - intros x _. unfold getvar.
    destruct (existsb (Nat.eqb x) (var_index v)); [left; now eexists | now right].
  - exists q. split; [exact Hq|]. now rewrite (getvar_not_In v q Hout).
Qed.

(** Fewer than 96 prices: the objective of Stage 1 reads a missing price. *)
Lemma Step1_build_short (n_cycles energy_cap power_cap : Q) (price : list Q) :
  (List.length price < 96)%nat ->
  Step1.build_model n_cycles energy_cap power_cap price = Raise IndexError.
Proof.
  intros Hlen. unfold Step1.build_model. skip_chain 13%nat.
  - reflexivity.
  - reflexivity.
  - unfold Step1.charge_cycle_limit.
    rewrite for_each_getvar by (intros q Hq; exact Hq). reflexivity.
  - unfold Step1.discharge_cycle_limit.
    rewrite for_each_getvar by (intros q Hq; exact Hq). reflexivity.
  - apply bind_Raise. unfold Step1.objective. apply bind_Raise.
    apply for_each_Raise_only.
    + intros q Hq. apply RangeSet_In in Hq. unfold getitem.
      destruct (nth_error price (q - 1)); [|now right].
      left. cbn [bind]. refs. now eexists.
    + exists (List.length price + 1)%nat. split; [apply RangeSet_In; lia|].
      rewrite getitem_Raise by lia. reflexivity.
Qed.

(** More than 96 prices: Stage 1 reads a variable outside its index set
    when it collects the values, after the solver ran. *)
Lemma Step1_long (n_cycles energy_cap power_cap : Q) (price : list Q)
    (solver : ConcreteModel -> option assignment) :
  (96 < List.length price)%nat ->
  Step1.step1_optimize_daa n_cycles energy_cap power_cap price solver
  = Raise KeyError.
Proof.
  intros Hlen.
  destruct (Step1_build_total n_cycles energy_cap power_cap price) as (m & HB);
    [lia|].
  unfold Step1.step1_optimize_daa. rewrite HB. cbn [bind].
  destruct (le_lt_dec 98 (List.length price)) as [H98|H97].
  - rewrite (values_KeyError Step1.model_soc); [reflexivity|].
    exists 98%nat. split; [apply range_In; lia|].
    intros Hin. apply RangeSet_In in Hin. lia.
  - rewrite (values_Ok Step1.model_soc)
      by (intros q Hq; apply range_In in Hq; apply RangeSet_In; lia).
    cbn [bind].
    rewrite (values_KeyError Step1.model_cha_daa); [reflexivity|].
    exists 97%nat. split; [apply range_In; lia|].
    intros Hin. apply RangeSet_In in Hin. lia.
Qed.

Lemma Step1_no_values (n_cycles energy_cap power_cap : Q) (price : list Q)
    (solver : ConcreteModel -> option assignment) (m : ConcreteModel) :
  Step1.build_model n_cycles energy_cap power_cap price = Ok m ->
  solver m = None ->
  List.length price = 96%nat ->
  Step1.step1_optimize_daa n_cycles energy_cap power_cap price solver
  = Raise TypeError.
Proof.
  intros HB Hs Hlen. unfold Step1.step1_optimize_daa.
  rewrite HB. cbn [bind]. rewrite Hs, range_RangeSet.
  rewrite !values_Ok
    by (intros q Hq; apply RangeSet_In in Hq; apply RangeSet_In; lia).
  cbn [bind option_map].
  rewrite numbers_None; [reflexivity|].
  rewrite Hlen. discriminate.
Qed.

(** X9.  Stage 1 returns only for a vector of exactly 96 prices and a
    solver that loaded values, and then returns the solver's values and
    the profit recomputed from them.  With fewer than 96 prices it raises
    an [IndexError] while it builds the objective, before the solver is
    called; with more than 96 it raises a [KeyError] after the solve,
    whatever the solver did; with 96 prices and no value loaded it raises
    a [TypeError]. *)
Theorem X9_day_ahead_outcome (n_cycles energy_cap power_cap : Q)
    (price : list Q) (solver : ConcreteModel -> option assignment) :
  Step1.step1_optimize_daa n_cycles energy_cap power_cap price solver
  = match Nat.compare (List.length price) 96 with
    | Lt => Raise IndexError
    | Gt => Raise KeyError
    | Eq =>
        match solver (model_of (Step1.build_model n_cycles energy_cap
                                  power_cap price)) with
        | Some a => Ok (solved1 power_cap price a)
        | None => Raise TypeError
        end
    end.
Proof.
  destruct (Nat.compare_spec (List.length price) 96) as [Heq|Hlt|Hgt].
  - destruct (Step1_build_total n_cycles energy_cap power_cap price)
      as (m & HB); [lia|].
    rewrite HB. cbn [model_of].
    destruct (solver m) as [a|] eqn:Hs.
    + exact (Step1_result _ _ _ _ _ m a HB Hs Heq).
    + exact (Step1_no_values _ _ _ _ _ m HB Hs Heq).
  - unfold Step1.step1_optimize_daa.
    now rewrite Step1_build_short.
  - now apply Step1_long.
Qed.

(** Fewer than 96 prices: checkpoint 97 is no index of [model.soc]. *)
Lemma Step2_build_KeyError (n_cycles energy_cap power_cap : Q)
    (price prior_cha prior_dis : list Q) :
  (List.length price < 96)%nat ->
  Step2.build_model n_cycles energy_cap power_cap price prior_cha prior_dis
  = Raise KeyError.
Proof.
  intros Hlen. unfold Step2.build_model.
  apply bind_skip; [rule_total | intros c1].
  apply bind_skip; [rule_total | intros c2].
  apply bind_skip; [rule_total; reflexivity | intros c3].
  apply bind_Raise. unfold Constraint1. apply bind_Raise.
  unfold Step2.set_last_soc_to_0.
  rewrite getvar_not_In; [reflexivity|].
  intros Hin. apply RangeSet_In in Hin. lia.
Qed.

(** Prior vectors longer than the price vector: NumPy cannot combine
    them with the values of the day. *)
Lemma Step2_long_prior (n_cycles energy_cap power_cap : Q)
    (price prior_cha prior_dis : list Q)
    (solver : ConcreteModel -> option assignment)
    (m : ConcreteModel) (a : assignment) :
  Step2.build_model n_cycles energy_cap power_cap price prior_cha prior_dis
  = Ok m ->
  solver m = Some a ->
  List.length prior_cha <> List.length price
  \/ List.length prior_dis <> List.length price ->
  Step2.step2_optimize_ida n_cycles energy_cap power_cap price prior_cha prior_dis solver
  = Raise ValueError.
Proof.
  intros HB Hs Hne.
  destruct (Step2_build_lengths _ _ _ _ _ _ _ HB) as (H96 & Hc & Hd).
  unfold Step2.step2_optimize_ida.
  rewrite HB. cbn [bind]. rewrite Hs, range_RangeSet.
  rewrite !values_Ok
    by (intros q Hq; apply RangeSet_In in Hq; apply RangeSet_In; lia).
  cbn [bind option_map].
  rewrite !(numbers_Some (fun q => a _ q)). cbn [bind].
  unfold Step2.profit.
  repeat (rewrite np_zip_same by lens; cbn [bind]).
  unfold Step2.combined.
  destruct (Nat.eq_dec (List.length prior_cha) (List.length price)) as [Ec|Ec].
  - repeat (rewrite np_zip_same by lens; cbn [bind]).
    rewrite np_zip_mismatch; [reflexivity | lia | lens | lens].
  - rewrite np_zip_mismatch; [reflexivity | lia | lens | lens].
Qed.

(** Fewer than 96 prices: checkpoint 97 is no index of [model.soc]. *)
Lemma Step3_build_KeyError (n_cycles energy_cap power_cap : Q)
    (price prior_cha prior_dis : list Q) :
  (List.length price < 96)%nat ->
  Step3.build_model n_cycles energy_cap power_cap price prior_cha prior_dis
  = Raise KeyError.
Proof.
  intros Hlen. unfold Step3.build_model.
  apply bind_skip; [rule_total | intros c1].
  apply bind_skip; [rule_total | intros c2].
  apply bind_skip; [rule_total; reflexivity | intros c3].
  apply bind_Raise. unfold Constraint1. apply bind_Raise.
  unfold Step3.set_last_soc_to_0.
  rewrite getvar_not_In; [reflexivity|].
  intros Hin. apply RangeSet_In in Hin. lia.
Qed.

(** Prior vectors longer than the price vector: NumPy cannot combine
    them with the values of the day. *)
Lemma Step3_long_prior (n_cycles energy_cap power_cap : Q)
    (price prior_cha prior_dis : list Q)
    (solver : ConcreteModel -> option assignment)
    (m : ConcreteModel) (a : assignment) :
  Step3.build_model n_cycles energy_cap power_cap price prior_cha prior_dis
  = Ok m ->
  solver m = Some a ->
  List.length prior_cha <> List.length price
  \/ List.length prior_dis <> List.length price ->
  Step3.step3_optimize_idc n_cycles energy_cap power_cap price prior_cha prior_dis solver
  = Raise ValueError.
Proof.
  intros HB Hs Hne.
  destruct (Step3_build_lengths _ _ _ _ _ _ _ HB) as (H96 & Hc & Hd).
  unfold Step3.step3_optimize_idc.
  rewrite HB. cbn [bind]. rewrite Hs, range_RangeSet.
  rewrite !values_Ok
    by (intros q Hq; apply RangeSet_In in Hq; apply RangeSet_In; lia).
  cbn [bind option_map].
  rewrite !(numbers_Some (fun q => a _ q)). cbn [bind].
  unfold Step3.profit.
  repeat (rewrite np_zip_same by lens; cbn [bind]).
  unfold Step3.combined.
  destruct (Nat.eq_dec (List.length prior_cha) (List.length price)) as [Ec|Ec].
  - repeat (rewrite np_zip_same by lens; cbn [bind]).
    rewrite np_zip_mismatch; [reflexivity | lia | lens | lens].
  - rewrite np_zip_mismatch; [reflexivity | lia | lens | lens].
Qed.

Lemma later_build_outcome (k : market)
    (n_cycles energy_cap power_cap : Q) (price prior_cha prior_dis : list Q) :
  match build_model (stage_of k) n_cycles energy_cap power_cap price
          prior_cha prior_dis with
  | Ok _ => build_outcome price prior_cha prior_dis = None
  | Raise e => build_outcome price prior_cha prior_dis = Some e
  end.
Proof.
  unfold build_outcome.
  destruct (Nat.ltb_spec (List.length price) 96) as [Hlt|Hge].
  - destruct k; simpl.
    + now rewrite Step2_build_KeyError.
    + now rewrite Step3_build_KeyError.
  - destruct (Nat.ltb_spec (List.length prior_cha) (List.length price))
      as [Hc|Hc]; cbn [orb].
    + destruct k; simpl.
      * rewrite Step2_build_short; [reflexivity | lia | now left].
      * rewrite Step3_build_short; [reflexivity | lia | now left].
    + destruct (Nat.ltb_spec (List.length prior_dis) (List.length price))
        as [Hd|Hd].
      * destruct k; simpl.
        -- rewrite Step2_build_short; [reflexivity | lia | now right].
        -- rewrite Step3_build_short; [reflexivity | lia | now right].
      * destruct (later_stage_build_total k n_cycles energy_cap power_cap
                    price prior_cha prior_dis Hge Hc Hd) as (m & ->).
        reflexivity.
Qed.

(** X10.  For a price vector of whole hours (a length that is a multiple
    of 4, so that [model.H], which the embedding leaves out, is a plain
    range), the construction of the Stage 2 or Stage 3 model succeeds
    exactly when the price vector has at least 96 entries and both prior
    vectors have at least as many entries as the price vector.  With fewer
    than 96 prices it raises a [KeyError] (checkpoint 97 does not exist),
    otherwise with a short prior vector an [IndexError]. *)
Theorem X10_later_build_outcome (k : market)
    (n_cycles energy_cap power_cap : Q) (price prior_cha prior_dis : list Q) :
  (List.length price mod 4 = 0)%nat ->
  match build_model (stage_of k) n_cycles energy_cap power_cap price
          prior_cha prior_dis with
  | Ok _ => build_outcome price prior_cha prior_dis = None
  | Raise e => build_outcome price prior_cha prior_dis = Some e
  end.
Proof. intros _. apply later_build_outcome. Qed.

Lemma X10_witness :
  match build_model (stage_of Continuous) 1 4 4 (repeat 0 92)
          block_cycle_cha block_cycle_dis with
  | Ok _ => build_outcome (repeat 0 92) block_cycle_cha block_cycle_dis = None
  | Raise e =>
      build_outcome (repeat 0 92) block_cycle_cha block_cycle_dis = Some e
  end.
Proof.
  apply (X10_later_build_outcome Continuous 1 4 4 (repeat 0 92)
           block_cycle_cha block_cycle_dis).
  reflexivity.
Defined.

(** A later stage is the construction of its model followed by
    [after_build]. *)
Lemma later_stage_run (k : market)
    (n_cycles energy_cap power_cap : Q) (price prior_cha prior_dis : list Q)
    (solver : ConcreteModel -> option assignment) :
  optimize k n_cycles energy_cap power_cap price prior_cha prior_dis solver
  = (m <- build_model (stage_of k) n_cycles energy_cap power_cap price
            prior_cha prior_dis ;;
     after_build k power_cap price prior_cha prior_dis solver m).
Proof.
  destruct (build_model (stage_of k) n_cycles energy_cap power_cap price
              prior_cha prior_dis) as [m|e] eqn:HB; cbn [bind].
  - unfold after_build. destruct (solver m) as [a|] eqn:Hs.
    + destruct (Nat.eqb_spec (List.length prior_cha) (List.length price))
        as [Hc|Hc]; cbn [andb].
      * destruct (Nat.eqb_spec (List.length prior_dis) (List.length price))
          as [Hd|Hd].
        -- exact (later_stage_result k _ _ _ _ _ _ _ m a HB Hs Hc Hd).
        -- destruct k; simpl in HB |- *.
           ++ apply (Step2_long_prior _ _ _ _ _ _ _ m a HB Hs). now right.
           ++ apply (Step3_long_prior _ _ _ _ _ _ _ m a HB Hs). now right.
      * destruct k; simpl in HB |- *.
        -- apply (Step2_long_prior _ _ _ _ _ _ _ m a HB Hs). now left.
        -- apply (Step3_long_prior _ _ _ _ _ _ _ m a HB Hs). now left.
    + destruct k; simpl in HB |- *.
      * exact (Step2_no_values _ _ _ _ _ _ _ m HB Hs).
      * exact (Step3_no_values _ _ _ _ _ _ _ m HB Hs).
  - destruct k; simpl in HB |- *.
    + unfold Step2.step2_optimize_ida. now rewrite HB.
    + unfold Step3.step3_optimize_idc. now rewrite HB.
Qed.

(** X11.  Stage 2 and Stage 3 on a price vector of whole hours, in closed
    form: the stage raises what the construction of its model raises; on a
    built model it raises a [TypeError] when the solver loaded no value, a
    [ValueError] (after the solve) when a prior vector is longer than the
    price vector, and otherwise returns the solver's values, the profit
    and the combined vectors computed from them. *)
Theorem X11_later_stage_outcome (k : market)
    (n_cycles energy_cap power_cap : Q) (price prior_cha prior_dis : list Q)
    (solver : ConcreteModel -> option assignment) :
  (List.length price mod 4 = 0)%nat ->
  optimize k n_cycles energy_cap power_cap price prior_cha prior_dis solver
  = (m <- build_model (stage_of k) n_cycles energy_cap power_cap price
            prior_cha prior_dis ;;
     after_build k power_cap price prior_cha prior_dis solver m).
Proof. intros _. apply later_stage_run. Qed.

Lemma X11_witness :
  optimize Auction 1 4 4 two_hour_prices (block_cycle_cha ++ [0])
    block_cycle_dis (fun _ => Some idle)
  = (m <- build_model (stage_of Auction) 1 4 4 two_hour_prices
            (block_cycle_cha ++ [0]) block_cycle_dis ;;
     after_build Auction 4 two_hour_prices (block_cycle_cha ++ [0])
       block_cycle_dis (fun _ => Some idle) m).
Proof.
  apply (X11_later_stage_outcome Auction 1 4 4 two_hour_prices
           (block_cycle_cha ++ [0]) block_cycle_dis (fun _ => Some idle)).
  reflexivity.
Defined.

(** ** The cascade *)

Lemma prior_day (a : assignment) (x : vname) (n q : nat) :
  (1 <= q <= n)%nat -> prior (day a x n) q = a x q.
Proof.
  intros Hq. unfold prior. rewrite day_nth by lia. f_equal. lia.
Qed.

Lemma holding_trades (k : market) (a : assignment) (x : vname) (q : nat) :
  In x (trade_vars (stage_of k)) -> holding a x q = 0.
Proof.
  destruct k; simpl; intros [<-|[<-|[<-|[<-|[]]]]]; reflexivity.
Qed.

Lemma holding_day (k : market) (a : assignment) (x : vname) (n : nat) :
  In x (trade_vars (stage_of k)) -> sum_Q (day (holding a) x n) == 0.
Proof.
  intros Hx. unfold day. apply sum_Q_zero. intros y Hy.
  apply in_map_iff in Hy as (q & <- & _).
  now rewrite (holding_trades k a x q Hx).
Qed.

Lemma trade_vars_cha (k : market) : In (cha_of (stage_of k)) (trade_vars (stage_of k)).
Proof. destruct k; simpl; auto. Qed.

Lemma trade_vars_dis (k : market) : In (dis_of (stage_of k)) (trade_vars (stage_of k)).
Proof. destruct k; simpl; auto. Qed.

Lemma trade_vars_cha_close (k : market) : In (cha_close_of k) (trade_vars (stage_of k)).
Proof. destruct k; simpl; auto. Qed.

Lemma trade_vars_dis_close (k : market) : In (dis_close_of k) (trade_vars (stage_of k)).
Proof. destruct k; simpl; auto. Qed.

(** Doing nothing in a later stage: what is asked of the prior vectors and
    of the state of charge that is kept. *)
Lemma holding_constraints (k : market) (n_cycles energy_cap power_cap : Q)
    (prior_cha prior_dis : list Q) (a : assignment) :
  List.length prior_cha = 96%nat -> List.length prior_dis = 96%nat ->
  (forall q, (1 <= q <= 96)%nat ->
     unit_interval (prior prior_cha q) /\ unit_interval (prior prior_dis q)) ->
  a soc 1%nat == 0 -> a soc 97%nat == 0 ->
  (forall q, (1 <= q <= 97)%nat -> 0 <= a soc q <= energy_cap) ->
  (forall q, (1 <= q <= 96)%nat ->
     a soc (q + 1)%nat
     == a soc q + power_cap / 4 * (prior prior_cha q - prior prior_dis q)) ->
  sum_Q prior_cha * power_cap / 4 <= energy_cap * n_cycles ->
  sum_Q prior_dis * power_cap / 4 <= energy_cap * n_cycles ->
  Step23_constraints k n_cycles energy_cap power_cap 96 prior_cha prior_dis
    (holding a).
Proof.
  intros Hc Hd Hu H1 H97 Hb Hstep Hcc Hdc.
  pose proof (trade_vars_cha k) as T1. pose proof (trade_vars_dis k) as T2.
  pose proof (trade_vars_cha_close k) as T3.
  pose proof (trade_vars_dis_close k) as T4.
  constructor; try lia; try assumption.
  - intros q _. rewrite (holding_trades k a _ q T1). lra.
  - intros q _. rewrite (holding_trades k a _ q T2). lra.
  - intros q _. rewrite (holding_trades k a _ q T3). lra.
  - intros q _. rewrite (holding_trades k a _ q T4). lra.
  - intros q Hq. apply Hb. lia.
  - intros q Hq. apply Hb. lia.
  - intros q Hq. change (holding a soc (q + 1)%nat) with (a soc (q + 1)%nat).
    change (holding a soc q) with (a soc q). rewrite (Hstep q Hq).
    destruct k; unfold netflow, stage_of, holding; ring.
  - unfold charged_energy.
    rewrite (holding_day k a _ 96 T1).
    assert (E : dis_closed (stage_of k) (holding a) 96 == 0)
      by (destruct k; exact (holding_day _ a _ 96 T4)).
    rewrite E.
    assert (P : prior_total (stage_of k) prior_cha = sum_Q prior_cha)
      by (destruct k; reflexivity).
    rewrite P. rewrite quarter in Hcc |- *. lra.
  - unfold discharged_energy.
    rewrite (holding_day k a _ 96 T2).
    assert (E : cha_closed (stage_of k) (holding a) 96 == 0)
      by (destruct k; exact (holding_day _ a _ 96 T3)).
    rewrite E.
    assert (P : prior_total (stage_of k) prior_dis = sum_Q prior_dis)
      by (destruct k; reflexivity).
    rewrite P. rewrite quarter in Hdc |- *. lra.
  - intros q Hq. rewrite (holding_trades k a _ q T3).
    destruct (Hu q Hq) as [_ [H _]]. exact H.
  - intros q Hq. rewrite (holding_trades k a _ q T4).
    destruct (Hu q Hq) as [[H _] _]. exact H.
  - intros q Hq. rewrite (holding_trades k a _ q T1).
    destruct (Hu q Hq) as [[_ H] _]. lra.
  - intros q Hq. rewrite (holding_trades k a _ q T2).
    destruct (Hu q Hq) as [_ [_ H]]. lra.
Qed.

(** The objective of a later stage is 0 when nothing is traded. *)
Lemma holding_objective (k : market) (n_cycles energy_cap power_cap : Q)
    (price prior_cha prior_dis : list Q) (m : ConcreteModel) (a : assignment) :
  build_model (stage_of k) n_cycles energy_cap power_cap price
    prior_cha prior_dis = Ok m ->
  eval (holding a) (obj m) == 0.
Proof.
  intros HB. rewrite (later_stage_objective_value k _ _ _ _ _ _ m _ HB).
  apply sum_Q_zero. intros y Hy. apply in_map_iff in Hy as (q & <- & _).
  rewrite (holding_trades k a _ q (trade_vars_cha k)),
          (holding_trades k a _ q (trade_vars_dis k)),
          (holding_trades k a _ q (trade_vars_cha_close k)),
          (holding_trades k a _ q (trade_vars_dis_close k)).
  ring.
Qed.

(** Doing nothing is feasible in a later stage and earns nothing, so an
    optimal solution of that stage earns at least nothing. *)
Lemma holding_next_stage (k : market) (n_cycles energy_cap power_cap : Q)
    (price prior_cha prior_dis : list Q) (a : assignment) :
  List.length price = 96%nat ->
  Step23_constraints k n_cycles energy_cap power_cap 96 prior_cha prior_dis
    (holding a) ->
  exists m,
    build_model (stage_of k) n_cycles energy_cap power_cap price
      prior_cha prior_dis = Ok m
    /\ feasible (holding a) m = true
    /\ eval (holding a) (obj m) == 0
    /\ (forall a', optimal a' m -> 0 <= eval a' (obj m)).
Proof.
  intros Hlen S.
  destruct (later_stage_build_total k n_cycles energy_cap power_cap price
              prior_cha prior_dis) as (m & HB).
  - lia.
  - pose proof (s23_prior_cha_len _ _ _ _ _ _ _ _ S). lia.
  - pose proof (s23_prior_dis_len _ _ _ _ _ _ _ _ S). lia.
  - exists m. split; [exact HB|].
    assert (HF : feasible (holding a) m = true).
    { apply (later_stage_complete k _ _ _ _ _ _ m _ HB). now rewrite Hlen. }
    pose proof (holding_objective k _ _ _ _ _ _ m a HB) as H0.
    repeat split; try assumption.
    intros a' [_ Hopt]. rewrite <- H0. now apply Hopt.
Qed.

(** X12.  After Stage 1 has returned a feasible solution for 96 prices,
    the next stage, given the returned charge and discharge schedules as
    prior vectors (and the same capacities and cycles), builds its model,
    and doing nothing (no trade, the same state of charge) is a feasible
    solution of it with objective 0; every optimal solution of that stage
    therefore has a non-negative objective. *)
Theorem X12_holding_after_day_ahead (k : market)
    (n_cycles energy_cap power_cap : Q) (daa_price price : list Q)
    (solver : ConcreteModel -> option assignment)
    (m1 : ConcreteModel) (a1 : assignment) :
  Step1.build_model n_cycles energy_cap power_cap daa_price = Ok m1 ->
  solver m1 = Some a1 ->
  feasible a1 m1 = true ->
  List.length daa_price = 96%nat ->
  List.length price = 96%nat ->
  exists r1 m,
    Step1.step1_optimize_daa n_cycles energy_cap power_cap daa_price solver
    = Ok r1
    /\ build_model (stage_of k) n_cycles energy_cap power_cap price
         (res1_cha r1) (res1_dis r1) = Ok m
    /\ feasible (holding a1) m = true
    /\ eval (holding a1) (obj m) == 0
    /\ (forall a', optimal a' m -> 0 <= eval a' (obj m)).
Proof.
  intros HB Hs HF Hlen1 Hlen.
  exists (solved1 power_cap daa_price a1).
  destruct (Step1_sound _ _ _ _ _ _ HB HF)
    as [Hc Hd Hmax Hmin Hfst Hlst Hstep Hcc Hdc _ _ _].
  rewrite (sum_Q_scale (a1 cha_daa)) in Hcc.
  rewrite (sum_Q_scale (a1 dis_daa)) in Hdc.
  destruct (holding_next_stage k n_cycles energy_cap power_cap price
              (day a1 cha_daa 96) (day a1 dis_daa 96) a1 Hlen)
    as (m & HBm & Hrest).
  - apply holding_constraints; try apply day_length; try assumption.
    + intros q Hq. rewrite !prior_day by exact Hq.
      split; [apply Hc | apply Hd]; exact Hq.
    + intros q Hq. split; [apply Hmin | apply Hmax]; exact Hq.
    + intros q Hq. rewrite !prior_day by exact Hq.
      rewrite (Hstep q Hq). ring.
  - exists m. split; [exact (Step1_result _ _ _ _ _ m1 a1 HB Hs Hlen1)|].
    cbn [solved1 res1_cha res1_dis]. rewrite Hlen1.
    split; [exact HBm | exact Hrest].
Qed.

Lemma X12_witness :
  exists r1 m,
    Step1.step1_optimize_daa 1 4 4 two_hour_prices (fun _ => Some block_cycle)
    = Ok r1
    /\ build_model (stage_of Auction) 1 4 4 two_hour_prices
         (res1_cha r1) (res1_dis r1) = Ok m
    /\ feasible (holding block_cycle) m = true
    /\ eval (holding block_cycle) (obj m) == 0
    /\ (forall a', optimal a' m -> 0 <= eval a' (obj m)).
Proof.
  apply (X12_holding_after_day_ahead Auction 1 4 4 two_hour_prices
           two_hour_prices (fun _ => Some block_cycle)
           (model_of (Step1.build_model 1 4 4 two_hour_prices)) block_cycle).
  - vm_compute. reflexivity.
  - reflexivity.
  - vm_compute. reflexivity.
  - reflexivity.
  - reflexivity.
Defined.




(** ** Feasibility of Stage 1 *)

Lemma Step1_build_long_enough (n_cycles energy_cap power_cap : Q)
    (price : list Q) (m : ConcreteModel) :
  Step1.build_model n_cycles energy_cap power_cap price = Ok m ->
  (96 <= List.length price)%nat.
Proof.
  intros HB. destruct (le_lt_dec 96 (List.length price)) as [H|H]; [exact H|].
  rewrite (Step1_build_short _ _ _ _ H) in HB. discriminate.
Qed.

Lemma idle_constraints (n_cycles energy_cap power_cap : Q) :
  0 <= energy_cap -> 0 <= energy_cap * n_cycles ->
  Step1_constraints n_cycles energy_cap power_cap idle.
Proof.
  intros He Hv.
  constructor; unfold idle; intros; try lra; try reflexivity.
  - rewrite sum_Q_zero; [lra|].
    intros x Hx. apply in_map_iff in Hx as (q & <- & _). field.
  - rewrite sum_Q_zero; [lra|].
    intros x Hx. apply in_map_iff in Hx as (q & <- & _). field.
Qed.

(** X14.  For a non-negative power capacity, the Stage 1 model has a
    feasible solution exactly when the energy capacity and the cycle
    budget [energy_cap * n_cycles] are non-negative; the all-zero
    assignment is then feasible with objective 0, so that every optimal
    solution has a non-negative objective. *)
Theorem X14_day_ahead_feasibility (n_cycles energy_cap power_cap : Q)
    (price : list Q) (m : ConcreteModel) :
  Step1.build_model n_cycles energy_cap power_cap price = Ok m ->
  0 <= power_cap ->
  ((exists a, feasible a m = true)
   <-> 0 <= energy_cap /\ 0 <= energy_cap * n_cycles)
  /\ (0 <= energy_cap -> 0 <= energy_cap * n_cycles ->
      feasible idle m = true
      /\ eval idle (obj m) == 0
      /\ forall a, optimal a m -> 0 <= eval a (obj m)).
Proof.
  intros HB Hp.
  assert (Hidle : 0 <= energy_cap -> 0 <= energy_cap * n_cycles ->
                  feasible idle m = true).
  { intros He Hv. apply (Step1_complete _ _ _ _ _ _ HB).
    now apply idle_constraints. }
  split; [split|].
  - intros (a & HF).
    destruct (Step1_sound _ _ _ _ _ _ HB HF)
      as [Hc _ Hmax _ Hfst _ _ Hcc _ _ _ _].
    split.
    + rewrite <- Hfst. apply Hmax. lia.
    + eapply Qle_trans; [|exact Hcc]. apply sum_Q_nonneg.
      intros x Hx. apply in_map_iff in Hx as (q & <- & Hq).
      apply RangeSet_In in Hq. destruct (Hc q Hq) as [H0 _].
      assert (0 <= a cha_daa q * power_cap) by (apply Qmult_le_0_compat; lra).
      rewrite quarter. lra.
  - intros [He Hv]. exists idle. now apply Hidle.
  - intros He Hv.
    assert (H0 : eval idle (obj m) == 0).
    { rewrite (Step1_objective_value _ _ _ _ m idle HB)
        by exact (Step1_build_long_enough _ _ _ _ _ HB).
      apply sum_Q_zero. intros y Hy. apply in_map_iff in Hy as (q & <- & _).
      unfold idle. ring. }
    repeat split; [now apply Hidle | exact H0 |].
    intros a [_ Hopt]. rewrite <- H0. apply Hopt. now apply Hidle.
Qed.

Lemma X14_witness :
  ((exists a,
      feasible a (model_of (Step1.build_model 1 4 4 two_hour_prices)) = true)
   <-> 0 <= 4 /\ 0 <= 4 * 1)
  /\ (0 <= 4 -> 0 <= 4 * 1 ->
      feasible idle (model_of (Step1.build_model 1 4 4 two_hour_prices)) = true
      /\ eval idle (obj (model_of (Step1.build_model 1 4 4 two_hour_prices)))
         == 0
      /\ forall a,
           optimal a (model_of (Step1.build_model 1 4 4 two_hour_prices)) ->
           0 <= eval a (obj (model_of (Step1.build_model 1 4 4 two_hour_prices)))).
Proof.
  apply (X14_day_ahead_feasibility 1 4 4 two_hour_prices).
  - vm_compute. reflexivity.
  - discriminate.
Defined.

(** X15.  With a negative energy capacity the model of every stage is
    infeasible: the initial state of charge 0 already exceeds the
    capacity. *)
Theorem X15_negative_capacity_infeasible (s : stage)
    (n_cycles energy_cap power_cap : Q)
    (price prior_cha prior_dis : list Q) (m : ConcreteModel) (a : assignment) :
  build_model s n_cycles energy_cap power_cap price prior_cha prior_dis = Ok m ->
  energy_cap < 0 ->
  feasible a m = false.
Proof.
  intros HB He. destruct (feasible a m) eqn:HF; [exfalso|reflexivity].
  destruct (stage_soc s _ _ _ _ _ _ m a HB HF) as (H1 & _ & Hb & _).
  destruct (Hb 1%nat) as [_ H]; [lia|]. lra.
Qed.

Lemma X15_witness :
  feasible idle (model_of (Step1.build_model 1 (-1) 1 two_hour_prices)) = false.
Proof.
  apply (X15_negative_capacity_infeasible DAA 1 (-1) 1 two_hour_prices [] []).
  - vm_compute. reflexivity.
  - reflexivity.
Defined.

(** ** Stage 3 runs as Stage 2 *)

(** X16.  On identical inputs for which both models are built, Stage 3
    returns (or raises) exactly what Stage 2 does when the solver of
    Stage 2 loads, under the Stage 2 names, the values the solver of
    Stage 3 loads. *)
Theorem X16_stage3_runs_as_stage2 (n_cycles energy_cap power_cap : Q)
    (price prior_cha prior_dis : list Q)
    (solver2 solver3 : ConcreteModel -> option assignment)
    (m2 m3 : ConcreteModel) :
  Step2.build_model n_cycles energy_cap power_cap price prior_cha prior_dis
  = Ok m2 ->
  Step3.build_model n_cycles energy_cap power_cap price prior_cha prior_dis
  = Ok m3 ->
  solver2 m2 = option_map as_ida (solver3 m3) ->
  Step3.step3_optimize_idc n_cycles energy_cap power_cap price
    prior_cha prior_dis solver3
  = Step2.step2_optimize_ida n_cycles energy_cap power_cap price
      prior_cha prior_dis solver2.
Proof.
  intros HB2 HB3 Hs.
  pose proof (later_stage_run Auction n_cycles energy_cap power_cap price
                prior_cha prior_dis solver2) as R2.
  pose proof (later_stage_run Continuous n_cycles energy_cap power_cap price
                prior_cha prior_dis solver3) as R3.
  cbn [optimize stage_of build_model] in R2, R3.
  rewrite R2, R3, HB2, HB3. cbn [bind]. unfold after_build. rewrite Hs.
  destruct (solver3 m3) as [a|]; [|reflexivity]. cbn [option_map].
  destruct ((List.length prior_cha =? List.length price)%nat
            && (List.length prior_dis =? List.length price)%nat);
    reflexivity.
Qed.

Lemma X16_witness :
  Step3.step3_optimize_idc 1 4 4 two_hour_prices block_cycle_cha
    block_cycle_dis (fun _ => Some reshaped)
  = Step2.step2_optimize_ida 1 4 4 two_hour_prices block_cycle_cha
      block_cycle_dis (fun _ => Some (as_ida reshaped)).
Proof.
  apply (X16_stage3_runs_as_stage2 1 4 4 two_hour_prices block_cycle_cha
           block_cycle_dis (fun _ => Some (as_ida reshaped))
           (fun _ => Some reshaped)
           (model_of (Step2.build_model 1 4 4 two_hour_prices
                        block_cycle_cha block_cycle_dis))
           (model_of (Step3.build_model 1 4 4 two_hour_prices
                        block_cycle_cha block_cycle_dis))).
  - vm_compute. reflexivity.
  - vm_compute. reflexivity.
  - reflexivity.
Defined.

(** ** The returned schedules *)

(** X17.  When Stage 1 returns a feasible solution for 96 prices, the
    returned state-of-charge list has 96 entries (the checkpoints 1 to
    96), starts at 0, moves from each entry to the next by
    [power_cap / 4] times the returned charge minus the returned discharge
    of the quarter, and the last entry with the flow of quarter 96 gives
    0, the state at the checkpoint 97 that is not returned. *)
Theorem X17_day_ahead_returned_soc (n_cycles energy_cap power_cap : Q)
    (price : list Q) (solver : ConcreteModel -> option assignment)
    (m : ConcreteModel) (a : assignment) :
  Step1.build_model n_cycles energy_cap power_cap price = Ok m ->
  solver m = Some a ->
  feasible a m = true ->
  List.length price = 96%nat ->
  exists r,
    Step1.step1_optimize_daa n_cycles energy_cap power_cap price solver = Ok r
    /\ List.length (res1_soc r) = 96%nat
    /\ nth 0 (res1_soc r) 0 == 0
    /\ (forall i, (i < 95)%nat ->
          nth (S i) (res1_soc r) 0
          == nth i (res1_soc r) 0
             + power_cap / 4 * (nth i (res1_cha r) 0 - nth i (res1_dis r) 0))
    /\ nth 95 (res1_soc r) 0
       + power_cap / 4 * (nth 95 (res1_cha r) 0 - nth 95 (res1_dis r) 0) == 0.
Proof.
  intros HB Hs HF Hlen. exists (solved1 power_cap price a).
  split; [exact (Step1_result _ _ _ _ _ m a HB Hs Hlen)|].
  destruct (stage_soc DAA _ _ _ _ [] [] m a HB HF) as (Hfst & Hlst & _ & Hstep).
  cbn [solved1 res1_soc res1_cha res1_dis]. rewrite Hlen.
  split; [apply day_length|]. split; [rewrite day_nth by lia; exact Hfst|].
  split.
  - intros i Hi. rewrite !day_nth by lia.
    replace (S i + 1)%nat with (i + 1 + 1)%nat by lia.
    rewrite (Hstep (i + 1)%nat) by lia. reflexivity.
  - rewrite !day_nth by lia. change (95 + 1)%nat with 96%nat.
    rewrite <- Hlst. change 97%nat with (96 + 1)%nat.
    rewrite (Hstep 96%nat) by lia. reflexivity.
Qed.

Lemma X17_witness :
  exists r,
    Step1.step1_optimize_daa 1 4 4 two_hour_prices (fun _ => Some block_cycle)
    = Ok r
    /\ List.length (res1_soc r) = 96%nat
    /\ nth 0 (res1_soc r) 0 == 0
    /\ (forall i, (i < 95)%nat ->
          nth (S i) (res1_soc r) 0
          == nth i (res1_soc r) 0
             + 4 / 4 * (nth i (res1_cha r) 0 - nth i (res1_dis r) 0))
    /\ nth 95 (res1_soc r) 0
       + 4 / 4 * (nth 95 (res1_cha r) 0 - nth 95 (res1_dis r) 0) == 0.
Proof.
  apply (X17_day_ahead_returned_soc 1 4 4 two_hour_prices
           (fun _ => Some block_cycle)
           (model_of (Step1.build_model 1 4 4 two_hour_prices)) block_cycle).
  - vm_compute. reflexivity.
  - reflexivity.
  - vm_compute. reflexivity.
  - reflexivity.
Defined.



(** ** Feasibility of the later stages *)

Lemma unwinding_constraints (k : market) (n_cycles energy_cap power_cap : Q)
    (prior_cha prior_dis : list Q) :
  List.length prior_cha = 96%nat -> List.length prior_dis = 96%nat ->
  (forall q, (1 <= q <= 96)%nat ->
     unit_interval (prior prior_cha q) /\ unit_interval (prior prior_dis q)) ->
  0 <= energy_cap -> 0 <= energy_cap * n_cycles ->
  Step23_constraints k n_cycles energy_cap power_cap 96 prior_cha prior_dis
    (unwinding prior_cha prior_dis).
Proof.
  intros Hc Hd Hu He Hv.
  assert (Sc : sum_Q (map (prior prior_cha) (RangeSet 1 96)) = sum_Q prior_cha)
    by (rewrite <- Hc, <- list_as_day; reflexivity).
  assert (Sd : sum_Q (map (prior prior_dis) (RangeSet 1 96)) = sum_Q prior_dis)
    by (rewrite <- Hd, <- list_as_day; reflexivity).
  assert (Z : sum_Q (map (fun _ : nat => 0) (RangeSet 1 96)) == 0)
    by apply sum_Q_map_zero.
  assert (U : forall x q, unwinding prior_cha prior_dis x q = 0
                           \/ unwinding prior_cha prior_dis x q = prior prior_cha q
                           \/ unwinding prior_cha prior_dis x q = prior prior_dis q)
    by (intros [] q; simpl; auto).
  assert (B : forall x q, (1 <= q <= 96)%nat ->
                          0 <= unwinding prior_cha prior_dis x q <= 1).
  { intros x q Hq. destruct (Hu q Hq) as [[? ?] [? ?]].
    destruct (U x q) as [->|[->| ->]]; lra. }
  constructor; try lia.
  - intros q Hq. now apply B.
  - intros q Hq. now apply B.
  - intros q Hq. now apply B.
  - intros q Hq. now apply B.
  - intros q _. exact He.
  - intros q _. apply Qle_refl.
  - reflexivity.
  - reflexivity.
  - intros q _. destruct k; unfold unwinding, netflow, stage_of; ring.
  - unfold charged_energy, day.
    destruct k; unfold prior_total, dis_closed, day, stage_of, cha_of;
      change (map (unwinding prior_cha prior_dis cha_ida) (RangeSet 1 96))
        with (map (fun _ : nat => 0) (RangeSet 1 96));
      change (map (unwinding prior_cha prior_dis cha_idc) (RangeSet 1 96))
        with (map (fun _ : nat => 0) (RangeSet 1 96));
      change (map (unwinding prior_cha prior_dis dis_ida_close) (RangeSet 1 96))
        with (map (prior prior_cha) (RangeSet 1 96));
      change (map (unwinding prior_cha prior_dis dis_idc_close) (RangeSet 1 96))
        with (map (prior prior_cha) (RangeSet 1 96));
      rewrite Sc, Z, quarter;
      set (t := sum_Q prior_cha) in *;
      assert (E : (t + 0 - t) * power_cap * (1 # 4) == 0) by ring;
      rewrite E; exact Hv.
  - unfold discharged_energy, day.
    destruct k; unfold prior_total, cha_closed, day, stage_of, dis_of;
      change (map (unwinding prior_cha prior_dis dis_ida) (RangeSet 1 96))
        with (map (fun _ : nat => 0) (RangeSet 1 96));
      change (map (unwinding prior_cha prior_dis dis_idc) (RangeSet 1 96))
        with (map (fun _ : nat => 0) (RangeSet 1 96));
      change (map (unwinding prior_cha prior_dis cha_ida_close) (RangeSet 1 96))
        with (map (prior prior_dis) (RangeSet 1 96));
      change (map (unwinding prior_cha prior_dis cha_idc_close) (RangeSet 1 96))
        with (map (prior prior_dis) (RangeSet 1 96));
      rewrite Sd, Z, quarter;
      set (t := sum_Q prior_dis) in *;
      assert (E : (t + 0 - t) * power_cap * (1 # 4) == 0) by ring;
      rewrite E; exact Hv.
  - intros q _. destruct k; apply Qle_refl.
  - intros q _. destruct k; apply Qle_refl.
  - intros q Hq. destruct (Hu q Hq) as [[? ?] [? ?]].
    destruct k; unfold unwinding, stage_of, cha_of; lra.
  - intros q Hq. destruct (Hu q Hq) as [[? ?] [? ?]].
    destruct k; unfold unwinding, stage_of, dis_of; lra.
Qed.

(** X19.  For a non-negative power capacity and vectors of 96 entries,
    the Stage 2 (or Stage 3) model has a feasible solution exactly when
    the energy capacity and the cycle budget are non-negative and every
    prior entry lies in [0,1]; unwinding the whole prior position is then
    a feasible solution, and the stage run on it returns all-zero combined
    vectors. *)
Theorem X19_later_stage_feasibility (k : market)
    (n_cycles energy_cap power_cap : Q) (price prior_cha prior_dis : list Q)
    (m : ConcreteModel) :
  build_model (stage_of k) n_cycles energy_cap power_cap price
    prior_cha prior_dis = Ok m ->
  0 <= power_cap ->
  List.length price = 96%nat ->
  List.length prior_cha = 96%nat ->
  List.length prior_dis = 96%nat ->
  ((exists a, feasible a m = true)
   <-> (0 <= energy_cap /\ 0 <= energy_cap * n_cycles
        /\ forall q, (1 <= q <= 96)%nat ->
             unit_interval (prior prior_cha q)
             /\ unit_interval (prior prior_dis q)))
  /\ ((exists a, feasible a m = true) ->
      feasible (unwinding prior_cha prior_dis) m = true)
  /\ (forall solver, solver m = Some (unwinding prior_cha prior_dis) ->
      exists r,
        optimize k n_cycles energy_cap power_cap price prior_cha prior_dis
          solver = Ok r
        /\ Forall (fun x => x == 0) (res_cha_combined r)
        /\ Forall (fun x => x == 0) (res_dis_combined r)).
Proof.
  intros HB Hp Hlen Hc Hd.
  assert (Hc' : List.length prior_cha = List.length price) by congruence.
  assert (Hd' : List.length prior_dis = List.length price) by congruence.
  assert (Hnec : (exists a, feasible a m = true) ->
                 0 <= energy_cap /\ 0 <= energy_cap * n_cycles
                 /\ forall q, (1 <= q <= 96)%nat ->
                      unit_interval (prior prior_cha q)
                      /\ unit_interval (prior prior_dis q)).
  { intros (a & HF).
    pose proof (later_stage_sound k _ _ _ _ _ _ m a HB HF) as S.
    rewrite Hlen in S.
    destruct (stage_soc (stage_of k) _ _ _ _ _ _ m a HB HF) as (H1 & _ & Hb & _).
    split; [destruct (Hb 1%nat) as [_ H]; [lia | lra]|].
    split; [|intros q Hq; exact (prior_outside_infeasible _ _ _ _ _ _ _ _ q S Hq)].
    eapply Qle_trans; [|exact (s23_cha_cycle _ _ _ _ _ _ _ _ S)].
    unfold charged_energy.
    assert (P : prior_total (stage_of k) prior_cha
                = sum_Q (map (prior prior_cha) (RangeSet 1 96)))
      by (destruct k; unfold prior_total, stage_of;
          rewrite <- Hc, <- list_as_day; reflexivity).
    assert (E : dis_closed (stage_of k) a 96 = sum_Q (day a (dis_close_of k) 96))
      by (destruct k; reflexivity).
    rewrite P, E. unfold day.
    rewrite <- sum_Q_map_plus, <- sum_Q_map_minus.
    rewrite quarter.
    assert (0 <= sum_Q (map (fun x => prior prior_cha x + a (cha_of (stage_of k)) x
                                       - a (dis_close_of k) x) (RangeSet 1 96))).
    { apply sum_Q_nonneg. intros y Hy.
      apply in_map_iff in Hy as (q & <- & Hq). apply RangeSet_In in Hq.
      pose proof (s23_cha_bounds _ _ _ _ _ _ _ _ S q Hq).
      pose proof (s23_dis_close _ _ _ _ _ _ _ _ S q Hq). lra. }
    clear P E. revert H.
    generalize (sum_Q (map (fun x => prior prior_cha x
                                     + a (cha_of (stage_of k)) x
                                     - a (dis_close_of k) x) (RangeSet 1 96))).
    intros t Ht.
    assert (0 <= t * power_cap) by (apply Qmult_le_0_compat; assumption).
    lra. }
  assert (Hsuf : 0 <= energy_cap -> 0 <= energy_cap * n_cycles ->
                 (forall q, (1 <= q <= 96)%nat ->
                    unit_interval (prior prior_cha q)
                    /\ unit_interval (prior prior_dis q)) ->
                 feasible (unwinding prior_cha prior_dis) m = true).
  { intros He Hv Hu. apply (later_stage_complete k _ _ _ _ _ _ m _ HB).
    rewrite Hlen. now apply unwinding_constraints. }
  split; [split|split].
  - exact Hnec.
  - intros (He & Hv & Hu). exists (unwinding prior_cha prior_dis). now apply Hsuf.
  - intros Hex. destruct (Hnec Hex) as (He & Hv & Hu). now apply Hsuf.
  - intros solver Hs.
    exists (solved k power_cap price prior_cha prior_dis
              (unwinding prior_cha prior_dis)).
    split; [exact (later_stage_result k _ _ _ _ _ _ _ m _ HB Hs Hc' Hd')|].
    split; apply Forall_nth; intros i d Hi; rewrite (nth_indep _ d 0 Hi);
      cbn [solved res_cha_combined res_dis_combined] in Hi |- *;
      rewrite !zip_with_length in Hi by lens;
      rewrite !zip_with_nth by lens; rewrite !day_nth by lia;
      destruct k; unfold unwinding, stage_of, cha_of, dis_of, cha_close_of,
        dis_close_of; rewrite prior_nth; ring.
Qed.

Lemma X19_witness :
  ((exists a,
      feasible a (model_of (Step2.build_model 1 4 4 two_hour_prices
                              block_cycle_cha block_cycle_dis)) = true)
   <-> (0 <= 4 /\ 0 <= 4 * 1
        /\ forall q, (1 <= q <= 96)%nat ->
             unit_interval (prior block_cycle_cha q)
             /\ unit_interval (prior block_cycle_dis q)))
  /\ ((exists a,
         feasible a (model_of (Step2.build_model 1 4 4 two_hour_prices
                                 block_cycle_cha block_cycle_dis)) = true) ->
      feasible (unwinding block_cycle_cha block_cycle_dis)
        (model_of (Step2.build_model 1 4 4 two_hour_prices
                     block_cycle_cha block_cycle_dis)) = true)
  /\ (forall solver,
        solver (model_of (Step2.build_model 1 4 4 two_hour_prices
                            block_cycle_cha block_cycle_dis))
        = Some (unwinding block_cycle_cha block_cycle_dis) ->
        exists r,
          optimize Auction 1 4 4 two_hour_prices block_cycle_cha
            block_cycle_dis solver = Ok r
          /\ Forall (fun x => x == 0) (res_cha_combined r)
          /\ Forall (fun x => x == 0) (res_dis_combined r)).
Proof.
  apply (X19_later_stage_feasibility Auction 1 4 4 two_hour_prices
           block_cycle_cha block_cycle_dis).
  - vm_compute. reflexivity.
  - discriminate.
  - reflexivity.
  - reflexivity.
  - reflexivity.
Defined.

(** ** More capacity *)

Lemma budget_mono (e e' c c' : Q) :
  0 <= e -> e <= e' -> 0 <= c -> c <= c' -> e * c <= e' * c'.
Proof.
  intros He Hee Hc Hcc.
  assert (0 <= e' * (c' - c)) by (apply Qmult_le_0_compat; lra).
  assert (0 <= (e' - e) * c) by (apply Qmult_le_0_compat; lra).
  assert (E : e' * c' - e * c == e' * (c' - c) + (e' - e) * c) by ring.
  lra.
Qed.

(** X20.  Raising the number of cycles (from a non-negative number) or
    the energy capacity never removes a feasible solution and does not
    change the objective: a solution feasible for a stage stays feasible,
    with the same objective value, for the same stage with more cycles and
    more energy capacity. *)
Theorem X20_more_capacity_keeps_feasible (s : stage)
    (n_cycles n_cycles' energy_cap energy_cap' power_cap : Q)
    (price prior_cha prior_dis : list Q) (m m' : ConcreteModel)
    (a : assignment) :
  build_model s n_cycles energy_cap power_cap price prior_cha prior_dis = Ok m ->
  build_model s n_cycles' energy_cap' power_cap price prior_cha prior_dis
  = Ok m' ->
  0 <= n_cycles -> n_cycles <= n_cycles' -> energy_cap <= energy_cap' ->
  feasible a m = true ->
  feasible a m' = true /\ eval a (obj m') = eval a (obj m).
Proof.
  intros HB HB' Hn Hnn Hee HF.
  destruct (stage_soc s _ _ _ _ _ _ m a HB HF) as (H1 & _ & Hb & _).
  assert (He : 0 <= energy_cap) by (destruct (Hb 1%nat); [lia | lra]).
  pose proof (budget_mono _ _ _ _ He Hee Hn Hnn) as Hv.
  destruct s; simpl in HB, HB'.
  - split.
    + apply (Step1_complete _ _ _ _ _ _ HB').
      destruct (Step1_sound _ _ _ _ _ _ HB HF)
        as [Hc Hd Hmax Hmin Hfst Hlst Hstep Hcc Hdc H12 H23 H34].
      constructor; try assumption.
      * intros q Hq. specialize (Hmax q Hq). lra.
      * lra.
      * lra.
    + rewrite (Step1_objective_value _ _ _ _ m a HB)
        by exact (Step1_build_long_enough _ _ _ _ _ HB).
      rewrite (Step1_objective_value _ _ _ _ m' a HB')
        by exact (Step1_build_long_enough _ _ _ _ _ HB').
      reflexivity.
  - split.
    + apply (Step2_complete _ _ _ _ _ _ _ _ HB').
      destruct (Step2_sound _ _ _ _ _ _ _ _ HB HF)
        as [? ? ? ? ? ? ? Hmax ? ? ? ? Hcc Hdc ? ? ? ?].
      constructor; try assumption.
      * intros q Hq. specialize (Hmax q Hq). lra.
      * lra.
      * lra.
    + rewrite (Step2_objective_value _ _ _ _ _ _ m a HB).
      rewrite (Step2_objective_value _ _ _ _ _ _ m' a HB'). reflexivity.
  - split.
    + apply (Step3_complete _ _ _ _ _ _ _ _ HB').
      destruct (Step3_sound _ _ _ _ _ _ _ _ HB HF)
        as [? ? ? ? ? ? ? Hmax ? ? ? ? Hcc Hdc ? ? ? ?].
      constructor; try assumption.
      * intros q Hq. specialize (Hmax q Hq). lra.
      * lra.
      * lra.
    + rewrite (Step3_objective_value _ _ _ _ _ _ m a HB).
      rewrite (Step3_objective_value _ _ _ _ _ _ m' a HB'). reflexivity.
Qed.

Lemma X20_witness :
  feasible front_loaded (model_of (Step1.build_model 2 4 4 two_hour_prices))
  = true
  /\ eval front_loaded (obj (model_of (Step1.build_model 2 4 4 two_hour_prices)))
     = eval front_loaded
         (obj (model_of (Step1.build_model 1 1 4 two_hour_prices))).
Proof.
  apply (X20_more_capacity_keeps_feasible DAA 1 2 1 4 4 two_hour_prices [] []).
  - vm_compute. reflexivity.
  - vm_compute. reflexivity.
  - discriminate.
  - discriminate.
  - discriminate.
  - vm_compute. reflexivity.
Defined.
